(** * VSM Phoenix document organizer: a shallow embedding and its properties

    Source: [scripts/tools/document_organizer.py], class [DocumentAnalyzer].

    Conventions of the embedding.
    - A Python [str] is a Rocq [string]; a character is a code point in the
      range U+0000..U+00FF (Rocq's 8-bit [ascii]), and [str.lower],
      [str.isupper], [str.split] and the regex class [\s] are Python's on that
      range.
    - Python integers are [Z]; [len] is a [nat].
    - A [pathlib.Path] is the list of its components ([Path.parts]) of a
      relative path; [str(path)] joins them with "/".
    - A [dict] is a [gmap]; a [set] is a [gset].
    - [int / int] is the exact rational in [Q]. Python rounds the quotient to
      the nearest double, and the literal 0.85 is the double nearest to 17/20;
      comparing the two doubles gives the same answer as comparing the exact
      quotient with 17/20 as long as the divisor is below 2^48.
    - A raised exception is [None] in the [option] monad.
    - The fields [headers], [links], [code_blocks], [lists] and [keywords] of a
      document record are regex extractions that categorization, duplicate
      detection and reorganization do not read; the record [Doc] leaves them
      out, and [DocInfo] is the record with all its fields.
    - A disk is the map of its regular files together with the set of its
      directories; [setup_directories] and [run] work on disks, the other
      operations on the map of files.
    - The texts of the two analysis reports are left to an interface: they
      hold the date of the run, and nothing below reads them. *)

From Stdlib Require Import ZArith QArith Ascii.
From stdpp Require Import gmap strings list fin_maps.

Local Open Scope Z_scope.

(** ** Characters and strings *)

Module Char.

Definition code (c : ascii) : N := N_of_ascii c.

(** [str.isspace] on one character; also the regex class [\s] and the
    separators of [str.split()]. *)
Definition isspace (c : ascii) : bool :=
  let n := code c in
  ((9 <=? n) && (n <=? 13) || (28 <=? n) && (n <=? 32)
   || (n =? 133) || (n =? 160))%N.

Definition isupper (c : ascii) : bool :=
  let n := code c in
  ((65 <=? n) && (n <=? 90)
   || (192 <=? n) && (n <=? 222) && negb (n =? 215))%N.

Definition islower (c : ascii) : bool :=
  let n := code c in
  ((97 <=? n) && (n <=? 122) || (n =? 170) || (n =? 181) || (n =? 186)
   || (223 <=? n) && negb (n =? 247))%N.

Definition lower (c : ascii) : ascii :=
  if isupper c then ascii_of_N (code c + 32) else c.

End Char.

Module Str.

Fixpoint map (f : ascii → ascii) (s : string) : string :=
  match s with
  | "" => ""
  | String c s' => String (f c) (map f s')
  end.

Fixpoint any (p : ascii → bool) (s : string) : bool :=
  match s with
  | "" => false
  | String c s' => p c || any p s'
  end.

(** [s.startswith(p)] *)
Fixpoint startswith (p s : string) : bool :=
  match p, s with
  | "", _ => true
  | String _ _, "" => false
  | String a p', String b s' => Ascii.eqb a b && startswith p' s'
  end.

(** [needle in s] *)
Fixpoint contains (needle s : string) : bool :=
  startswith needle s ||
  match s with
  | "" => false
  | String _ s' => contains needle s'
  end.

(** [s.endswith(p)] for a non-empty [p] *)
Fixpoint endswith (p s : string) : bool :=
  match s with
  | "" => String.eqb p ""
  | String _ s' => String.eqb p s || endswith p s'
  end.

(** [s.lower()] *)
Definition lower : string → string := map Char.lower.

(** [s.isupper()]: no lowercase character and at least one uppercase one. *)
Definition isupper (s : string) : bool :=
  negb (any Char.islower s) && any Char.isupper s.

(** [s[:n]] *)
Fixpoint take (n : nat) (s : string) : string :=
  match n, s with
  | O, _ => ""
  | S _, "" => ""
  | S n', String c s' => String c (take n' s')
  end.

(** [sep.join(l)] *)
Fixpoint join (sep : string) (l : list string) : string :=
  match l with
  | [] => ""
  | [x] => x
  | x :: l' => x +:+ sep +:+ join sep l'
  end.

(** [s.split()]: the maximal runs of non-whitespace characters. [cur] is
    the run being read. *)
Fixpoint split_go (cur : string) (s : string) : list string :=
  match s with
  | "" => if String.eqb cur "" then [] else [cur]
  | String c s' =>
      if Char.isspace c
      then (if String.eqb cur "" then [] else [cur]) ++ split_go "" s'
      else split_go (cur +:+ String c "") s'
  end.

Definition split (s : string) : list string := split_go "" s.

End Str.

(** ** Quality scoring *)

(** [re.search(r'shit|fuck|damn', s)] *)
Definition search_profanity (s : string) : bool :=
  Str.contains "shit" s || Str.contains "fuck" s || Str.contains "damn" s.

(** [re.search(r'^#\s+', s, re.MULTILINE)]: a "#" at the start of the text or
    right after a line feed, followed by at least one whitespace character.
    [bol] tells whether the current position starts a line. *)
Fixpoint search_header_from (bol : bool) (s : string) : bool :=
  match s with
  | "" => false
  | String c s' =>
      (bol && Ascii.eqb c "#" &&
       match s' with String d _ => Char.isspace d | "" => false end)
      || search_header_from (Ascii.eqb c "010") s'
  end.

Definition search_top_header (s : string) : bool := search_header_from true s.

Definition has_marker (content : string) : bool :=
  Str.contains "TODO" content || Str.contains "FIXME" content.

Definition has_profanity (content : string) : bool :=
  search_profanity (Str.lower content).

Definition too_short (content : string) : bool :=
  (String.length content <? 500)%nat.

Definition no_top_header (content : string) : bool :=
  negb (search_top_header content).

Definition poor_name (filename : string) : bool :=
  Str.isupper filename || Str.contains "_" filename.

Definition assess_quality (content filename : string) : Z :=
  let score := 100 in
  let score := if has_marker content then score - 10 else score in
  let score := if has_profanity content then score - 20 else score in
  let score := if too_short content then score - 15 else score in
  let score := if no_top_header content then score - 10 else score in
  let score := if poor_name filename then score - 5 else score in
  Z.max 0 score.

(** ** Paths *)

Abbreviation Path := (list string).

(** [str(path)]; the path without components is written "." *)
Definition path_str (p : Path) : string :=
  match p with
  | [] => "."
  | _ => Str.join "/" p
  end.

(** [path.name]: the last component, empty for the path "." *)
Definition path_name (p : Path) : string := List.last p "".

(** [path.parent] *)
Definition path_parent (p : Path) : Path := removelast p.

(** [dir / sub / name] with [sub] written "a/b" in the source *)
Definition path_join (dir sub : Path) (name : string) : Path :=
  dir ++ sub ++ [name].

(** ** Categorization *)

Definition categorize_vsm_document (content : string) (file_path : Path)
  : string :=
  let filename_lower := Str.lower (path_name file_path) in
  let content_lower := Str.lower content in
  let path_str := Str.lower (path_str file_path) in
  (* Check subdirectory first *)
  if Str.contains "/api" path_str
     || Str.contains "api_documentation" filename_lower
  then "api_reference"
  else if Str.contains "/mcp" path_str || Str.contains "mcp" filename_lower
  then "mcp_integration"
  else if Str.contains "/testing" path_str
          || Str.contains "test" filename_lower
  then "testing"
  else if Str.contains "/archive" path_str
  then "archive"
  (* Filename patterns *)
  else if Str.contains "hive" filename_lower
          && Str.contains "architecture" filename_lower
  then "hive_architecture"
  else if Str.contains "architecture" filename_lower
          || Str.contains "design" filename_lower
  then "architecture"
  else if Str.contains "cleanup" filename_lower
          || Str.contains "plan" filename_lower
  then "planning"
  else if Str.contains "test" filename_lower
          || Str.contains "result" filename_lower
  then "testing"
  else if Str.contains "proof" filename_lower
          || Str.contains "validation" filename_lower
  then "archive"
  else if Str.contains "final" filename_lower
          || Str.contains "complete" filename_lower
  then "archive"
  (* Content-based *)
  else if Str.contains "endpoint" content_lower
          || Str.contains "http" content_lower
  then "api_reference"
  else if Str.contains "test" content_lower
          && (Str.contains "pass" content_lower
              || Str.contains "fail" content_lower)
  then "testing"
  else if Str.contains "system 1" content_lower
          || Str.contains "system1" content_lower
  then "vsm_systems"
  else "general".

(** The chain as data: a rule is a test on the three lowered strings and the
    category it assigns. *)
Record Rule := {
  rule_test : string → string → string → bool; (* path, filename, content *)
  rule_category : string
}.

Definition on_path (needle : string) : string → string → string → bool :=
  fun p _ _ => Str.contains needle p.
Definition on_name (needle : string) : string → string → string → bool :=
  fun _ n _ => Str.contains needle n.
Definition on_content (needle : string) : string → string → string → bool :=
  fun _ _ c => Str.contains needle c.
Definition either (t u : string → string → string → bool) :=
  fun p n c => t p n c || u p n c.
Definition both (t u : string → string → string → bool) :=
  fun p n c => t p n c && u p n c.

(** First block: a path substring, or for three of the four a filename one. *)
Definition subdirectory_rules : list Rule :=
  [ {| rule_test := either (on_path "/api") (on_name "api_documentation");
       rule_category := "api_reference" |};
    {| rule_test := either (on_path "/mcp") (on_name "mcp");
       rule_category := "mcp_integration" |};
    {| rule_test := either (on_path "/testing") (on_name "test");
       rule_category := "testing" |};
    {| rule_test := on_path "/archive"; rule_category := "archive" |} ].

Definition filename_rules : list Rule :=
  [ {| rule_test := both (on_name "hive") (on_name "architecture");
       rule_category := "hive_architecture" |};
    {| rule_test := either (on_name "architecture") (on_name "design");
       rule_category := "architecture" |};
    {| rule_test := either (on_name "cleanup") (on_name "plan");
       rule_category := "planning" |};
    {| rule_test := either (on_name "test") (on_name "result");
       rule_category := "testing" |};
    {| rule_test := either (on_name "proof") (on_name "validation");
       rule_category := "archive" |};
    {| rule_test := either (on_name "final") (on_name "complete");
       rule_category := "archive" |} ].

Definition content_rules : list Rule :=
  [ {| rule_test := either (on_content "endpoint") (on_content "http");
       rule_category := "api_reference" |};
    {| rule_test :=
         both (on_content "test")
              (either (on_content "pass") (on_content "fail"));
       rule_category := "testing" |};
    {| rule_test := either (on_content "system 1") (on_content "system1");
       rule_category := "vsm_systems" |} ].

Fixpoint first_match (rules : list Rule) (p n c : string) (fallback : string)
  : string :=
  match rules with
  | [] => fallback
  | r :: rules' =>
      if rule_test r p n c then rule_category r
      else first_match rules' p n c fallback
  end.

Definition rule_chain (rules : list Rule) (content : string) (file_path : Path)
  : string :=
  first_match rules
    (Str.lower (path_str file_path))
    (Str.lower (path_name file_path))
    (Str.lower content)
    "general".

(** The chain read from the specification's sentence alone: every path
    substring test, then every filename substring test, then the content
    tests. The tests and their categories are the source's. *)
Definition spec_path_rules : list Rule :=
  [ {| rule_test := on_path "/api"; rule_category := "api_reference" |};
    {| rule_test := on_path "/mcp"; rule_category := "mcp_integration" |};
    {| rule_test := on_path "/testing"; rule_category := "testing" |};
    {| rule_test := on_path "/archive"; rule_category := "archive" |} ].

Definition spec_filename_rules : list Rule :=
  [ {| rule_test := on_name "api_documentation";
       rule_category := "api_reference" |};
    {| rule_test := on_name "mcp"; rule_category := "mcp_integration" |};
    {| rule_test := on_name "test"; rule_category := "testing" |} ]
  ++ filename_rules.

Definition spec_categorize (content : string) (file_path : Path) : string :=
  rule_chain (spec_path_rules ++ spec_filename_rules ++ content_rules)
    content file_path.

(** ** Library functions the module imports

    [hashlib.md5(...).hexdigest()] and [json.dumps] are not code of the
    module. They are taken as an interface; the only fact used about the
    digest is that it is written in lowercase hexadecimal digits. *)

Definition is_hexdigit (c : ascii) : bool :=
  let n := Char.code c in
  ((48 <=? n) && (n <=? 57) || (97 <=? n) && (n <=? 102))%N.

Fixpoint all_hexdigits (s : string) : bool :=
  match s with
  | "" => true
  | String c s' => is_hexdigit c && all_hexdigits s'
  end.

Class PyLib := {
  md5_hexdigest : string → string;
  json_dumps : gmap string string → string;
  md5_hexdigest_hex : ∀ s, all_hexdigits (md5_hexdigest s) = true
}.

(** ** Document records *)

Record Doc := {
  doc_path : Path;
  doc_name : string;
  doc_size : nat;
  doc_content : string;
  doc_category : string;
  doc_hash : string;
  doc_quality_score : Z
}.

(** The record [doc_info] that [scan_documents] builds for one file. *)
Definition doc_info `{PyLib} (file_path : Path) (content : string) : Doc := {|
  doc_path := file_path;
  doc_name := path_name file_path;
  doc_size := String.length content;
  doc_content := content;
  doc_category := categorize_vsm_document content file_path;
  doc_hash := md5_hexdigest content;
  doc_quality_score := assess_quality content (path_name file_path)
|}.

(** ** Filename normalization *)

Definition LF : ascii := "010"%char.

Module Re.

(** [s.replace(old, new)] for a non-empty [old]: occurrences are taken from
    left to right and do not overlap. [skip] counts the characters of the
    occurrence being replaced that are still to be dropped. *)
Fixpoint replace_go (old new : string) (skip : nat) (s : string) : string :=
  match s with
  | "" => ""
  | String c s' =>
      match skip with
      | S k => replace_go old new k s'
      | O =>
          if Str.startswith old s
          then new +:+ replace_go old new (String.length old - 1) s'
          else String c (replace_go old new 0 s')
      end
  end.

Definition replace (old new s : string) : string := replace_go old new 0 s.

(** [re.sub(r'-{2,}', '-', s)]: of a run of hyphens only the last is kept. *)
Fixpoint collapse_hyphens (s : string) : string :=
  match s with
  | "" => ""
  | String c s' =>
      if Ascii.eqb c "-" && Str.startswith "-" s'
      then collapse_hyphens s'
      else String c (collapse_hyphens s')
  end.

(** The regex [$] without [re.MULTILINE]: the end of the text, or just
    before a line feed that ends the text. *)
Definition at_end (s : string) : bool :=
  String.eqb s "" || String.eqb s (String LF "").

(** The alternative [-$] of [re.sub(r'^-|-$', '', s)] *)
Fixpoint strip_trailing_hyphen (s : string) : string :=
  match s with
  | "" => ""
  | String c s' =>
      if Ascii.eqb c "-" && at_end s' then s'
      else String c (strip_trailing_hyphen s')
  end.

(** The alternative [^-] *)
Definition strip_leading_hyphen (s : string) : string :=
  match s with
  | "" => ""
  | String c s' => if Ascii.eqb c "-" then s' else s
  end.

(** [re.sub(r'^-|-$', '', s)] *)
Definition strip_edge_hyphens (s : string) : string :=
  strip_trailing_hyphen (strip_leading_hyphen s).

(** The text before the last [sep] of [s], if [s] has one. *)
Fixpoint before_last (sep : ascii) (s : string) : option string :=
  match s with
  | "" => None
  | String c s' =>
      match before_last sep s' with
      | Some r => Some (String c r)
      | None => if Ascii.eqb c sep then Some "" else None
      end
  end.

(** [s.rsplit(sep, 1)[0]] *)
Definition rsplit_head (sep : ascii) (s : string) : string :=
  default s (before_last sep s).

End Re.

(** The steps of [generate_clean_filename] between the special case and the
    final [f"{name}.md"]. *)
Definition clean_stem (name : string) : string :=
  (* Remove CAPS_WITH_UNDERSCORES pattern *)
  let name := Re.replace ".md" "" name in
  let name := Re.replace "_" "-" name in
  let name := Str.lower name in
  (* Clean up common patterns *)
  let name := Re.collapse_hyphens name in
  let name := Re.strip_edge_hyphens name in
  (* Limit length *)
  if (50 <? String.length name)%nat
  then Re.rsplit_head "-" (Str.take 50 name)
  else name.

(** The body of [generate_clean_filename] on [name = doc['name']]. *)
Definition clean_filename (name : string) : string :=
  (* Special cases *)
  if Str.contains "README" name then "readme.md"
  else clean_stem name +:+ ".md".

Definition generate_clean_filename (doc : Doc) : string :=
  clean_filename (doc_name doc).

(** ** Duplicate detection *)

Definition token_set (text : string) : gset string :=
  list_to_set (Str.split text).

Definition similarity_ratio (text1 text2 : string) : Q :=
  let set1 := token_set text1 in
  let set2 := token_set text2 in
  let intersection := set1 ∩ set2 in
  let union := set1 ∪ set2 in
  if decide (union = ∅) then 0%Q
  else (Z.of_nat (size intersection) # Pos.of_nat (size union))%Q.

Definition threshold : Q := (85 # 100)%Q.

(** [duplicates[key].extend(paths)] on a [defaultdict(list)] *)
Definition dd_extend (key : string) (paths : list Path)
    (duplicates : gmap string (list Path)) : gmap string (list Path) :=
  <[key := default [] (duplicates !! key) ++ paths]> duplicates.

(** f"similar_{doc1['name']}_{doc2['name']}" *)
Definition similar_key (doc1 doc2 : Doc) : string :=
  "similar_" +:+ doc_name doc1 +:+ "_" +:+ doc_name doc2.

(** The body of the inner loop. *)
Definition compare_pair (doc1 doc2 : Doc)
    (duplicates : gmap string (list Path)) : gmap string (list Path) :=
  if decide (doc_hash doc1 = doc_hash doc2)
  then dd_extend (doc_hash doc1) [doc_path doc2]
         (dd_extend (doc_hash doc1) [doc_path doc1] duplicates)
  else if Qlt_le_dec threshold
            (similarity_ratio (doc_content doc1) (doc_content doc2))
  then dd_extend (similar_key doc1 doc2) [doc_path doc1; doc_path doc2]
         duplicates
  else duplicates.

(** The two nested loops: [doc1] against every later document. *)
Fixpoint compare_all (documents : list Doc)
    (duplicates : gmap string (list Path)) : gmap string (list Path) :=
  match documents with
  | [] => duplicates
  | doc1 :: rest =>
      compare_all rest
        (foldl (fun acc doc2 => compare_pair doc1 doc2 acc) duplicates rest)
  end.

(** [list(set(paths))]: the paths without repetition, in the order of the
    set's iteration. *)
Definition dedup_paths (paths : list Path) : list Path :=
  elements (list_to_set paths : gset Path).

Definition find_duplicates (documents : list Doc) : gmap string (list Path) :=
  dedup_paths <$> compare_all documents ∅.

(** Two documents are grouped under a key when the group of that key holds
    the paths of both. *)
Definition grouped_under (key : string) (doc1 doc2 : Doc)
    (duplicates : gmap string (list Path)) : Prop :=
  ∃ paths, duplicates !! key = Some paths
           ∧ doc_path doc1 ∈ paths ∧ doc_path doc2 ∈ paths.

(** ** Corpus statistics *)

(** [a / b] on integers; [ZeroDivisionError] is [None]. *)
Definition truediv (a b : Z) : option Q :=
  if decide (b = 0) then None
  else Some (if decide (0 < b) then (a # Z.to_pos b)%Q
             else (- a # Z.to_pos (- b))%Q).

(** [Counter(items)] *)
Definition counter (items : list string) : gmap string nat :=
  foldl (fun acc x => <[x := S (default O (acc !! x))]> acc) ∅ items.

(** The dict comprehension [{doc['name']: doc['quality_score'] for doc in
    documents}]: a later document replaces an earlier one of the same name. *)
Definition quality_scores_of (documents : list Doc) : gmap string Z :=
  foldl (fun acc doc => <[doc_name doc := doc_quality_score doc]> acc)
    ∅ documents.

(** [sum(quality_scores.values())] *)
Definition sum_values (m : gmap string Z) : Z :=
  map_fold (fun _ v acc => v + acc) 0 m.

Record Patterns := {
  pat_categories : gmap string nat;
  pat_average_quality : Q;
  pat_quality_scores : gmap string Z
}.

(** [avg_quality = sum(...) / len(...) if quality_scores else 0] *)
Definition average_quality (quality_scores : gmap string Z) : option Q :=
  if decide (quality_scores ≠ ∅)
  then truediv (sum_values quality_scores) (Z.of_nat (size quality_scores))
  else Some 0%Q.

(** [analyze_patterns] up to the keyword and issue tables, which read the
    fields left out of [Doc]. *)
Definition analyze_patterns (documents : list Doc) : option Patterns :=
  let categories := counter (doc_category <$> documents) in
  let quality_scores := quality_scores_of documents in
  avg_quality ← average_quality quality_scores;
  Some {| pat_categories := categories;
          pat_average_quality := avg_quality;
          pat_quality_scores := quality_scores |}.

(** ** The file system, scanning and reorganization

    A file system is a finite map from the paths of its regular files to their
    contents. Directories are not represented: [setup_directories] has made
    every target directory before a file is written into it. *)

Definition INPUT_DIR : Path := ["docs"].
Definition OUTPUT_DIR : Path := ["docs_organized"].
Definition ANALYSIS_DIR : Path := ["docs_analysis"].

(** [p] lies below the directory [dir]. *)
Definition below (dir p : Path) : Prop := dir `prefix_of` p ∧ p ≠ dir.

Global Instance below_dec dir p : Decision (below dir p).
Proof. unfold below. apply _. Defined.

(** [input_dir.rglob("*.md")] with the content of each file: the files below
    [input_dir] whose name ends in ".md". The order of the directory walk is
    the operating system's; the model takes the order of [map_to_list]. *)
Definition rglob_md (input_dir : Path) (fs : gmap Path string)
  : list (Path * string) :=
  filter (fun f => below input_dir f.1 ∧ Str.endswith ".md" (path_name f.1) = true)
    (map_to_list fs).

(** The guard of the loop of [scan_documents]: the files that [continue]
    skips. *)
Definition skipped (input_dir file_path : Path) : Prop :=
  path_parent file_path ≠ input_dir ∧ path_name file_path = "README.md".

Global Instance skipped_dec input_dir file_path :
  Decision (skipped input_dir file_path).
Proof. unfold skipped. apply _. Defined.

Definition scan_documents `{PyLib} (input_dir : Path) (fs : gmap Path string)
  : list Doc :=
  (fun f => doc_info f.1 f.2)
    <$> filter (fun f => ¬ skipped input_dir f.1) (rglob_md input_dir fs).

Definition category_mapping : gmap string Path :=
  list_to_map
    [ ("api_reference", ["03_api_reference"; "endpoints"]);
      ("testing", ["04_development"; "testing"]);
      ("architecture", ["02_architecture"; "vsm_systems"]);
      ("hive_architecture", ["02_architecture"; "hive_mind"]);
      ("mcp_integration", ["02_architecture"; "mcp_integration"]);
      ("planning", ["07_project_docs"; "planning"]);
      ("archive", ["08_archive"; "legacy"]);
      ("vsm_systems", ["02_architecture"; "vsm_systems"]);
      ("general", ["01_overview"]) ].

(** [shutil.copy2(src, dst)] on regular files: it raises when [src] and [dst]
    are the same file and when [src] does not exist. *)
Definition copy2 (src dst : Path) (fs : gmap Path string)
  : option (gmap Path string) :=
  if decide (src = dst) then None
  else content ← fs !! src; Some (<[dst := content]> fs).

(** [with open(path, 'w') as f: f.write(data)] *)
Definition write_file (path : Path) (data : string) (fs : gmap Path string)
  : gmap Path string :=
  <[path := data]> fs.

Record Reorg := {
  reorg_fs : gmap Path string;
  reorg_content_map : gmap string string;
  reorg_rename_map : gmap string string
}.

(** [target_path] of a document *)
Definition target_path (output_dir : Path) (doc : Doc) : Path :=
  let category := doc_category doc in
  let target_dir := default ["08_archive"; "legacy"] (category_mapping !! category) in
  let clean_name := generate_clean_filename doc in
  path_join output_dir target_dir clean_name.

(** One turn of the loop of [reorganize_documents]. *)
Definition reorganize_one (output_dir : Path) (doc : Doc) (st : Reorg)
  : option Reorg :=
  let clean_name := generate_clean_filename doc in
  let target := target_path output_dir doc in
  (* Copy file *)
  fs' ← copy2 (doc_path doc) target (reorg_fs st);
  (* Track renaming *)
  let rename_map :=
    if decide (doc_name doc ≠ clean_name)
    then <[doc_name doc := clean_name]> (reorg_rename_map st)
    else reorg_rename_map st in
  Some {| reorg_fs := fs';
          reorg_content_map :=
            <[path_str (doc_path doc) := path_str target]>
              (reorg_content_map st);
          reorg_rename_map := rename_map |}.

Fixpoint reorganize_loop (output_dir : Path) (documents : list Doc)
    (st : Reorg) : option Reorg :=
  match documents with
  | [] => Some st
  | doc :: rest =>
      st' ← reorganize_one output_dir doc st;
      reorganize_loop output_dir rest st'
  end.

(** [reorganize_documents]: [content_map] is the attribute [self.content_map]
    on entry, [fs] the file system on entry. *)
Definition reorganize_documents `{PyLib} (output_dir analysis_dir : Path)
    (documents : list Doc) (content_map : gmap string string)
    (fs : gmap Path string) : option Reorg :=
  st ← reorganize_loop output_dir documents
          {| reorg_fs := fs;
             reorg_content_map := content_map;
             reorg_rename_map := ∅ |};
  (* Save mappings *)
  let fs1 :=
    write_file (analysis_dir ++ ["content_map.json"])
      (json_dumps (reorg_content_map st)) (reorg_fs st) in
  let fs2 :=
    write_file (analysis_dir ++ ["rename_map.json"])
      (json_dumps (reorg_rename_map st)) fs1 in
  Some {| reorg_fs := fs2;
          reorg_content_map := reorg_content_map st;
          reorg_rename_map := reorg_rename_map st |}.

(** ** Metadata extraction

    The regular expressions of [extract_headers], [extract_links],
    [count_code_blocks], [count_lists] and [extract_keywords] are matched by
    recursion on the text. A scan carries [skip], the number of characters of
    the last match that are still to be passed over, and, for the patterns
    anchored with [^] under [re.MULTILINE], [bol], which holds at the start of
    the text and after a line feed. *)

(** *** Headers *)

Fixpoint take_while (p : ascii → bool) (s : string) : string :=
  match s with
  | "" => ""
  | String c s' => if p c then String c (take_while p s') else ""
  end.

(** The number of characters at the front of [s] that satisfy [p]. *)
Fixpoint count_prefix (p : ascii → bool) (s : string) : nat :=
  match s with
  | "" => O
  | String c s' => if p c then S (count_prefix p s') else O
  end.

(** [s[n:]] *)
Fixpoint str_drop (n : nat) (s : string) : string :=
  match n, s with
  | O, _ => s
  | S _, "" => ""
  | S n', String _ s' => str_drop n' s'
  end.

(** [s.lstrip()], [s.rstrip()] and [s.strip()] *)
Fixpoint lstrip (s : string) : string :=
  match s with
  | "" => ""
  | String c s' => if Char.isspace c then lstrip s' else s
  end.

Fixpoint rstrip (s : string) : string :=
  match s with
  | "" => ""
  | String c s' =>
      let r := rstrip s' in
      if Char.isspace c && String.eqb r "" then "" else String c r
  end.

Definition strip (s : string) : string := rstrip (lstrip s).

Definition is_hash (c : ascii) : bool := Ascii.eqb c "#".

(** The regex [.] without [re.DOTALL]: any character but the line feed. *)
Definition not_newline (c : ascii) : bool := negb (Ascii.eqb c LF).

(** The last character of [w] that is no line feed, with its position. *)
Fixpoint last_non_newline (w : string) : option (nat * ascii) :=
  match w with
  | "" => None
  | String c w' =>
      match last_non_newline w' with
      | Some (i, d) => Some (S i, d)
      | None => if not_newline c then Some (O, c) else None
      end
  end.

(** One match of [(#{1,6})\s+(.+)$] at the front of [s]: the number of
    hashes, the text of the second group and the length of the match.
    One to six hashes, then the whole run of whitespace (line feeds included),
    then the rest of the line. When the text ends inside the whitespace, the
    regex engine gives characters of that run back: the title is then the
    last character of the run that is no line feed, the first character of
    the run staying with [\s+]. *)
Definition match_header (s : string) : option (nat * string * nat) :=
  let hashes := count_prefix is_hash s in
  if (hashes =? 0)%nat || (6 <? hashes)%nat then None
  else
    let rest := str_drop hashes s in
    let spaces := count_prefix Char.isspace rest in
    if (spaces =? 0)%nat then None
    else
      match str_drop spaces rest with
      | String _ _ as line =>
          let title := take_while not_newline line in
          Some (hashes, title, (hashes + spaces + String.length title)%nat)
      | "" =>
          match last_non_newline (str_drop 1 rest) with
          | Some (i, c) => Some (hashes, String c "", (hashes + i + 2)%nat)
          | None => None
          end
      end.

(** [re.findall(r'^(#{1,6})\s+(.+)$', s, re.MULTILINE)] with the list
    comprehension of [extract_headers]. [skip] counts the characters of the
    last match still to be passed, [bol] tells whether the position starts a
    line. *)
Fixpoint headers_from (skip : nat) (bol : bool) (s : string)
  : list (nat * string) :=
  match s with
  | "" => []
  | String c s' =>
      let bol' := Ascii.eqb c LF in
      match skip with
      | S k => headers_from k bol' s'
      | O =>
          match (if bol then match_header s else None) with
          | Some (level, title, len) =>
              (level, strip title) :: headers_from (len - 1) bol' s'
          | None => headers_from 0 bol' s'
          end
      end
  end.

Definition extract_headers (content : string) : list (nat * string) :=
  headers_from 0 true content.

(** *** Keywords *)

(** The position of the first occurrence of [needle] in [s]. *)
Fixpoint str_find (needle s : string) : option nat :=
  if Str.startswith needle s then Some O
  else match s with
       | "" => None
       | String _ s' => S <$> str_find needle s'
       end.

(** [s.count(sub)] for a non-empty [sub]: occurrences from left to right
    that do not overlap. *)
Fixpoint str_count_go (sub : string) (skip : nat) (s : string) : nat :=
  match s with
  | "" => O
  | String _ s' =>
      match skip with
      | S k => str_count_go sub k s'
      | O =>
          if Str.startswith sub s
          then S (str_count_go sub (String.length sub - 1) s')
          else str_count_go sub 0 s'
      end
  end.

Definition str_count (sub s : string) : nat := str_count_go sub 0 s.

Definition fence : string := "```".

(** [re.sub(r'```.*?```', '', s, flags=re.DOTALL)]: from a fence to the next
    one, both included; a fence that is not closed stays. *)
Fixpoint remove_fenced_go (skip : nat) (s : string) : string :=
  match s with
  | "" => ""
  | String c s' =>
      match skip with
      | S k => remove_fenced_go k s'
      | O =>
          if Str.startswith fence s
          then match str_find fence (str_drop 3 s) with
               | Some j => remove_fenced_go (j + 5) s'
               | None => String c (remove_fenced_go 0 s')
               end
          else String c (remove_fenced_go 0 s')
      end
  end.

Definition remove_fenced (s : string) : string := remove_fenced_go 0 s.

Definition not_rbracket (c : ascii) : bool := negb (Ascii.eqb c "]").
Definition not_rparen (c : ascii) : bool := negb (Ascii.eqb c ")").

(** One match of [\[([^\]]+)\]\(([^)]+)\)] at the front of [s]: the text, the
    target and the length of the match. *)
Definition match_link (s : string) : option (string * string * nat) :=
  match s with
  | "" => None
  | String c rest =>
      if negb (Ascii.eqb c "[") then None
      else
        let text := take_while not_rbracket rest in
        if String.eqb text "" then None
        else if negb (Str.startswith "](" (str_drop (String.length text) rest))
        then None
        else
          let rest' := str_drop (String.length text + 2) rest in
          let target := take_while not_rparen rest' in
          if String.eqb target "" then None
          else if negb (Str.startswith ")"
                          (str_drop (String.length target) rest'))
          then None
          else Some (text, target,
                     (String.length text + String.length target + 4)%nat)
  end.

(** [re.sub(r'\[([^\]]+)\]\([^)]+\)', r'\1', s)] *)
Fixpoint replace_links_go (skip : nat) (s : string) : string :=
  match s with
  | "" => ""
  | String c s' =>
      match skip with
      | S k => replace_links_go k s'
      | O =>
          match match_link s with
          | Some (text, _, len) => text +:+ replace_links_go (len - 1) s'
          | None => String c (replace_links_go 0 s')
          end
      end
  end.

Definition replace_links (s : string) : string := replace_links_go 0 s.

Definition vsm_keywords : list string :=
  [ "vsm"; "phoenix"; "mcp"; "hive"; "system1"; "system2"; "system3";
    "system4"; "system5"; "variety"; "cybernetic"; "genserver"; "elixir";
    "api"; "test"; "integration"; "architecture"; "goldrush"; "telemetry" ].

(** [sorted(l, key=lambda x: x[1], reverse=True)]: by falling count, entries
    of the same count in the order they had. *)
Fixpoint insert_by_count (x : string * nat) (l : list (string * nat))
  : list (string * nat) :=
  match l with
  | [] => [x]
  | y :: l' =>
      if (y.2 <? x.2)%nat then x :: y :: l' else y :: insert_by_count x l'
  end.

Definition sort_by_count (l : list (string * nat)) : list (string * nat) :=
  foldl (fun acc x => insert_by_count x acc) [] l.

(** The text in which [extract_keywords] looks for the keywords. *)
Definition keyword_text (content : string) : string :=
  Str.lower (replace_links (remove_fenced content)).

(** The pairs collected by the loop of [extract_keywords]. *)
Definition keyword_counts (content_lower : string) : list (string * nat) :=
  (fun keyword => (keyword, str_count keyword content_lower))
    <$> filter (fun keyword => Str.contains keyword content_lower = true)
          vsm_keywords.

Definition extract_keywords (content : string) : list string :=
  take 10 ((sort_by_count (keyword_counts (keyword_text content))).*1).

(** *** Links *)

(** [re.findall(r'\[([^\]]+)\]\(([^)]+)\)', s)] *)
Fixpoint inline_links_from (skip : nat) (s : string) : list (string * string) :=
  match s with
  | "" => []
  | String _ s' =>
      match skip with
      | S k => inline_links_from k s'
      | O =>
          match match_link s with
          | Some (text, target, len) =>
              (text, target) :: inline_links_from (len - 1) s'
          | None => inline_links_from 0 s'
          end
      end
  end.

(** One match of [\[([^\]]+)\]:\s*(.+)$] at the front of [s]. After the
    colon comes the whole run of whitespace and then the rest of the line;
    when the text ends inside the whitespace, the target is the last
    character of the run that is no line feed. *)
Definition match_ref_link (s : string) : option (string * string * nat) :=
  match s with
  | "" => None
  | String c rest =>
      if negb (Ascii.eqb c "[") then None
      else
        let text := take_while not_rbracket rest in
        if String.eqb text "" then None
        else if negb (Str.startswith "]:" (str_drop (String.length text) rest))
        then None
        else
          let rest' := str_drop (String.length text + 2) rest in
          let spaces := count_prefix Char.isspace rest' in
          match str_drop spaces rest' with
          | String _ _ as line =>
              let target := take_while not_newline line in
              Some (text, target,
                    (String.length text + 3 + spaces
                     + String.length target)%nat)
          | "" =>
              match last_non_newline rest' with
              | Some (i, d) =>
                  Some (text, String d "", (String.length text + 3 + i + 1)%nat)
              | None => None
              end
          end
  end.

(** [re.findall(r'\[([^\]]+)\]:\s*(.+)$', s, re.MULTILINE)] *)
Fixpoint ref_links_from (skip : nat) (s : string) : list (string * string) :=
  match s with
  | "" => []
  | String _ s' =>
      match skip with
      | S k => ref_links_from k s'
      | O =>
          match match_ref_link s with
          | Some (text, target, len) =>
              (text, target) :: ref_links_from (len - 1) s'
          | None => ref_links_from 0 s'
          end
      end
  end.

Definition extract_links (content : string) : list (string * string) :=
  inline_links_from 0 content ++ ref_links_from 0 content.

(** *** Code blocks *)

(** The regex class [\w] *)
Definition is_word (c : ascii) : bool :=
  let n := Char.code c in
  ((48 <=? n) && (n <=? 57) || (65 <=? n) && (n <=? 90) || (n =? 95)
   || (97 <=? n) && (n <=? 122) || (n =? 170) || (n =? 178) || (n =? 179)
   || (n =? 181) || (n =? 185) || (n =? 186)
   || (188 <=? n) && (n <=? 190)
   || (192 <=? n) && negb (n =? 215) && negb (n =? 247))%N.

(** One match of the code block pattern at the front of [s]: a fence, a run
    of word characters (the language), a line feed, the shortest body that
    is followed by a line feed and a fence. Gives the language, the body and
    the length of the match. *)
Definition match_code_block (s : string) : option (string * string * nat) :=
  if negb (Str.startswith fence s) then None
  else
    let rest := str_drop 3 s in
    let lang := take_while is_word rest in
    match str_drop (String.length lang) rest with
    | String c body_on =>
        if negb (Ascii.eqb c LF) then None
        else match str_find (String LF fence) body_on with
             | Some j =>
                 Some (lang, Str.take j body_on,
                       (String.length lang + j + 8)%nat)
             | None => None
             end
    | "" => None
    end.

(** [re.findall] of the code block pattern with [re.DOTALL] *)
Fixpoint code_blocks_from (skip : nat) (s : string) : list (string * string) :=
  match s with
  | "" => []
  | String _ s' =>
      match skip with
      | S k => code_blocks_from k s'
      | O =>
          match match_code_block s with
          | Some (lang, body, len) =>
              (lang, body) :: code_blocks_from (len - 1) s'
          | None => code_blocks_from 0 s'
          end
      end
  end.

Record CodeBlocks := {
  cb_total : nat;
  cb_languages : gmap string nat
}.

Definition count_code_blocks (content : string) : CodeBlocks :=
  let code_blocks := code_blocks_from 0 content in
  let languages :=
    counter (filter (fun lang => lang ≠ "") (code_blocks.*1)) in
  {| cb_total := length code_blocks; cb_languages := languages |}.

(** *** Lists *)

Definition is_bullet (c : ascii) : bool :=
  Ascii.eqb c "-" || Ascii.eqb c "*" || Ascii.eqb c "+".

Definition is_digit (c : ascii) : bool :=
  let n := Char.code c in ((48 <=? n) && (n <=? 57))%N.

(** The length of a match of [\s*[-*+]\s+] at the front of [s]. *)
Definition match_bullet (s : string) : option nat :=
  let indent := count_prefix Char.isspace s in
  match str_drop indent s with
  | String c rest =>
      let spaces := count_prefix Char.isspace rest in
      if is_bullet c && negb (spaces =? 0)%nat
      then Some (indent + 1 + spaces)%nat else None
  | "" => None
  end.

(** The length of a match of [\s*\d+\.\s+] at the front of [s]. *)
Definition match_numbered (s : string) : option nat :=
  let indent := count_prefix Char.isspace s in
  let rest := str_drop indent s in
  let digits := count_prefix is_digit rest in
  if (digits =? 0)%nat then None
  else match str_drop digits rest with
       | String c rest' =>
           let spaces := count_prefix Char.isspace rest' in
           if Ascii.eqb c "." && negb (spaces =? 0)%nat
           then Some (indent + digits + 1 + spaces)%nat else None
       | "" => None
       end.

(** [len(re.findall(r'^...', s, re.MULTILINE))] for a pattern matched by
    [item] at the start of a line. *)
Fixpoint count_items_from (item : string → option nat) (skip : nat)
    (bol : bool) (s : string) : nat :=
  match s with
  | "" => O
  | String c s' =>
      let bol' := Ascii.eqb c LF in
      match skip with
      | S k => count_items_from item k bol' s'
      | O =>
          match (if bol then item s else None) with
          | Some len => S (count_items_from item (len - 1) bol' s')
          | None => count_items_from item 0 bol' s'
          end
      end
  end.

Record Lists := { lists_bullet : nat; lists_numbered : nat }.

Definition count_lists (content : string) : Lists :=
  {| lists_bullet := count_items_from match_bullet 0 true content;
     lists_numbered := count_items_from match_numbered 0 true content |}.

(** ** The whole record of a document

    [Doc] holds the fields that categorization, duplicate detection and
    reorganization read. [DocInfo] is the dict [doc_info] with all its
    fields. *)

Record DocInfo := {
  info_doc : Doc;
  info_headers : list (nat * string);
  info_links : list (string * string);
  info_code_blocks : CodeBlocks;
  info_lists : Lists;
  info_keywords : list string
}.

Definition doc_info_full `{PyLib} (file_path : Path) (content : string)
  : DocInfo := {|
  info_doc := doc_info file_path content;
  info_headers := extract_headers content;
  info_links := extract_links content;
  info_code_blocks := count_code_blocks content;
  info_lists := count_lists content;
  info_keywords := extract_keywords content
|}.

(** [scan_documents] with every field of the records. *)
Definition scan_documents_full `{PyLib} (input_dir : Path)
    (fs : gmap Path string) : list DocInfo :=
  (fun f => doc_info_full f.1 f.2)
    <$> filter (fun f => ¬ skipped input_dir f.1) (rglob_md input_dir fs).

(** ** Keyword frequencies and issues *)

(** [Counter(items)] with its entries in the order of first occurrence, the
    order [most_common] starts from. *)
Fixpoint tally_add (x : string) (c : list (string * nat))
  : list (string * nat) :=
  match c with
  | [] => [(x, 1%nat)]
  | (y, n) :: c' =>
      if String.eqb x y then (y, S n) :: c' else (y, n) :: tally_add x c'
  end.

Definition tally (items : list string) : list (string * nat) :=
  foldl (fun c x => tally_add x c) [] items.

(** [c.most_common(n)]: the [n] first entries by falling count, entries of
    the same count in the order of the counter. *)
Definition most_common (n : nat) (c : list (string * nat))
  : list (string * nat) :=
  take n (sort_by_count c).

(** [all_keywords] after the loop of [analyze_patterns] *)
Definition all_keywords (documents : list DocInfo) : list string :=
  documents ≫= info_keywords.

Record Issues := {
  iss_unprofessional_language : list string;
  iss_too_short : list string;
  iss_poor_naming : list string;
  iss_no_headers : list string
}.

Definition no_issues : Issues := {|
  iss_unprofessional_language := [];
  iss_too_short := [];
  iss_poor_naming := [];
  iss_no_headers := []
|}.

(** [l.append(name)] when [applies] holds *)
Definition append_if (applies : bool) (name : string) (l : list string)
  : list string :=
  if applies then l ++ [name] else l.

(** [doc['name'].isupper() or doc['name'].count('_') > 3] *)
Definition many_underscores (name : string) : bool :=
  Str.isupper name || (3 <? str_count "_" name)%nat.

(** One turn of the loop over the documents that fills [issues]. *)
Definition issues_step (issues : Issues) (doc : DocInfo) : Issues :=
  let d := info_doc doc in
  if doc_quality_score d <? 80 then
    {| iss_unprofessional_language :=
         append_if (has_profanity (doc_content d)) (doc_name d)
           (iss_unprofessional_language issues);
       iss_too_short :=
         append_if (too_short (doc_content d)) (doc_name d)
           (iss_too_short issues);
       iss_poor_naming :=
         append_if (many_underscores (doc_name d)) (doc_name d)
           (iss_poor_naming issues);
       iss_no_headers :=
         append_if (bool_decide (info_headers doc = [])) (doc_name d)
           (iss_no_headers issues) |}
  else issues.

Definition find_issues (documents : list DocInfo) : Issues :=
  foldl issues_step no_issues documents.

(** [self.patterns] with all its entries. *)
Record PatternsFull := {
  pat_base : Patterns;
  pat_common_keywords : list (string * nat);
  pat_issues : Issues
}.

Definition analyze_patterns_full (documents : list DocInfo)
  : option PatternsFull :=
  base ← analyze_patterns (info_doc <$> documents);
  let keyword_freq := tally (all_keywords documents) in
  Some {| pat_base := base;
          pat_common_keywords := most_common 20 keyword_freq;
          pat_issues := find_issues documents |}.

(** ** Recommendations *)

(** [generate_recommendations]. The average is compared as a rational; the
    float of the source gives the same answer for fewer than 2^46
    documents. *)
Definition generate_recommendations (patterns : PatternsFull)
    (documents : list Doc) : list string :=
  let recommendations := [] in
  let recommendations :=
    if Qlt_le_dec (pat_average_quality (pat_base patterns)) 85
    then recommendations ++ ["Improve overall documentation quality"]
    else recommendations in
  let recommendations :=
    if bool_decide (iss_unprofessional_language (pat_issues patterns) ≠ [])
    then recommendations ++ ["Clean up unprofessional language in documents"]
    else recommendations in
  let recommendations :=
    if bool_decide (iss_poor_naming (pat_issues patterns) ≠ [])
    then recommendations ++ ["Rename files to use lowercase with hyphens"]
    else recommendations in
  let recommendations :=
    if (0 <? size (find_duplicates documents))%nat
    then recommendations ++ ["Consolidate duplicate documentation"]
    else recommendations in
  (* Check for missing docs *)
  let categories := pat_categories (pat_base patterns) in
  let recommendations :=
    if (default 0%nat (categories !! "api_reference") <? 2)%nat
    then recommendations ++ ["Expand API reference documentation"]
    else recommendations in
  let recommendations :=
    if (default 0%nat (categories !! "vsm_systems") <? 5)%nat
    then recommendations ++ ["Document each VSM system (1-5) separately"]
    else recommendations in
  recommendations.

(** ** The analysis report *)

Record Entry := {
  entry_name : string;
  entry_path : string;
  entry_category : string;
  entry_quality_score : Z;
  entry_size : nat;
  entry_keywords : list string
}.

Definition entry_of (doc : DocInfo) : Entry := {|
  entry_name := doc_name (info_doc doc);
  entry_path := path_str (doc_path (info_doc doc));
  entry_category := doc_category (info_doc doc);
  entry_quality_score := doc_quality_score (info_doc doc);
  entry_size := doc_size (info_doc doc);
  entry_keywords := take 5 (info_keywords doc)
|}.

(** [sorted(documents, key=lambda x: x['quality_score'])]: by rising score,
    documents of the same score in the order they had. *)
Fixpoint insert_by_score (x : DocInfo) (l : list DocInfo) : list DocInfo :=
  match l with
  | [] => [x]
  | y :: l' =>
      if doc_quality_score (info_doc x) <? doc_quality_score (info_doc y)
      then x :: y :: l' else y :: insert_by_score x l'
  end.

Definition sort_by_score (l : list DocInfo) : list DocInfo :=
  foldl (fun acc x => insert_by_score x acc) [] l.

Record Report := {
  report_scan_date : string;
  report_total_documents : nat;
  report_patterns : PatternsFull;
  report_duplicates : gmap string (list Path);
  report_recommendations : list string;
  report_document_list : list Entry
}.

(** The texts of the two reports: [json.dumps(report, indent=2)] on a report
    that [json] can encode, and the summary that [generate_markdown_report]
    puts together. *)
Class ReportText := {
  report_json : Report → string;
  report_markdown : Report → string
}.

(** What [json] can encode of the table of duplicates: its values are lists
    of [Path] objects, which [json] has no encoding for, so that
    [json.dump] raises [TypeError] as soon as one of the lists holds a
    path. *)
Definition json_encodable (duplicates : gmap string (list Path)) : Prop :=
  map_Forall (fun _ paths => paths = []) duplicates.

Global Instance json_encodable_dec duplicates :
  Decision (json_encodable duplicates).
Proof. unfold json_encodable. apply _. Defined.

(** [generate_analysis_report], with [scan_date] for
    [datetime.now().isoformat()]. *)
Definition generate_analysis_report `{ReportText} (analysis_dir : Path)
    (scan_date : string) (documents : list DocInfo) (patterns : PatternsFull)
    (fs : gmap Path string) : option (gmap Path string) :=
  let duplicates := find_duplicates (info_doc <$> documents) in
  let report := {|
    report_scan_date := scan_date;
    report_total_documents := length documents;
    report_patterns := patterns;
    report_duplicates := duplicates;
    report_recommendations :=
      generate_recommendations patterns (info_doc <$> documents);
    report_document_list := entry_of <$> sort_by_score documents
  |} in
  (* Save reports *)
  if decide (json_encodable duplicates) then
    let fs1 :=
      write_file (analysis_dir ++ ["vsm_docs_analysis.json"])
        (report_json report) fs in
    Some (write_file (analysis_dir ++ ["vsm_docs_analysis.md"])
            (report_markdown report) fs1)
  else None.

(** ** Directories

    The regular files of a disk with their contents and its directories.
    The working directory, the path without components, is a directory of
    every disk. *)

Record Disk := {
  disk_files : gmap Path string;
  disk_dirs : gset Path
}.

Definition is_dir (d : Disk) (p : Path) : bool :=
  bool_decide (p = [] ∨ p ∈ disk_dirs d).

Definition is_file (d : Disk) (p : Path) : bool :=
  bool_decide (is_Some (disk_files d !! p)).

Definition add_dir (p : Path) (d : Disk) : Disk :=
  {| disk_files := disk_files d; disk_dirs := {[p]} ∪ disk_dirs d |}.

(** [p.mkdir(exist_ok=True)]: nothing to do for a directory; an error when
    [p] is a file or its parent is no directory. *)
Definition mkdir (p : Path) (d : Disk) : option Disk :=
  if is_dir d p then Some d
  else if is_file d p then None
  else if is_dir d (path_parent p) then Some (add_dir p d)
  else None.

(** [p.mkdir(parents=True, exist_ok=True)] for the path whose components
    are [rp] from the last to the first: the missing ancestors are made
    first; an error when [p] or one of them is a file. *)
Fixpoint mkdir_parents_rev (rp : list string) (d : Disk) : option Disk :=
  if is_dir d (rev rp) then Some d
  else if is_file d (rev rp) then None
  else match rp with
       | [] => Some d
       | _ :: rparent =>
           d' ← mkdir_parents_rev rparent d;
           Some (add_dir (rev rp) d')
       end.

Definition mkdir_parents (p : Path) (d : Disk) : option Disk :=
  mkdir_parents_rev (rev p) d.

(** The list [dirs] of [setup_directories] *)
Definition dirs : list Path :=
  [ ["01_overview"];
    ["02_architecture"; "vsm_systems"];
    ["02_architecture"; "mcp_integration"];
    ["02_architecture"; "hive_mind"];
    ["03_api_reference"; "endpoints"];
    ["03_api_reference"; "schemas"];
    ["04_development"; "setup"];
    ["04_development"; "testing"];
    ["04_development"; "deployment"];
    ["05_user_guides"; "getting_started"];
    ["05_user_guides"; "tutorials"];
    ["06_references"; "external_docs"];
    ["06_references"; "specifications"];
    ["07_project_docs"; "planning"];
    ["07_project_docs"; "decisions"];
    ["08_archive"; "legacy"];
    ["08_archive"; "superseded"] ].

(** The loop of [setup_directories] *)
Fixpoint make_dirs (output_dir : Path) (l : list Path) (d : Disk)
  : option Disk :=
  match l with
  | [] => Some d
  | dir_path :: rest =>
      d' ← mkdir_parents (output_dir ++ dir_path) d;
      make_dirs output_dir rest d'
  end.

Definition setup_directories (output_dir analysis_dir : Path) (d : Disk)
  : option Disk :=
  d1 ← mkdir output_dir d;
  d2 ← mkdir analysis_dir d1;
  make_dirs output_dir dirs d2.

(** ** The whole run *)

(** A directory that [rglob("*.md")] yields and the loop of
    [scan_documents] does not skip: [open] raises on it. *)
Definition blocks_scan (input_dir p : Path) : Prop :=
  below input_dir p ∧ Str.endswith ".md" (path_name p) = true
  ∧ ¬ skipped input_dir p.

Global Instance blocks_scan_dec input_dir p : Decision (blocks_scan input_dir p).
Proof. unfold blocks_scan. apply _. Defined.

(** [scan_documents] on a disk *)
Definition scan_disk `{PyLib} (input_dir : Path) (d : Disk)
  : option (list DocInfo) :=
  if decide (set_Exists (blocks_scan input_dir) (disk_dirs d)) then None
  else Some (scan_documents_full input_dir (disk_files d)).

(** [run] on an analyzer that [__init__] has just made. The reports and the
    copies are written as in [reorganize_documents] above: no directory lies
    at a path that is written to. *)
Definition run `{PyLib} `{ReportText} (input_dir output_dir analysis_dir : Path)
    (scan_date : string) (d : Disk) : option Disk :=
  d1 ← setup_directories output_dir analysis_dir d;
  documents ← scan_disk input_dir d1;
  patterns ← analyze_patterns_full documents;
  fs2 ← generate_analysis_report analysis_dir scan_date documents patterns
          (disk_files d1);
  st ← reorganize_documents output_dir analysis_dir (info_doc <$> documents)
         ∅ fs2;
  Some {| disk_files := reorg_fs st; disk_dirs := disk_dirs d1 |}.

Definition main `{PyLib} `{ReportText} (scan_date : string) (d : Disk)
  : option Disk :=
  run INPUT_DIR OUTPUT_DIR ANALYSIS_DIR scan_date d.

(** ** An instance of the library interface

    It lets the definitions run on concrete inputs: the digest of a text is
    the text written in hexadecimal (two digits per character), and a map is
    dumped as its entries, one per line. *)

Definition hex_digit (n : N) : ascii :=
  ascii_of_N (if (n <? 10)%N then 48 + n else 87 + n).

Fixpoint hex_of (s : string) : string :=
  match s with
  | "" => ""
  | String c s' =>
      String (hex_digit (Char.code c / 16))
        (String (hex_digit (Char.code c mod 16)) (hex_of s'))
  end.

Definition dump_entries (m : gmap string string) : string :=
  Str.join (String LF "")
    ((fun kv => kv.1 +:+ ": " +:+ kv.2) <$> map_to_list m).

Lemma hex_of_hexdigits (s : string) : all_hexdigits (hex_of s) = true.
Proof.
  induction s as [|c s IH]; [reflexivity|].
  cbn [hex_of all_hexdigits]. rewrite IH.
  destruct c as [[] [] [] [] [] [] [] []]; reflexivity.
Qed.

Definition text_lib : PyLib := {|
  md5_hexdigest := hex_of;
  json_dumps := dump_entries;
  md5_hexdigest_hex := hex_of_hexdigits
|}.

(** ** Notions used in the statements *)

(** The points a condition costs when it applies. *)
Definition deduction (points : Z) (applies : bool) : Z :=
  if applies then points else 0.

(** A hyphen followed by a line feed. *)
Definition hyphen_LF : string := String "-" (String LF "").

(** [text] followed by [n] letters "x". *)
Definition padded (text : string) (n : nat) : string :=
  text +:+ String.string_of_list_ascii (List.repeat "x"%char n).

Definition is_underscore (c : ascii) : bool := Ascii.eqb c "_".

Definition is_hyphen (c : ascii) : bool := Ascii.eqb c "-".

(** What every normalized stem satisfies. *)
Record normalized (s : string) : Prop := {
  norm_no_upper : Str.any Char.isupper s = false;
  norm_no_underscore : Str.any is_underscore s = false;
  norm_no_run : Str.contains "--" s = false;
  norm_start : Str.startswith "-" s = false;
  norm_end : Str.endswith "-" s = false;
  norm_length : (String.length s ≤ 50)%nat
}.

(** The (key, path) pairs that one turn of the inner loop appends. *)
Definition pair_entries (doc1 doc2 : Doc) : list (string * Path) :=
  if decide (doc_hash doc1 = doc_hash doc2)
  then [(doc_hash doc1, doc_path doc1); (doc_hash doc1, doc_path doc2)]
  else if Qlt_le_dec threshold
            (similarity_ratio (doc_content doc1) (doc_content doc2))
  then [(similar_key doc1 doc2, doc_path doc1);
        (similar_key doc1 doc2, doc_path doc2)]
  else [].

(** All of them, in the order of the two loops. *)
Fixpoint all_entries (documents : list Doc) : list (string * Path) :=
  match documents with
  | [] => []
  | doc1 :: rest =>
      (rest ≫= pair_entries doc1) ++ all_entries rest
  end.

Definition add_entry (duplicates : gmap string (list Path))
    (e : string * Path) : gmap string (list Path) :=
  dd_extend e.1 [e.2] duplicates.

(** Exactly one group, under [key], holding the two paths and nothing else. *)
Definition one_group (result : gmap string (list Path)) (key : string)
    (path1 path2 : Path) : Prop :=
  ∃ group, result = {[key := group]} ∧ NoDup group
           ∧ ∀ p, p ∈ group ↔ p = path1 ∨ p = path2.

(** Two small corpora. *)
Definition notes_fs : gmap Path string :=
  list_to_map [ (["docs"; "api"; "notes.md"], "a b c d e f g");
                (["docs"; "guides"; "notes.md"], "a b c d e f");
                (["docs"; "plans"; "notes.md"], "a b c d e f h") ].

Definition pair_fs : gmap Path string :=
  list_to_map [ (["docs"; "setup.md"], "a b c d e f g");
                (["docs"; "install.md"], "a b c d e f") ].

Definition readme_fs : gmap Path string :=
  list_to_map [ (["docs"; "README.md"], "# Project");
                (["docs"; "api"; "README.md"], "# API");
                (["docs"; "api"; "endpoints.md"], "# Endpoints") ].

(** The sources are readable and none of them lies in the output tree. *)
Definition sources_ok (output_dir : Path) (documents : list Doc)
    (fs : gmap Path string) : Prop :=
  ∀ doc, doc ∈ documents →
         fs !! doc_path doc = Some (doc_content doc)
         ∧ ¬ output_dir `prefix_of` doc_path doc.

(** Two directories neither of which lies inside the other have no path in
    common below them. *)
Definition apart (dir1 dir2 : Path) : Prop :=
  ¬ dir1 `prefix_of` dir2 ∧ ¬ dir2 `prefix_of` dir1.

Definition dup_fs : gmap Path string :=
  list_to_map [ (["docs"; "a.md"], "same text");
                (["docs"; "b.md"], "other");
                (["docs"; "sub"; "c.md"], "same text") ].

(** The first and the last character of a text, when it has one. *)
Definition first_char (s : string) : option ascii :=
  match s with
  | "" => None
  | String c _ => Some c
  end.

Fixpoint last_char (s : string) : option ascii :=
  match s with
  | "" => None
  | String c s' => match last_char s' with Some d => Some d | None => Some c end
  end.

(** No whitespace at either end. *)
Definition stripped (s : string) : Prop :=
  (∀ c, first_char s = Some c → Char.isspace c = false)
  ∧ (∀ c, last_char s = Some c → Char.isspace c = false).

Definition is_newline (c : ascii) : bool := Ascii.eqb c LF.

Definition is_backtick (c : ascii) : bool := Ascii.eqb c "`".

(** A list of counted keywords in which no count is followed by a greater
    one. *)
Definition falling (l : list (string * nat)) : Prop :=
  ∀ i j a b, l !! i = Some a → l !! j = Some b → (i ≤ j)%nat → (b.2 ≤ a.2)%nat.

Definition is_lbracket (c : ascii) : bool := Ascii.eqb c "[".
Definition is_rbracket (c : ascii) : bool := Ascii.eqb c "]".
Definition is_rparen (c : ascii) : bool := Ascii.eqb c ")".

(** The number of line feeds of a text. *)
Fixpoint count_newlines (s : string) : nat :=
  match s with
  | "" => O
  | String c s' => ((if is_newline c then 1 else 0) + count_newlines s')%nat
  end.

(** [d'] has the files of [d] and at least its directories. *)
Definition grown (d d' : Disk) : Prop :=
  disk_files d' = disk_files d ∧ disk_dirs d ⊆ disk_dirs d'.

(** No file of [d] lies at [dir] or below it. *)
Definition free (d : Disk) (dir : Path) : Prop :=
  ∀ p, dir `prefix_of` p → disk_files d !! p = None.

(** The directory that [reorganize_documents] copies a document into. *)
Definition target_dir (output_dir : Path) (doc : Doc) : Path :=
  path_parent (target_path output_dir doc).

Definition empty_disk : Disk := {| disk_files := ∅; disk_dirs := ∅ |}.

(** A file that [scan_documents] reads: a file below the input directory
    whose name ends in ".md" and that the loop does not skip. *)
Definition scanned_file (input_dir : Path) (fs : gmap Path string)
    (file_path : Path) (content : string) : Prop :=
  fs !! file_path = Some content ∧ below input_dir file_path
  ∧ Str.endswith ".md" (path_name file_path) = true
  ∧ ¬ skipped input_dir file_path.


(** Report texts for the examples. *)
Definition plain_reports : ReportText := {|
  report_json := fun report => "{}";
  report_markdown := fun report => "# VSM Phoenix Documentation Analysis"
|}.

Definition dup_disk : Disk := {| disk_files := dup_fs; disk_dirs := ∅ |}.

(** The names of the documents of a score under 80 to which [applies]
    applies, in the order of the corpus. *)
Definition flagged (applies : DocInfo → bool) (documents : list DocInfo)
  : list string :=
  (fun doc => doc_name (info_doc doc))
    <$> filter (fun doc => doc_quality_score (info_doc doc) < 80
                           ∧ applies doc = true) documents.

(** The sentences of [generate_recommendations] in the order of the
    source. *)
Definition all_recommendations : list string :=
  [ "Improve overall documentation quality";
    "Clean up unprofessional language in documents";
    "Rename files to use lowercase with hyphens";
    "Consolidate duplicate documentation";
    "Expand API reference documentation";
    "Document each VSM system (1-5) separately" ].

(** [sentence] when [applies] holds *)
Definition advice (applies : bool) (sentence : string) : list string :=
  if applies then [sentence] else [].

(** The number of documents that have [keyword] among their keywords. *)
Definition documents_with (keyword : string) (documents : list DocInfo)
  : nat :=
  length (filter (fun doc => keyword ∈ info_keywords doc) documents).

(** * Properties *)

(** ** Quality scoring *)

(** The score before the floor, as a sum of the five deductions. *)
Lemma assess_quality_sum (content filename : string) :
  assess_quality content filename =
  100 - deduction 10 (has_marker content)
      - deduction 20 (has_profanity content)
      - deduction 15 (too_short content)
      - deduction 10 (no_top_header content)
      - deduction 5 (poor_name filename).
Proof.
  unfold assess_quality, deduction.
  destruct (has_marker content), (has_profanity content),
    (too_short content), (no_top_header content), (poor_name filename);
    reflexivity.
Qed.

Lemma deduction_bounds (points : Z) (applies : bool) :
  0 ≤ points → 0 ≤ deduction points applies ≤ points.
Proof. destruct applies; simpl; lia. Qed.

(** The deductions add up to at most 60: the floor at 0 is never reached. *)
Lemma assess_quality_at_least_40 (content filename : string) :
  40 ≤ assess_quality content filename.
Proof.
  rewrite assess_quality_sum.
  pose proof (deduction_bounds 10 (has_marker content)).
  pose proof (deduction_bounds 20 (has_profanity content)).
  pose proof (deduction_bounds 15 (too_short content)).
  pose proof (deduction_bounds 10 (no_top_header content)).
  pose proof (deduction_bounds 5 (poor_name filename)).
  lia.
Qed.

(** Nothing is ever added to the initial 100. *)
Lemma assess_quality_at_most_100 (content filename : string) :
  assess_quality content filename ≤ 100.
Proof.
  rewrite assess_quality_sum.
  pose proof (deduction_bounds 10 (has_marker content)).
  pose proof (deduction_bounds 20 (has_profanity content)).
  pose proof (deduction_bounds 15 (too_short content)).
  pose proof (deduction_bounds 10 (no_top_header content)).
  pose proof (deduction_bounds 5 (poor_name filename)).
  lia.
Qed.

(** C1: for every content and filename the quality score lies in the closed
    interval from 0 to 100. *)
Theorem assess_quality_range (content filename : string) :
  0 ≤ assess_quality content filename ≤ 100.
Proof.
  pose proof (assess_quality_at_least_40 content filename).
  pose proof (assess_quality_at_most_100 content filename).
  lia.
Qed.

(** The score stored in every scanned record is in range as well. *)
Lemma scanned_quality_range `{PyLib} (input_dir : Path)
    (fs : gmap Path string) (doc : Doc) :
  doc ∈ scan_documents input_dir fs → 0 ≤ doc_quality_score doc ≤ 100.
Proof.
  unfold scan_documents. intros Hin.
  apply list_elem_of_fmap in Hin as [f [-> _]]. simpl.
  pose proof (assess_quality_at_least_40 f.2 (path_name f.1)).
  pose proof (assess_quality_at_most_100 f.2 (path_name f.1)).
  lia.
Qed.

(** C6, as stated, fails: two documents that agree on profanity, on being
    short, on the top-level header and on the filename style can still differ
    in score, because a TODO or FIXME marker costs 10 points. *)
Lemma four_conditions_do_not_fix_the_score :
  ¬ (∀ content1 filename1 content2 filename2,
        has_profanity content1 = has_profanity content2 →
        too_short content1 = too_short content2 →
        no_top_header content1 = no_top_header content2 →
        poor_name filename1 = poor_name filename2 →
        assess_quality content1 filename1 = assess_quality content2 filename2).
Proof.
  intros Hall.
  specialize (Hall "TODO: write this" "notes.md" "to do: write this" "notes.md").
  vm_compute in Hall. specialize (Hall eq_refl eq_refl eq_refl eq_refl).
  discriminate Hall.
Qed.

(** C6, amended: the score is 100 minus 10 for a TODO or FIXME marker, 20 for
    profanity, 15 for a content shorter than 500 characters, 10 for a missing
    top-level header and 5 for an uppercase or underscored filename; the floor
    never changes it, and nothing else enters. *)
Theorem assess_quality_five_deductions (content filename : string) :
  assess_quality content filename =
    100 - deduction 10 (Str.contains "TODO" content
                        || Str.contains "FIXME" content)
        - deduction 20 (search_profanity (Str.lower content))
        - deduction 15 (String.length content <? 500)%nat
        - deduction 10 (negb (search_top_header content))
        - deduction 5 (Str.isupper filename || Str.contains "_" filename)
  ∧ 0 < assess_quality content filename.
Proof.
  split; [apply assess_quality_sum|].
  pose proof (assess_quality_at_least_40 content filename). lia.
Qed.

(** The short-length deduction, in isolation. *)
Lemma short_costs_15 (short long filename : string) :
  too_short short = true → too_short long = false →
  has_marker short = has_marker long →
  has_profanity short = has_profanity long →
  no_top_header short = no_top_header long →
  assess_quality short filename = assess_quality long filename - 15.
Proof.
  intros Hs Hl Hm Hp Hh. rewrite !assess_quality_sum, Hs, Hl, Hm, Hp, Hh.
  unfold deduction. lia.
Qed.

(** C7: of two documents with the same filename that agree on every scoring
    condition except that one is shorter than 500 characters and the other is
    not, the shorter scores at least 15 less. *)
Theorem short_document_scores_15_less (short long filename : string) :
  (String.length short < 500)%nat →
  (500 ≤ String.length long)%nat →
  has_marker short = has_marker long →
  has_profanity short = has_profanity long →
  no_top_header short = no_top_header long →
  assess_quality short filename ≤ assess_quality long filename - 15.
Proof.
  intros Hs Hl Hm Hp Hh.
  rewrite (short_costs_15 short long filename); [lia| | |done..].
  - unfold too_short. by apply Nat.ltb_lt.
  - unfold too_short. apply Nat.ltb_ge. lia.
Qed.

Lemma short_document_scores_15_less_witness :
  (String.length "# Guide" < 500)%nat
  ∧ (500 ≤ String.length (padded "# Guide" 500))%nat
  ∧ assess_quality "# Guide" "guide.md"
      ≤ assess_quality (padded "# Guide" 500) "guide.md" - 15.
Proof.
  split; [vm_compute; lia|]. split; [vm_compute; lia|].
  apply (short_document_scores_15_less "# Guide" (padded "# Guide" 500)
           "guide.md"); vm_compute; (reflexivity || lia).
Defined.

(** ** Categorization *)

(** The function computes the thirteen rules in the order of the source. *)
Lemma categorize_unfold (content : string) (file_path : Path) :
  categorize_vsm_document content file_path =
  rule_chain (subdirectory_rules ++ filename_rules ++ content_rules)
    content file_path.
Proof. reflexivity. Qed.

(** A filename test of the first block wins over a later path test. *)
Example filename_test_before_path_test :
  categorize_vsm_document "" ["docs"; "archive"; "my_mcp.md"]
    = "mcp_integration"
  ∧ spec_categorize "" ["docs"; "archive"; "my_mcp.md"] = "archive".
Proof. split; reflexivity. Qed.

(** C2, as stated, fails: the chain that tests every path substring before
    any filename substring is not the function of the source. *)
Lemma categorize_is_not_path_first :
  ¬ (∀ content file_path,
        categorize_vsm_document content file_path
        = spec_categorize content file_path).
Proof.
  intros Hall. specialize (Hall "" ["docs"; "archive"; "my_mcp.md"]).
  vm_compute in Hall. discriminate Hall.
Qed.

(** First match wins: a rule decides when no rule before it matches. *)
Lemma first_match_decides (before after : list Rule) (r : Rule)
    (p n c fallback : string) :
  Forall (fun r' => rule_test r' p n c = false) before →
  rule_test r p n c = true →
  first_match (before ++ r :: after) p n c fallback = rule_category r.
Proof.
  intros Hbefore Hr. induction Hbefore as [|r' before Hr' _ IH]; simpl.
  - by rewrite Hr.
  - by rewrite Hr'.
Qed.

Lemma first_match_fallback (rules : list Rule) (p n c fallback : string) :
  Forall (fun r => rule_test r p n c = false) rules →
  first_match rules p n c fallback = fallback.
Proof.
  intros Hall. induction Hall as [|r rules Hr _ IH]; simpl; [done|].
  by rewrite Hr.
Qed.

(** C2, amended: the category is a function of content and path, computed by
    an ordered chain of thirteen rules in which the first matching rule
    decides and "general" is the fallback. The first four rules test a path
    substring, three of them with a filename substring as an alternative; the
    next six test filename substrings; the last three test content
    substrings. *)
Theorem categorize_rule_chain (content : string) (file_path : Path) :
  let p := Str.lower (path_str file_path) in
  let n := Str.lower (path_name file_path) in
  let c := Str.lower content in
  let rules := subdirectory_rules ++ filename_rules ++ content_rules in
  categorize_vsm_document content file_path
    = first_match rules p n c "general"
  ∧ (∀ before r after,
        rules = before ++ r :: after →
        Forall (fun r' => rule_test r' p n c = false) before →
        rule_test r p n c = true →
        categorize_vsm_document content file_path = rule_category r)
  ∧ (Forall (fun r => rule_test r p n c = false) rules →
     categorize_vsm_document content file_path = "general").
Proof.
  intros p n c rules. split; [reflexivity|]. split.
  - intros before r after Hrules Hbefore Hr.
    rewrite categorize_unfold. unfold rule_chain. fold p n c rules.
    rewrite Hrules. by apply first_match_decides.
  - intros Hnone. rewrite categorize_unfold. unfold rule_chain.
    fold p n c rules. by apply first_match_fallback.
Qed.

(** Every category is a key of [category_mapping]: the default directory of
    [reorganize_documents] is never used. *)
Lemma categorize_in_mapping (content : string) (file_path : Path) :
  is_Some (category_mapping !! categorize_vsm_document content file_path).
Proof.
  unfold categorize_vsm_document.
  repeat case_match; by (vm_compute; eexists).
Qed.

Lemma categorize_rule_chain_witness :
  let file_path := ["docs"; "guides"; "system_design.md"] in
  let p := Str.lower (path_str file_path) in
  let n := Str.lower (path_name file_path) in
  let before := subdirectory_rules ++ take 1 filename_rules in
  Forall (fun r' => rule_test r' p n "" = false) before
  ∧ categorize_vsm_document "" file_path = "architecture".
Proof.
  intros file_path p n before.
  assert (Hbefore : Forall (fun r' => rule_test r' p n "" = false) before)
    by (repeat constructor).
  split; [exact Hbefore|].
  destruct (categorize_rule_chain "" file_path) as (_ & Hfirst & _).
  apply (Hfirst before
           {| rule_test := either (on_name "architecture") (on_name "design");
              rule_category := "architecture" |}
           (drop 2 filename_rules ++ content_rules));
    [reflexivity | exact Hbefore | reflexivity].
Defined.

(** ** Filename normalization *)

Lemma app_cons (c : ascii) (s t : string) :
  String c s +:+ t = String c (s +:+ t).
Proof. reflexivity. Qed.

Lemma startswith_cons (a b : ascii) (p s : string) :
  Str.startswith (String a p) (String b s) = Ascii.eqb a b && Str.startswith p s.
Proof. reflexivity. Qed.

Lemma startswith_nil (s : string) : Str.startswith "" s = true.
Proof. by destruct s. Qed.

Lemma startswith_hyphen_cons (c : ascii) (s : string) :
  Str.startswith "-" (String c s) = Ascii.eqb c "-".
Proof.
  rewrite startswith_cons, startswith_nil, andb_true_r. apply Ascii.eqb_sym.
Qed.

Lemma contains_cons (needle : string) (c : ascii) (s : string) :
  Str.contains needle (String c s) =
  Str.startswith needle (String c s) || Str.contains needle s.
Proof. reflexivity. Qed.

Lemma contains_cons_false (needle : string) (c : ascii) (s : string) :
  Str.contains needle (String c s) = false →
  Str.startswith needle (String c s) = false ∧ Str.contains needle s = false.
Proof. rewrite contains_cons. apply orb_false_elim. Qed.

Lemma double_hyphen_cons (c : ascii) (s : string) :
  Str.startswith "--" (String c s) = Ascii.eqb c "-" && Str.startswith "-" s.
Proof. by rewrite startswith_cons, Ascii.eqb_sym. Qed.

Lemma any_app (p : ascii → bool) (s t : string) :
  Str.any p (s +:+ t) = Str.any p s || Str.any p t.
Proof.
  induction s as [|c s IH]; [done|].
  rewrite app_cons. simpl. by rewrite IH, orb_assoc.
Qed.

(** *** Every step after the lowering keeps a subsequence of its input *)

Section Subsequence.
Variable p : ascii → bool.

Lemma any_collapse_hyphens (s : string) :
  Str.any p s = false → Str.any p (Re.collapse_hyphens s) = false.
Proof.
  induction s as [|c s IH]; [done|].
  intros [Hc Hs]%orb_false_elim. cbn [Re.collapse_hyphens].
  destruct (Ascii.eqb c "-" && Str.startswith "-" s); [auto|].
  simpl. rewrite Hc. auto.
Qed.

Lemma any_strip_leading_hyphen (s : string) :
  Str.any p s = false → Str.any p (Re.strip_leading_hyphen s) = false.
Proof.
  destruct s as [|c s]; [done|]. intros H. cbn [Re.strip_leading_hyphen].
  destruct (Ascii.eqb c "-"); [|done]. by apply orb_false_elim in H as [_ ?].
Qed.

Lemma any_strip_trailing_hyphen (s : string) :
  Str.any p s = false → Str.any p (Re.strip_trailing_hyphen s) = false.
Proof.
  induction s as [|c s IH]; [done|].
  intros [Hc Hs]%orb_false_elim. cbn [Re.strip_trailing_hyphen].
  destruct (Ascii.eqb c "-" && Re.at_end s); [done|].
  simpl. rewrite Hc. auto.
Qed.

Lemma any_take (n : nat) (s : string) :
  Str.any p s = false → Str.any p (Str.take n s) = false.
Proof.
  revert n. induction s as [|c s IH]; intros [|n]; simpl; try done.
  intros [Hc Hs]%orb_false_elim. rewrite Hc. by apply IH.
Qed.

Lemma any_before_last (sep : ascii) (s r : string) :
  Re.before_last sep s = Some r → Str.any p s = false → Str.any p r = false.
Proof.
  revert r. induction s as [|c s IH]; [done|].
  intros r Hr [Hc Hs]%orb_false_elim. cbn [Re.before_last] in Hr.
  destruct (Re.before_last sep s) as [r'|].
  - injection Hr as <-. simpl. rewrite Hc. by apply IH.
  - destruct (Ascii.eqb c sep); [|done]. by injection Hr as <-.
Qed.

Lemma any_rsplit_head (sep : ascii) (s : string) :
  Str.any p s = false → Str.any p (Re.rsplit_head sep s) = false.
Proof.
  intros Hs. unfold Re.rsplit_head.
  destruct (Re.before_last sep s) as [r|] eqn:Hr; [|done].
  simpl. by apply (any_before_last sep s).
Qed.

End Subsequence.

(** *** Lowering *)

Lemma char_lower_not_upper (c : ascii) : Char.isupper (Char.lower c) = false.
Proof. destruct c as [[] [] [] [] [] [] [] []]; reflexivity. Qed.

Lemma char_lower_underscore (c : ascii) :
  Ascii.eqb (Char.lower c) "_" = Ascii.eqb c "_".
Proof. destruct c as [[] [] [] [] [] [] [] []]; reflexivity. Qed.

Lemma lower_no_upper (s : string) : Str.any Char.isupper (Str.lower s) = false.
Proof.
  induction s as [|c s IH]; [done|].
  cbn. fold (Str.lower s). by rewrite char_lower_not_upper, IH.
Qed.

Lemma lower_fixed (s : string) :
  Str.any Char.isupper s = false → Str.lower s = s.
Proof.
  induction s as [|c s IH]; [done|].
  intros [Hc Hs]%orb_false_elim. cbn. fold (Str.lower s).
  unfold Char.lower. rewrite Hc. by rewrite IH.
Qed.

Lemma lower_underscore (s : string) :
  Str.any is_underscore (Str.lower s) = Str.any is_underscore s.
Proof.
  induction s as [|c s IH]; [done|].
  cbn. fold (Str.lower s). unfold is_underscore at 1 3.
  by rewrite char_lower_underscore, IH.
Qed.

(** *** Underscores *)

Lemma replace_underscore_cons (c : ascii) (s : string) :
  Re.replace "_" "-" (String c s) =
  String (if is_underscore c then "-"%char else c) (Re.replace "_" "-" s).
Proof.
  unfold Re.replace, is_underscore. cbn [Re.replace_go].
  rewrite startswith_cons, startswith_nil, andb_true_r, Ascii.eqb_sym.
  by destruct (Ascii.eqb c "_").
Qed.

Lemma replace_underscore_none (s : string) :
  Str.any is_underscore (Re.replace "_" "-" s) = false.
Proof.
  induction s as [|c s IH]; [done|].
  rewrite replace_underscore_cons. simpl. rewrite IH, orb_false_r.
  destruct (is_underscore c) eqn:Hc; [reflexivity|done].
Qed.

Lemma replace_underscore_fixed (s : string) :
  Str.any is_underscore s = false → Re.replace "_" "-" s = s.
Proof.
  induction s as [|c s IH]; [done|].
  intros [Hc Hs]%orb_false_elim.
  by rewrite replace_underscore_cons, Hc, IH.
Qed.

(** *** The special case *)

Lemma contains_README_upper (s : string) :
  Str.contains "README" s = true → Str.any Char.isupper s = true.
Proof.
  induction s as [|c s IH]; [done|].
  rewrite contains_cons, startswith_cons. simpl Str.any.
  intros [[Hc _]%andb_prop|Hs]%orb_prop.
  - apply Ascii.eqb_eq in Hc as <-. reflexivity.
  - rewrite IH by done. apply orb_true_r.
Qed.

Lemma no_README_after_lowering (s : string) :
  Str.any Char.isupper s = false → Str.contains "README" (s +:+ ".md") = false.
Proof.
  intros Hs. destruct (Str.contains "README" (s +:+ ".md")) eqn:Hc; [|done].
  apply contains_README_upper in Hc. rewrite any_app, Hs in Hc. done.
Qed.

(** *** Runs of hyphens *)

Lemma collapse_hyphens_start (s : string) :
  Str.startswith "-" (Re.collapse_hyphens s) = Str.startswith "-" s.
Proof.
  induction s as [|c s IH]; [done|]. cbn [Re.collapse_hyphens].
  destruct (Ascii.eqb c "-" && Str.startswith "-" s) eqn:Hrun.
  - apply andb_prop in Hrun as [Hc Hs].
    by rewrite IH, Hs, startswith_hyphen_cons, Hc.
  - by rewrite !startswith_hyphen_cons.
Qed.

Lemma collapse_hyphens_no_run (s : string) :
  Str.contains "--" (Re.collapse_hyphens s) = false.
Proof.
  induction s as [|c s IH]; [done|]. cbn [Re.collapse_hyphens].
  destruct (Ascii.eqb c "-" && Str.startswith "-" s) eqn:Hrun; [done|].
  by rewrite contains_cons, IH, double_hyphen_cons, collapse_hyphens_start,
    Hrun.
Qed.

Lemma collapse_hyphens_fixed (s : string) :
  Str.contains "--" s = false → Re.collapse_hyphens s = s.
Proof.
  induction s as [|c s IH]; [done|].
  intros [Hrun Hs]%contains_cons_false. rewrite double_hyphen_cons in Hrun.
  cbn [Re.collapse_hyphens]. by rewrite Hrun, IH.
Qed.

(** *** Hyphens at the edges *)

Lemma strip_leading_no_run (s : string) :
  Str.contains "--" s = false →
  Str.contains "--" (Re.strip_leading_hyphen s) = false.
Proof.
  destruct s as [|c s]; [done|]. intros Hs. cbn [Re.strip_leading_hyphen].
  destruct (Ascii.eqb c "-"); [|done]. by apply contains_cons_false in Hs as [_ ?].
Qed.

Lemma strip_leading_start (s : string) :
  Str.contains "--" s = false →
  Str.startswith "-" (Re.strip_leading_hyphen s) = false.
Proof.
  destruct s as [|c s]; [done|].
  intros [Hrun _]%contains_cons_false. rewrite double_hyphen_cons in Hrun.
  cbn [Re.strip_leading_hyphen]. destruct (Ascii.eqb c "-") eqn:Hc; [done|].
  by rewrite startswith_hyphen_cons.
Qed.

Lemma strip_leading_fixed (s : string) :
  Str.startswith "-" s = false → Re.strip_leading_hyphen s = s.
Proof.
  destruct s as [|c s]; [done|]. rewrite startswith_hyphen_cons.
  intros Hc. cbn [Re.strip_leading_hyphen]. by rewrite Hc.
Qed.

Lemma strip_trailing_start (s : string) :
  Str.startswith "-" s = false →
  Str.startswith "-" (Re.strip_trailing_hyphen s) = false.
Proof.
  destruct s as [|c s]; [done|]. rewrite startswith_hyphen_cons.
  intros Hc. cbn [Re.strip_trailing_hyphen]. rewrite Hc. cbn [andb].
  by rewrite startswith_hyphen_cons.
Qed.

Lemma strip_trailing_no_run (s : string) :
  Str.contains "--" s = false →
  Str.contains "--" (Re.strip_trailing_hyphen s) = false.
Proof.
  induction s as [|c s IH]; [done|].
  intros [Hrun Hs]%contains_cons_false. rewrite double_hyphen_cons in Hrun.
  cbn [Re.strip_trailing_hyphen].
  destruct (Ascii.eqb c "-" && Re.at_end s); [done|].
  rewrite contains_cons, IH, double_hyphen_cons, orb_false_r by done.
  destruct (Ascii.eqb c "-"); [|done]. simpl in *.
  by apply strip_trailing_start.
Qed.

Lemma at_end_cases (s : string) :
  Re.at_end s = true → s = "" ∨ s = String LF "".
Proof.
  unfold Re.at_end. intros [H|H]%orb_prop; apply String.eqb_eq in H; auto.
Qed.

Lemma strip_trailing_empty (s : string) :
  Re.strip_trailing_hyphen s = "" → s = "" ∨ s = "-".
Proof.
  destruct s as [|c s]; [auto|]. cbn [Re.strip_trailing_hyphen].
  destruct (Ascii.eqb c "-" && Re.at_end s) eqn:Hc; [|done].
  apply andb_prop in Hc as [->%Ascii.eqb_eq _]. intros ->. auto.
Qed.

Lemma endswith_cons (p : string) (c : ascii) (s : string) :
  Str.endswith p (String c s) = String.eqb p (String c s) || Str.endswith p s.
Proof. reflexivity. Qed.

Lemma strip_trailing_end (s : string) :
  Str.contains "--" s = false →
  Str.endswith "-" (Re.strip_trailing_hyphen s) = false.
Proof.
  induction s as [|c s IH]; [done|].
  intros [Hrun Hs]%contains_cons_false. rewrite double_hyphen_cons in Hrun.
  cbn [Re.strip_trailing_hyphen].
  destruct (Ascii.eqb c "-" && Re.at_end s) eqn:Hc.
  - apply andb_prop in Hc as [_ [-> | ->]%at_end_cases]; reflexivity.
  - rewrite endswith_cons, IH, orb_false_r by done.
    apply String.eqb_neq. intros [= <- Hempty].
    symmetry in Hempty. apply strip_trailing_empty in Hempty as [-> | ->];
      simpl in *; done.
Qed.

Lemma strip_trailing_fixed (s : string) :
  Str.endswith "-" s = false → Str.endswith hyphen_LF s = false →
  Re.strip_trailing_hyphen s = s.
Proof.
  induction s as [|c s IH]; [done|]. rewrite !endswith_cons.
  intros [H1 Hs1]%orb_false_elim [H2 Hs2]%orb_false_elim.
  cbn [Re.strip_trailing_hyphen].
  destruct (Ascii.eqb c "-" && Re.at_end s) eqn:Hc.
  - apply andb_prop in Hc as [->%Ascii.eqb_eq [-> | ->]%at_end_cases]; done.
  - by rewrite IH.
Qed.

(** *** The length cap *)

Lemma take_length (n : nat) (s : string) :
  (String.length (Str.take n s) ≤ n)%nat.
Proof.
  revert n. induction s as [|c s IH]; intros [|n]; simpl; try lia.
  specialize (IH n). lia.
Qed.

Lemma take_start (n : nat) (s : string) :
  Str.startswith "-" s = false → Str.startswith "-" (Str.take n s) = false.
Proof.
  by destruct s as [|c s], n as [|n].
Qed.

Lemma take_no_run (n : nat) (s : string) :
  Str.contains "--" s = false → Str.contains "--" (Str.take n s) = false.
Proof.
  revert n. induction s as [|c s IH]; intros [|n]; try done.
  intros [Hrun Hs]%contains_cons_false. rewrite double_hyphen_cons in Hrun.
  simpl Str.take. rewrite contains_cons, IH, double_hyphen_cons, orb_false_r by done.
  destruct (Ascii.eqb c "-"); [|done]. simpl in *. by apply take_start.
Qed.

Lemma before_last_length (sep : ascii) (s r : string) :
  Re.before_last sep s = Some r → (String.length r ≤ String.length s)%nat.
Proof.
  revert r. induction s as [|c s IH]; [done|]. intros r. cbn [Re.before_last].
  destruct (Re.before_last sep s) as [r'|].
  - intros [= <-]. specialize (IH r' eq_refl). simpl. lia.
  - destruct (Ascii.eqb c sep); [|done]. intros [= <-]. simpl. lia.
Qed.

Lemma before_last_empty (sep : ascii) (s : string) :
  Re.before_last sep s = Some "" → ∃ rest, s = String sep rest.
Proof.
  destruct s as [|c s]; [done|]. cbn [Re.before_last].
  destruct (Re.before_last sep s); [done|].
  destruct (Ascii.eqb_spec c sep) as [->|]; [eauto|done].
Qed.

Lemma before_last_start (s r : string) :
  Re.before_last "-" s = Some r →
  Str.startswith "-" s = false → Str.startswith "-" r = false.
Proof.
  destruct s as [|c s]; [done|]. cbn [Re.before_last].
  rewrite startswith_hyphen_cons. intros Hr Hc.
  destruct (Re.before_last "-" s) as [r'|].
  - injection Hr as <-. by rewrite startswith_hyphen_cons.
  - by rewrite Hc in Hr.
Qed.

Lemma before_last_no_run (s r : string) :
  Re.before_last "-" s = Some r →
  Str.contains "--" s = false → Str.contains "--" r = false.
Proof.
  revert r. induction s as [|c s IH]; [done|]. intros r. cbn [Re.before_last].
  intros Hr [Hrun Hs]%contains_cons_false. rewrite double_hyphen_cons in Hrun.
  destruct (Re.before_last "-" s) as [r'|] eqn:Hr'.
  - injection Hr as <-.
    rewrite contains_cons, (IH r'), double_hyphen_cons, orb_false_r by done.
    destruct (Ascii.eqb c "-"); [|done]. simpl in *.
    by apply (before_last_start s).
  - destruct (Ascii.eqb c "-"); [|done]. by injection Hr as <-.
Qed.

Lemma before_last_end (s r : string) :
  Re.before_last "-" s = Some r →
  Str.contains "--" s = false → Str.endswith "-" r = false.
Proof.
  revert r. induction s as [|c s IH]; [done|]. intros r. cbn [Re.before_last].
  intros Hr [Hrun Hs]%contains_cons_false. rewrite double_hyphen_cons in Hrun.
  destruct (Re.before_last "-" s) as [r'|] eqn:Hr'.
  - injection Hr as <-. rewrite endswith_cons, (IH r'), orb_false_r by done.
    apply String.eqb_neq. intros [= <- <-].
    apply before_last_empty in Hr' as [rest ->]. done.
  - destruct (Ascii.eqb c "-"); [|done]. by injection Hr as <-.
Qed.

Lemma before_last_none (s : string) :
  Re.before_last "-" s = None → Str.any is_hyphen s = false.
Proof.
  induction s as [|c s IH]; [done|]. cbn [Re.before_last].
  destruct (Re.before_last "-" s); [done|]. simpl. unfold is_hyphen at 1.
  destruct (Ascii.eqb c "-"); [done|]. auto.
Qed.

Lemma endswith_hyphen_any (s : string) :
  Str.endswith "-" s = true → Str.any is_hyphen s = true.
Proof.
  induction s as [|c s IH]; [done|]. rewrite endswith_cons. simpl Str.any.
  intros [H|H]%orb_prop.
  - apply String.eqb_eq in H. injection H as <- _. reflexivity.
  - rewrite IH by done. apply orb_true_r.
Qed.

Lemma rsplit_head_end (s : string) :
  Str.contains "--" s = false → Str.endswith "-" (Re.rsplit_head "-" s) = false.
Proof.
  intros Hs. unfold Re.rsplit_head.
  destruct (Re.before_last "-" s) as [r|] eqn:Hr; simpl.
  - by apply (before_last_end s).
  - apply before_last_none in Hr.
    destruct (Str.endswith "-" s) eqn:He; [|done].
    apply endswith_hyphen_any in He. congruence.
Qed.

Lemma rsplit_head_start (s : string) :
  Str.startswith "-" s = false →
  Str.startswith "-" (Re.rsplit_head "-" s) = false.
Proof.
  intros Hs. unfold Re.rsplit_head.
  destruct (Re.before_last "-" s) as [r|] eqn:Hr; [|done].
  by apply (before_last_start s).
Qed.

Lemma rsplit_head_no_run (s : string) :
  Str.contains "--" s = false →
  Str.contains "--" (Re.rsplit_head "-" s) = false.
Proof.
  intros Hs. unfold Re.rsplit_head.
  destruct (Re.before_last "-" s) as [r|] eqn:Hr; [|done].
  by apply (before_last_no_run s).
Qed.

Lemma rsplit_head_length (sep : ascii) (s : string) :
  (String.length (Re.rsplit_head sep s) ≤ String.length s)%nat.
Proof.
  unfold Re.rsplit_head.
  destruct (Re.before_last sep s) as [r|] eqn:Hr; [|done].
  by apply (before_last_length sep).
Qed.

(** *** The suffix ".md" *)

Lemma no_match_across_suffix (c : ascii) (s : string) :
  Str.startswith ".md" (String c s) = false →
  Str.startswith ".md" (String c s +:+ ".md") = false.
Proof.
  rewrite app_cons, !startswith_cons.
  destruct (Ascii.eqb "." c); [|done]. cbn [andb].
  destruct s as [|d s]; [done|]. rewrite app_cons, !startswith_cons.
  destruct (Ascii.eqb "m" d); [|done]. cbn [andb].
  destruct s as [|e s]; [done|]. by rewrite app_cons, !startswith_cons.
Qed.

Lemma replace_md_suffix (s : string) :
  Str.contains ".md" s = false → Re.replace ".md" "" (s +:+ ".md") = s.
Proof.
  unfold Re.replace. induction s as [|c s IH]; [done|].
  intros [Hhere Hs]%contains_cons_false.
  apply no_match_across_suffix in Hhere. rewrite app_cons in *.
  cbn [Re.replace_go]. by rewrite Hhere, IH.
Qed.

(** *** What a normalized stem looks like *)

Lemma clean_stem_normalized (name : string) : normalized (clean_stem name).
Proof.
  unfold clean_stem, Re.strip_edge_hyphens.
  set (x1 := Re.replace "_" "-" (Re.replace ".md" "" name)).
  set (x3 := Re.collapse_hyphens (Str.lower x1)).
  set (x4 := Re.strip_trailing_hyphen (Re.strip_leading_hyphen x3)).
  assert (Hup : Str.any Char.isupper x4 = false).
  { apply any_strip_trailing_hyphen, any_strip_leading_hyphen,
      any_collapse_hyphens, lower_no_upper. }
  assert (Hus : Str.any is_underscore x4 = false).
  { apply any_strip_trailing_hyphen, any_strip_leading_hyphen,
      any_collapse_hyphens. rewrite lower_underscore.
    apply replace_underscore_none. }
  assert (Hrun3 : Str.contains "--" x3 = false)
    by apply collapse_hyphens_no_run.
  assert (Hrun : Str.contains "--" x4 = false)
    by by apply strip_trailing_no_run, strip_leading_no_run.
  assert (Hstart : Str.startswith "-" x4 = false)
    by by apply strip_trailing_start, strip_leading_start.
  assert (Hend : Str.endswith "-" x4 = false)
    by by apply strip_trailing_end, strip_leading_no_run.
  destruct (50 <? String.length x4)%nat eqn:Hlen.
  - split.
    + by apply any_rsplit_head, any_take.
    + by apply any_rsplit_head, any_take.
    + by apply rsplit_head_no_run, take_no_run.
    + by apply rsplit_head_start, take_start.
    + by apply rsplit_head_end, take_no_run.
    + pose proof (rsplit_head_length "-" (Str.take 50 x4)).
      pose proof (take_length 50 x4). lia.
  - split; try done. by apply Nat.ltb_ge.
Qed.

Lemma normalized_fixed (s : string) :
  normalized s →
  Str.contains ".md" s = false → Str.endswith hyphen_LF s = false →
  clean_stem (s +:+ ".md") = s.
Proof.
  intros [Hup Hus Hrun Hstart Hend Hlen] Hmd Hlf.
  unfold clean_stem, Re.strip_edge_hyphens.
  rewrite replace_md_suffix, replace_underscore_fixed, lower_fixed,
    collapse_hyphens_fixed, strip_leading_fixed, strip_trailing_fixed by done.
  by apply Nat.ltb_ge in Hlen as ->.
Qed.

(** C3, as stated, fails: a name whose stem still holds ".md" after the
    lowering loses it at the second normalization. *)
Lemma clean_filename_not_idempotent :
  ¬ (∀ name, clean_filename (clean_filename name) = clean_filename name).
Proof.
  intros Hall. specialize (Hall "notes.MD.md").
  vm_compute in Hall. discriminate Hall.
Qed.

(** C3, amended: normalizing a normalized name yields the same name for every
    name that contains "README", and for every other name whose normalized
    stem (the normalized name without its final ".md") contains no ".md" and
    does not end with a hyphen followed by a line feed. *)
Theorem clean_filename_idempotent (name : string) :
  Str.contains "README" name = true
  ∨ (Str.contains ".md" (clean_stem name) = false
     ∧ Str.endswith hyphen_LF (clean_stem name) = false) →
  clean_filename (clean_filename name) = clean_filename name.
Proof.
  intros Hcond. unfold clean_filename at 2 3.
  destruct (Str.contains "README" name) eqn:Hreadme; [reflexivity|].
  destruct Hcond as [|[Hmd Hlf]]; [done|].
  pose proof (clean_stem_normalized name) as Hnorm.
  unfold clean_filename.
  rewrite no_README_after_lowering by apply Hnorm.
  by rewrite normalized_fixed.
Qed.

Lemma clean_filename_idempotent_witness :
  Str.contains ".md" (clean_stem "API_DOCUMENTATION.md") = false
  ∧ Str.endswith hyphen_LF (clean_stem "API_DOCUMENTATION.md") = false
  ∧ clean_filename (clean_filename "API_DOCUMENTATION.md")
    = clean_filename "API_DOCUMENTATION.md".
Proof.
  split; [reflexivity|]. split; [reflexivity|].
  apply (clean_filename_idempotent "API_DOCUMENTATION.md").
  right. split; reflexivity.
Defined.

(** *** The condition is necessary *)

Lemma str_length_app (s t : string) :
  String.length (s +:+ t) = (String.length s + String.length t)%nat.
Proof. induction s as [|c s IH]; [done|]. rewrite app_cons. simpl. by rewrite IH. Qed.

Lemma str_app_inv_tail (s t u : string) : s +:+ u = t +:+ u → s = t.
Proof.
  revert t. induction s as [|c s IH]; intros [|d t] Heq; [done|..].
  - apply (f_equal String.length) in Heq. rewrite !str_length_app in Heq.
    simpl in Heq. lia.
  - apply (f_equal String.length) in Heq. rewrite !str_length_app in Heq.
    simpl in Heq. lia.
  - rewrite !app_cons in Heq. injection Heq as -> Heq. by rewrite (IH t).
Qed.

Lemma startswith_md (t : string) :
  Str.startswith ".md" t = true → ∃ t', t = ".md" +:+ t'.
Proof.
  destruct t as [|c1 [|c2 [|c3 t']]]; try done;
    rewrite !startswith_cons; try by rewrite ?andb_false_r.
  intros [->%Ascii.eqb_eq [->%Ascii.eqb_eq [->%Ascii.eqb_eq _]%andb_prop]%andb_prop]%andb_prop.
  by exists t'.
Qed.

Lemma replace_md_match (t : string) :
  Re.replace ".md" "" (".md" +:+ t) = Re.replace ".md" "" t.
Proof. reflexivity. Qed.

Lemma replace_md_no_match (c : ascii) (t : string) :
  Str.startswith ".md" (String c t) = false →
  Re.replace ".md" "" (String c t) = String c (Re.replace ".md" "" t).
Proof. intros Hno. unfold Re.replace. cbn [Re.replace_go]. by rewrite Hno. Qed.

Lemma replace_md_length_bounded (n : nat) (t : string) :
  (String.length t ≤ n)%nat →
  (String.length (Re.replace ".md" "" t) ≤ String.length t)%nat.
Proof.
  revert t. induction n as [|n IH]; intros [|c t] Hn; simpl in Hn; try done;
    [lia|].
  destruct (Str.startswith ".md" (String c t)) eqn:Hhere.
  - apply startswith_md in Hhere as [t' Ht']. rewrite Ht', replace_md_match.
    apply (f_equal String.length) in Ht'. rewrite str_length_app in Ht'.
    simpl in Ht'. specialize (IH t'). rewrite str_length_app. simpl. lia.
  - rewrite replace_md_no_match by done. specialize (IH t). simpl. lia.
Qed.

Lemma replace_md_length (t : string) :
  (String.length (Re.replace ".md" "" t) ≤ String.length t)%nat.
Proof. by apply (replace_md_length_bounded (String.length t)). Qed.

(** A text that holds ".md" loses at least three characters. *)
Lemma replace_md_shrinks (t : string) :
  Str.contains ".md" t = true →
  (String.length (Re.replace ".md" "" t) + 3 ≤ String.length t)%nat.
Proof.
  induction t as [|c t IH]; [done|]. rewrite contains_cons.
  destruct (Str.startswith ".md" (String c t)) eqn:Hhere.
  - intros _. apply startswith_md in Hhere as [t' ->].
    rewrite replace_md_match, str_length_app. pose proof (replace_md_length t').
    simpl. lia.
  - intros Ht. rewrite replace_md_no_match by done. specialize (IH Ht).
    simpl. lia.
Qed.

Lemma contains_suffix (p s : string) : Str.contains p (s +:+ p) = true.
Proof.
  induction s as [|c s IH].
  - assert (Hself : ∀ q, Str.startswith q q = true).
    { intros q. induction q as [|a q IHq]; [done|].
      by rewrite startswith_cons, Ascii.eqb_refl. }
    destruct p as [|a p]; [done|]. change ("" +:+ String a p) with (String a p).
    by rewrite contains_cons, Hself.
  - by rewrite app_cons, contains_cons, IH, orb_true_r.
Qed.

(** A stem that holds ".md" loses at least six characters together with its
    suffix, three more than the suffix alone. *)
Lemma replace_md_suffix_shrinks (s : string) :
  Str.contains ".md" s = true →
  (String.length (Re.replace ".md" "" (s +:+ ".md")) + 3 ≤ String.length s)%nat.
Proof.
  induction s as [|c s IH]; [done|]. rewrite contains_cons.
  destruct (Str.startswith ".md" (String c s)) eqn:Hhere.
  - intros _. apply startswith_md in Hhere as [s' ->].
    change ((".md" +:+ s') +:+ ".md") with (".md" +:+ (s' +:+ ".md")).
    rewrite replace_md_match.
    pose proof (replace_md_shrinks (s' +:+ ".md") (contains_suffix ".md" s')).
    rewrite !str_length_app in *. simpl in *. lia.
  - intros Hs. apply no_match_across_suffix in Hhere.
    rewrite app_cons in *. rewrite replace_md_no_match by done.
    specialize (IH Hs). simpl. lia.
Qed.

(** No step after the removal of ".md" makes the name longer. *)
Lemma replace_underscore_length (s : string) :
  String.length (Re.replace "_" "-" s) = String.length s.
Proof.
  induction s as [|c s IH]; [done|].
  rewrite replace_underscore_cons. simpl. by rewrite IH.
Qed.

Lemma lower_length (s : string) : String.length (Str.lower s) = String.length s.
Proof.
  induction s as [|c s IH]; [done|]. cbn. fold (Str.lower s). by rewrite IH.
Qed.

Lemma collapse_hyphens_length (s : string) :
  (String.length (Re.collapse_hyphens s) ≤ String.length s)%nat.
Proof.
  induction s as [|c s IH]; [done|]. cbn [Re.collapse_hyphens].
  destruct (Ascii.eqb c "-" && Str.startswith "-" s); simpl; lia.
Qed.

Lemma strip_leading_length (s : string) :
  (String.length (Re.strip_leading_hyphen s) ≤ String.length s)%nat.
Proof.
  destruct s as [|c s]; [done|]. cbn [Re.strip_leading_hyphen].
  destruct (Ascii.eqb c "-"); simpl; lia.
Qed.

Lemma strip_trailing_length (s : string) :
  (String.length (Re.strip_trailing_hyphen s) ≤ String.length s)%nat.
Proof.
  induction s as [|c s IH]; [done|]. cbn [Re.strip_trailing_hyphen].
  destruct (Ascii.eqb c "-" && Re.at_end s); simpl; lia.
Qed.

Lemma strip_trailing_shorter (s : string) :
  Str.endswith hyphen_LF s = true →
  (String.length (Re.strip_trailing_hyphen s) < String.length s)%nat.
Proof.
  induction s as [|c s IH]; [done|]. rewrite endswith_cons.
  cbn [Re.strip_trailing_hyphen].
  destruct (Ascii.eqb c "-" && Re.at_end s) eqn:Hc; [simpl; lia|].
  intros [Hwhole|Hs]%orb_prop.
  - apply String.eqb_eq in Hwhole. injection Hwhole as <- <-. done.
  - specialize (IH Hs). simpl. lia.
Qed.

Lemma cap_length (s : string) :
  (String.length (if (50 <? String.length s)%nat
                  then Re.rsplit_head "-" (Str.take 50 s) else s)
   ≤ String.length s)%nat.
Proof.
  destruct (50 <? String.length s)%nat eqn:Hlen; [|done].
  apply Nat.ltb_lt in Hlen.
  pose proof (rsplit_head_length "-" (Str.take 50 s)).
  pose proof (take_length 50 s). lia.
Qed.

Lemma clean_stem_length (name : string) :
  (String.length (clean_stem name)
   ≤ String.length (Re.replace ".md" "" name))%nat.
Proof.
  unfold clean_stem, Re.strip_edge_hyphens.
  set (x1 := Re.replace "_" "-" (Re.replace ".md" "" name)).
  set (x3 := Re.collapse_hyphens (Str.lower x1)).
  set (x4 := Re.strip_trailing_hyphen (Re.strip_leading_hyphen x3)).
  pose proof (cap_length x4).
  pose proof (strip_trailing_length (Re.strip_leading_hyphen x3)).
  pose proof (strip_leading_length x3).
  pose proof (collapse_hyphens_length (Str.lower x1)).
  pose proof (lower_length x1).
  pose proof (replace_underscore_length (Re.replace ".md" "" name)).
  subst x4 x3 x1. lia.
Qed.

(** The condition of the idempotence theorem is also necessary: a name
    outside it is changed by the second normalization. *)
Lemma clean_filename_idempotent_only_if (name : string) :
  clean_filename (clean_filename name) = clean_filename name →
  Str.contains "README" name = true
  ∨ (Str.contains ".md" (clean_stem name) = false
     ∧ Str.endswith hyphen_LF (clean_stem name) = false).
Proof.
  unfold clean_filename at 2 3.
  destruct (Str.contains "README" name) eqn:Hreadme; [auto|].
  intros Hfix. right.
  pose proof (clean_stem_normalized name) as Hnorm.
  set (s := clean_stem name) in *.
  unfold clean_filename in Hfix.
  rewrite no_README_after_lowering in Hfix by apply Hnorm.
  apply str_app_inv_tail in Hfix.
  destruct (Str.contains ".md" s) eqn:Hmd.
  - pose proof (clean_stem_length (s +:+ ".md")).
    pose proof (replace_md_suffix_shrinks s Hmd).
    rewrite Hfix in *. lia.
  - split; [done|]. destruct (Str.endswith hyphen_LF s) eqn:Hlf; [|done].
    destruct Hnorm as [Hup Hus Hrun Hstart Hend Hlen].
    unfold clean_stem, Re.strip_edge_hyphens in Hfix.
    rewrite replace_md_suffix, replace_underscore_fixed, lower_fixed,
      collapse_hyphens_fixed, strip_leading_fixed in Hfix by done.
    pose proof (cap_length (Re.strip_trailing_hyphen s)).
    pose proof (strip_trailing_shorter s Hlf).
    rewrite Hfix in *. lia.
Qed.

(** ** Duplicate detection *)

Lemma dd_extend_twice (key : string) (paths1 paths2 : list Path)
    (duplicates : gmap string (list Path)) :
  dd_extend key paths2 (dd_extend key paths1 duplicates)
  = dd_extend key (paths1 ++ paths2) duplicates.
Proof.
  unfold dd_extend. rewrite lookup_insert_eq, insert_insert_eq. simpl.
  by rewrite app_assoc.
Qed.

Lemma compare_pair_entries (doc1 doc2 : Doc)
    (duplicates : gmap string (list Path)) :
  compare_pair doc1 doc2 duplicates
  = foldl add_entry duplicates (pair_entries doc1 doc2).
Proof.
  unfold compare_pair, pair_entries, add_entry.
  destruct (decide (doc_hash doc1 = doc_hash doc2)); [done|].
  destruct (Qlt_le_dec _ _); [|done]. simpl. by rewrite dd_extend_twice.
Qed.

Lemma inner_loop_entries (doc1 : Doc) (rest : list Doc)
    (duplicates : gmap string (list Path)) :
  foldl (fun acc doc2 => compare_pair doc1 doc2 acc) duplicates rest
  = foldl add_entry duplicates (rest ≫= pair_entries doc1).
Proof.
  revert duplicates. induction rest as [|doc2 rest IH]; intros duplicates;
    [done|].
  simpl. by rewrite foldl_app, IH, compare_pair_entries.
Qed.

Lemma compare_all_entries (documents : list Doc)
    (duplicates : gmap string (list Path)) :
  compare_all documents duplicates
  = foldl add_entry duplicates (all_entries documents).
Proof.
  revert duplicates. induction documents as [|doc1 rest IH];
    intros duplicates; [done|].
  simpl. by rewrite foldl_app, IH, inner_loop_entries.
Qed.

Lemma add_entry_lookup (duplicates : gmap string (list Path))
    (e : string * Path) (key : string) :
  add_entry duplicates e !! key
  = if decide (e.1 = key)
    then Some (default [] (duplicates !! key) ++ [e.2])
    else duplicates !! key.
Proof.
  unfold add_entry, dd_extend. destruct (decide (e.1 = key)) as [<-|Hne].
  - by rewrite lookup_insert_eq.
  - by rewrite lookup_insert_ne.
Qed.

(** A group holds the paths appended under its key, and a key has a group
    as soon as one path was appended under it. *)
Lemma entries_lookup (es : list (string * Path))
    (duplicates : gmap string (list Path)) (key : string) (paths : list Path) :
  foldl add_entry duplicates es !! key = Some paths →
  ∀ p, p ∈ paths ↔ p ∈ default [] (duplicates !! key) ∨ (key, p) ∈ es.
Proof.
  revert duplicates. induction es as [|[k q] es IH]; intros duplicates Hl p.
  - simpl in Hl. rewrite Hl. simpl. rewrite elem_of_nil. tauto.
  - simpl in Hl. rewrite (IH _ Hl p), add_entry_lookup, elem_of_cons.
    cbn [fst snd]. destruct (decide (k = key)) as [->|Hne]; cbn [default].
    + unfold id. rewrite elem_of_app, list_elem_of_singleton.
      split; [intros [[?| ->]|?]|intros [?|[[= ->]|?]]]; auto.
    + split; [intros [?|?]|intros [?|[[= ? ?]|?]]]; auto. done.
Qed.

Lemma entries_is_Some (es : list (string * Path))
    (duplicates : gmap string (list Path)) (key : string) :
  is_Some (foldl add_entry duplicates es !! key)
  ↔ is_Some (duplicates !! key) ∨ ∃ p, (key, p) ∈ es.
Proof.
  revert duplicates. induction es as [|[k q] es IH]; intros duplicates.
  - simpl. split; [auto|]. intros [?|[p Hp]]; [done|]. by apply elem_of_nil in Hp.
  - simpl. rewrite IH, add_entry_lookup. simpl. split.
    + intros [Hs|[p Hp]].
      * destruct (decide (k = key)) as [->|Hne]; [|auto].
        right. exists q. by left.
      * right. exists p. by right.
    + intros [Hs|[p Hp]].
      * left. destruct (decide (k = key)); [by eexists|done].
      * apply elem_of_cons in Hp as [[= -> ->]|Hp].
        -- left. rewrite decide_True by done. by eexists.
        -- right. by exists p.
Qed.

Lemma dedup_paths_elem_of (paths : list Path) (p : Path) :
  p ∈ dedup_paths paths ↔ p ∈ paths.
Proof.
  unfold dedup_paths. rewrite elem_of_elements. apply elem_of_list_to_set.
Qed.

Lemma dedup_paths_NoDup (paths : list Path) : NoDup (dedup_paths paths).
Proof. unfold dedup_paths. apply NoDup_elements. Qed.

Lemma find_duplicates_lookup (documents : list Doc) (key : string)
    (group : list Path) :
  find_duplicates documents !! key = Some group →
  NoDup group ∧ ∀ p, p ∈ group ↔ (key, p) ∈ all_entries documents.
Proof.
  unfold find_duplicates. rewrite lookup_fmap, compare_all_entries.
  destruct (foldl add_entry ∅ (all_entries documents) !! key) as [paths|]
    eqn:Hl; [|done].
  intros [= <-]. split; [apply dedup_paths_NoDup|]. intros p.
  rewrite dedup_paths_elem_of, (entries_lookup _ _ _ _ Hl), lookup_empty.
  simpl. rewrite elem_of_nil. tauto.
Qed.

Lemma find_duplicates_is_Some (documents : list Doc) (key : string) :
  is_Some (find_duplicates documents !! key)
  ↔ ∃ p, (key, p) ∈ all_entries documents.
Proof.
  unfold find_duplicates.
  rewrite lookup_fmap, fmap_is_Some, compare_all_entries, entries_is_Some,
    lookup_empty.
  split; [intros [[? ?]|?]|]; auto. done.
Qed.

(** Where an entry comes from: a pair of documents, the first one earlier in
    the list. *)
Lemma all_entries_elem_of (documents : list Doc) (e : string * Path) :
  e ∈ all_entries documents ↔
  ∃ i j doc1 doc2, (i < j)%nat ∧ documents !! i = Some doc1
                   ∧ documents !! j = Some doc2 ∧ e ∈ pair_entries doc1 doc2.
Proof.
  induction documents as [|doc rest IH].
  - split; [by intros ?%elem_of_nil|]. by intros (i & j & d1 & d2 & _ & ? & _).
  - simpl. rewrite elem_of_app, list_elem_of_bind, IH. split.
    + intros [(doc2 & He & [j Hj]%list_elem_of_lookup)
             |(i & j & d1 & d2 & Hij & Hi & Hj & He)].
      * exists 0%nat, (S j), doc, doc2. split; [lia|]. done.
      * exists (S i), (S j), d1, d2. split; [lia|]. done.
    + intros (i & j & d1 & d2 & Hij & Hi & Hj & He).
      destruct i as [|i], j as [|j]; try lia; simpl in *.
      * left. injection Hi as ->. exists d2. split; [done|].
        by apply list_elem_of_lookup_2 with j.
      * right. exists i, j, d1, d2. split; [lia|]. done.
Qed.

Lemma similarity_ratio_comm (text1 text2 : string) :
  similarity_ratio text1 text2 = similarity_ratio text2 text1.
Proof.
  unfold similarity_ratio. cbv zeta.
  assert (Hinter : token_set text2 ∩ token_set text1
                   = token_set text1 ∩ token_set text2)
    by apply intersection_comm_L.
  assert (Hunion : token_set text2 ∪ token_set text1
                   = token_set text1 ∪ token_set text2)
    by apply union_comm_L.
  by rewrite Hinter, Hunion.
Qed.

Lemma similar_key_not_hex (doc1 doc2 : Doc) :
  all_hexdigits (similar_key doc1 doc2) = false.
Proof. reflexivity. Qed.

(** Near-duplicates are grouped. *)
Lemma similar_pair_grouped (documents : list Doc) (i j : nat)
    (doc1 doc2 : Doc) :
  (i < j)%nat → documents !! i = Some doc1 → documents !! j = Some doc2 →
  doc_hash doc1 ≠ doc_hash doc2 →
  (threshold < similarity_ratio (doc_content doc1) (doc_content doc2))%Q →
  grouped_under (similar_key doc1 doc2) doc1 doc2 (find_duplicates documents).
Proof.
  intros Hij Hi Hj Hhash Hsim.
  assert (Hentries : ∀ e, e ∈ pair_entries doc1 doc2 → e ∈ all_entries documents).
  { intros e He. apply all_entries_elem_of. by exists i, j, doc1, doc2. }
  assert (Hpair : pair_entries doc1 doc2
                  = [(similar_key doc1 doc2, doc_path doc1);
                     (similar_key doc1 doc2, doc_path doc2)]).
  { unfold pair_entries. rewrite decide_False by done.
    destruct (Qlt_le_dec _ _) as [|Hle]; [done|].
    by apply Qle_not_lt in Hle. }
  rewrite Hpair in Hentries.
  destruct (find_duplicates_is_Some documents (similar_key doc1 doc2))
    as [_ [group Hgroup]].
  { eexists. apply Hentries. by left. }
  exists group. split; [done|].
  destruct (find_duplicates_lookup _ _ _ Hgroup) as [_ Hmem].
  split; apply Hmem, Hentries; [by left|by right; left].
Qed.

(** A group under a name-based key comes from near-duplicate pairs with
    that key. *)
Lemma similar_group_origin (documents : list Doc) (key : string)
    (group : list Path) (p : Path) :
  Forall (fun doc => all_hexdigits (doc_hash doc) = true) documents →
  all_hexdigits key = false →
  find_duplicates documents !! key = Some group → p ∈ group →
  ∃ i j doc1 doc2,
    (i < j)%nat ∧ documents !! i = Some doc1 ∧ documents !! j = Some doc2
    ∧ similar_key doc1 doc2 = key
    ∧ (threshold < similarity_ratio (doc_content doc1) (doc_content doc2))%Q.
Proof.
  intros Hhex Hkey Hgroup Hp.
  destruct (find_duplicates_lookup _ _ _ Hgroup) as [_ Hmem].
  apply Hmem, all_entries_elem_of in Hp
    as (i & j & doc1 & doc2 & Hij & Hi & Hj & He).
  exists i, j, doc1, doc2. repeat (split; [done|]).
  unfold pair_entries in He.
  destruct (decide (doc_hash doc1 = doc_hash doc2)).
  - assert (key = doc_hash doc1) as ->.
    { apply elem_of_cons in He as [[= -> _]|He]; [done|].
      by apply list_elem_of_singleton in He as [= -> _]. }
    rewrite Forall_forall in Hhex.
    rewrite (Hhex doc1) in Hkey; [done|]. by apply list_elem_of_lookup_2 with i.
  - destruct (Qlt_le_dec _ _) as [Hlt|]; [|by apply elem_of_nil in He].
    split; [|done].
    apply elem_of_cons in He as [[= -> _]|He]; [done|].
    by apply list_elem_of_singleton in He as [= -> _].
Qed.

Lemma scanned_hash_hex `{PyLib} (input_dir : Path) (fs : gmap Path string) :
  Forall (fun doc => all_hexdigits (doc_hash doc) = true)
    (scan_documents input_dir fs).
Proof.
  apply Forall_forall. intros doc Hdoc. unfold scan_documents in Hdoc.
  apply list_elem_of_fmap in Hdoc as [f [-> _]]. apply md5_hexdigest_hex.
Qed.

(** C4, amended: for two scanned documents with different hashes, the earlier
    one first, a Jaccard similarity above 0.85 groups them under the key made
    of their names; and when no other pair of scanned documents has the same
    key, being grouped under it means that the similarity is above 0.85. *)
Theorem near_duplicates_grouped `{PyLib} (input_dir : Path)
    (fs : gmap Path string) (i j : nat) (doc1 doc2 : Doc) :
  let documents := scan_documents input_dir fs in
  let key := similar_key doc1 doc2 in
  let similar :=
    (threshold < similarity_ratio (doc_content doc1) (doc_content doc2))%Q in
  (i < j)%nat → documents !! i = Some doc1 → documents !! j = Some doc2 →
  doc_hash doc1 ≠ doc_hash doc2 →
  (similar → grouped_under key doc1 doc2 (find_duplicates documents))
  ∧ ((∀ i' j' doc1' doc2',
        (i' < j')%nat → documents !! i' = Some doc1' →
        documents !! j' = Some doc2' → similar_key doc1' doc2' = key →
        i' = i ∧ j' = j) →
     grouped_under key doc1 doc2 (find_duplicates documents) → similar).
Proof.
  intros documents key similar Hij Hi Hj Hhash. split.
  - by apply similar_pair_grouped with i j.
  - intros Honly (group & Hgroup & Hp1 & _).
    destruct (similar_group_origin documents key group (doc_path doc1))
      as (i' & j' & doc1' & doc2' & Hij' & Hi' & Hj' & Hkey & Hsim);
      [apply scanned_hash_hex|apply similar_key_not_hex|done..|].
    destruct (Honly i' j' doc1' doc2') as [-> ->]; [done..|].
    by simplify_eq.
Qed.

(** Whatever the digest, as long as it tells the three texts of [notes_fs]
    apart: the three files of the same name end up in one group, and with
    them the two that are not near-duplicates of each other. *)
Lemma same_name_documents_share_a_group `{PyLib} :
  let documents := scan_documents ["docs"] notes_fs in
  let doc1 := doc_info ["docs"; "plans"; "notes.md"] "a b c d e f h" in
  let doc2 := doc_info ["docs"; "api"; "notes.md"] "a b c d e f g" in
  md5_hexdigest "a b c d e f h" ≠ md5_hexdigest "a b c d e f" →
  md5_hexdigest "a b c d e f" ≠ md5_hexdigest "a b c d e f g" →
  documents !! 0%nat = Some doc1 ∧ documents !! 2%nat = Some doc2
  ∧ grouped_under (similar_key doc1 doc2) doc1 doc2 (find_duplicates documents)
  ∧ ¬ (threshold
       < similarity_ratio (doc_content doc1) (doc_content doc2))%Q.
Proof.
  intros documents doc1 doc2 Hhash12 Hhash23.
  pose (mid := doc_info ["docs"; "guides"; "notes.md"] "a b c d e f").
  assert (Hdocs : documents = [doc1; mid; doc2]) by (vm_compute; reflexivity).
  assert (H0 : documents !! 0%nat = Some doc1)
    by (rewrite Hdocs; reflexivity).
  assert (H1 : documents !! 1%nat = Some mid)
    by (rewrite Hdocs; reflexivity).
  assert (H2 : documents !! 2%nat = Some doc2)
    by (rewrite Hdocs; reflexivity).
  clearbody documents.
  assert (Hsim1 : (threshold < similarity_ratio (doc_content doc1)
                                 (doc_content mid))%Q)
    by (vm_compute; reflexivity).
  assert (Hsim2 : (threshold < similarity_ratio (doc_content mid)
                                 (doc_content doc2))%Q)
    by (vm_compute; reflexivity).
  assert (Hkey1 : similar_key doc1 mid = similar_key doc1 doc2)
    by reflexivity.
  assert (Hkey2 : similar_key mid doc2 = similar_key doc1 doc2)
    by reflexivity.
  split; [exact H0|]. split; [exact H2|]. split.
  - destruct (similar_pair_grouped documents 0 1 doc1 mid)
      as (group & Hgroup & Hp1 & _);
      [lia | exact H0 | exact H1 | exact Hhash12 | exact Hsim1 |].
    destruct (similar_pair_grouped documents 1 2 mid doc2)
      as (group' & Hgroup' & _ & Hp2);
      [lia | exact H1 | exact H2 | exact Hhash23 | exact Hsim2 |].
    rewrite Hkey1 in Hgroup. rewrite Hkey2 in Hgroup'.
    assert (group' = group) as -> by congruence.
    exists group. split; [exact Hgroup|]. split; [exact Hp1 | exact Hp2].
  - vm_compute. discriminate.
Qed.

(** C4, as stated, fails: three files of the same name in three directories,
    the second a near-duplicate of the two others, end up in one group under
    the key built from that name; the first and the third are then grouped
    under their key although their similarity is 6/8. *)
Lemma name_key_groups_dissimilar_pair :
  ¬ (∀ (lib : PyLib) (input_dir : Path) (fs : gmap Path string)
       (i j : nat) (doc1 doc2 : Doc),
        let documents := scan_documents input_dir fs in
        (i < j)%nat → documents !! i = Some doc1 → documents !! j = Some doc2 →
        doc_hash doc1 ≠ doc_hash doc2 →
        (grouped_under (similar_key doc1 doc2) doc1 doc2
           (find_duplicates documents)
         ↔ (threshold
            < similarity_ratio (doc_content doc1) (doc_content doc2))%Q)).
Proof.
  intros Hall.
  destruct (@same_name_documents_share_a_group text_lib)
    as (H0 & H2 & Hgrouped & Hfar); [vm_compute; discriminate..|].
  apply Hfar.
  apply (Hall text_lib ["docs"] notes_fs 0%nat 2%nat _ _);
    [lia | exact H0 | exact H2 | vm_compute; discriminate | exact Hgrouped].
Qed.

Lemma near_duplicates_grouped_witness :
  let documents := @scan_documents text_lib ["docs"] pair_fs in
  let doc1 := @doc_info text_lib ["docs"; "setup.md"] "a b c d e f g" in
  let doc2 := @doc_info text_lib ["docs"; "install.md"] "a b c d e f" in
  documents = [doc1; doc2]
  ∧ doc_hash doc1 ≠ doc_hash doc2
  ∧ (threshold < similarity_ratio (doc_content doc1) (doc_content doc2))%Q
  ∧ grouped_under (similar_key doc1 doc2) doc1 doc2 (find_duplicates documents).
Proof.
  intros documents doc1 doc2.
  assert (Hdocs : documents = [doc1; doc2]) by by vm_compute.
  assert (Hhash : doc_hash doc1 ≠ doc_hash doc2) by by vm_compute.
  assert (Hsim : (threshold < similarity_ratio (doc_content doc1)
                                (doc_content doc2))%Q) by by vm_compute.
  repeat (split; [done|]).
  apply (@near_duplicates_grouped text_lib ["docs"] pair_fs 0 1 doc1 doc2);
    [lia | by vm_compute | by vm_compute | exact Hhash | exact Hsim].
Defined.

(** ** A corpus of three documents with one duplicate pair *)

Lemma one_group_pair (key : string) (path1 path2 : Path) :
  one_group
    (dedup_paths <$> dd_extend key [path2] (dd_extend key [path1] ∅))
    key path1 path2.
Proof.
  exists (dedup_paths [path1; path2]).
  rewrite dd_extend_twice. unfold dd_extend.
  rewrite lookup_empty, insert_empty, map_fmap_singleton. simpl.
  split; [done|]. split; [apply dedup_paths_NoDup|]. intros p.
  by rewrite dedup_paths_elem_of, elem_of_cons, list_elem_of_singleton.
Qed.

Section ThreeDocuments.
Context `{PyLib}.
Variables (shared other : string).
Hypothesis other_hash : md5_hexdigest other ≠ md5_hexdigest shared.
Hypothesis other_far : ¬ (threshold < similarity_ratio other shared)%Q.

Lemma compare_same (path1 path2 : Path)
    (duplicates : gmap string (list Path)) :
  compare_pair (doc_info path1 shared) (doc_info path2 shared) duplicates
  = dd_extend (md5_hexdigest shared) [path2]
      (dd_extend (md5_hexdigest shared) [path1] duplicates).
Proof. unfold compare_pair. simpl. by rewrite decide_True. Qed.

Lemma compare_shared_other (path1 path2 : Path)
    (duplicates : gmap string (list Path)) :
  compare_pair (doc_info path1 shared) (doc_info path2 other) duplicates
  = duplicates.
Proof.
  unfold compare_pair. simpl. rewrite decide_False by done.
  destruct (Qlt_le_dec _ _) as [Hlt|]; [|done].
  by rewrite similarity_ratio_comm in Hlt.
Qed.

Lemma compare_other_shared (path1 path2 : Path)
    (duplicates : gmap string (list Path)) :
  compare_pair (doc_info path1 other) (doc_info path2 shared) duplicates
  = duplicates.
Proof.
  unfold compare_pair. simpl. rewrite decide_False by done.
  by destruct (Qlt_le_dec _ _).
Qed.

End ThreeDocuments.

(** C5: in a corpus of three documents of which two have the same content and
    the third has another hash and is no near-duplicate of them,
    [find_duplicates] returns exactly one group; its key is the hash of the
    shared content and it holds the paths of the two identical documents,
    each once. This holds wherever the third document stands in the corpus. *)
Theorem duplicate_pair_one_group `{PyLib} (path1 path2 path3 : Path)
    (shared other : string) :
  md5_hexdigest other ≠ md5_hexdigest shared →
  ¬ (threshold < similarity_ratio other shared)%Q →
  one_group
    (find_duplicates [doc_info path1 shared; doc_info path2 shared;
                      doc_info path3 other])
    (md5_hexdigest shared) path1 path2
  ∧ one_group
      (find_duplicates [doc_info path1 shared; doc_info path2 other;
                        doc_info path3 shared])
      (md5_hexdigest shared) path1 path3
  ∧ one_group
      (find_duplicates [doc_info path1 other; doc_info path2 shared;
                        doc_info path3 shared])
      (md5_hexdigest shared) path2 path3.
Proof.
  intros Hhash Hfar. unfold find_duplicates. cbn [compare_all foldl].
  rewrite !compare_same, !(compare_shared_other shared other),
    !(compare_other_shared shared other) by done.
  repeat split; apply one_group_pair.
Qed.

Lemma duplicate_pair_one_group_witness :
  one_group
    (find_duplicates
       [@doc_info text_lib ["docs"; "intro.md"] "# Intro";
        @doc_info text_lib ["docs"; "old"; "intro.md"] "# Intro";
        @doc_info text_lib ["docs"; "usage.md"] "# Usage of the tool"])
    (@md5_hexdigest text_lib "# Intro")
    ["docs"; "intro.md"] ["docs"; "old"; "intro.md"].
Proof.
  apply (@duplicate_pair_one_group text_lib
           ["docs"; "intro.md"] ["docs"; "old"; "intro.md"]
           ["docs"; "usage.md"] "# Intro" "# Usage of the tool").
  - by vm_compute.
  - by vm_compute.
Defined.

(** ** Corpus statistics *)

Lemma truediv_is_Some (a b : Z) : b ≠ 0%Z → is_Some (truediv a b).
Proof. intros Hb. unfold truediv. rewrite decide_False by done. by eexists. Qed.

Lemma average_quality_is_Some (quality_scores : gmap string Z) :
  is_Some (average_quality quality_scores).
Proof.
  unfold average_quality.
  destruct (decide (quality_scores ≠ ∅)) as [Hne|]; [|by eexists].
  apply truediv_is_Some. intros Hsize. apply Hne, map_size_empty_iff. lia.
Qed.

(** C8, as stated, fails: on the empty corpus [analyze_patterns] returns, it
    does not raise. *)
Lemma empty_corpus_does_not_raise : analyze_patterns [] ≠ None.
Proof. by vm_compute. Qed.

(** C8, amended: the division is guarded. On an empty corpus the average
    quality is 0 and no division takes place; on every corpus
    [analyze_patterns] returns without a division by zero. *)
Theorem average_quality_guarded :
  pat_average_quality <$> analyze_patterns [] = Some 0%Q
  ∧ ∀ documents, is_Some (analyze_patterns documents).
Proof.
  split; [reflexivity|]. intros documents. unfold analyze_patterns.
  destruct (average_quality_is_Some (quality_scores_of documents)) as [avg ->].
  by eexists.
Qed.

(** ** Scanning *)

Lemma scan_documents_elem_of `{PyLib} (input_dir : Path)
    (fs : gmap Path string) (doc : Doc) :
  doc ∈ scan_documents input_dir fs ↔
  ∃ file_path content,
    doc = doc_info file_path content ∧ fs !! file_path = Some content
    ∧ below input_dir file_path
    ∧ Str.endswith ".md" (path_name file_path) = true
    ∧ ¬ skipped input_dir file_path.
Proof.
  unfold scan_documents, rglob_md. rewrite list_elem_of_fmap. split.
  - intros ([file_path content] & -> & Hf).
    apply list_elem_of_filter in Hf as [Hskip Hf].
    apply list_elem_of_filter in Hf as [[Hbelow Hmd] Hf].
    apply elem_of_map_to_list in Hf. by exists file_path, content.
  - intros (file_path & content & -> & Hfs & Hbelow & Hmd & Hskip).
    exists (file_path, content). split; [done|].
    apply list_elem_of_filter. split; [done|].
    apply list_elem_of_filter. split; [done|].
    by apply elem_of_map_to_list.
Qed.

Lemma README_in_input_dir_below (input_dir file_path : Path) :
  path_name file_path = "README.md" → path_parent file_path = input_dir →
  below input_dir file_path.
Proof.
  unfold path_name, path_parent, below.
  destruct file_path as [|name dir _] using rev_ind; [done|].
  rewrite last_last, removelast_last. intros -> <-. split.
  - by exists ["README.md"].
  - intros Heq. apply (f_equal length) in Heq.
    rewrite length_app in Heq. simpl in Heq. lia.
Qed.

(** Every path in a group of duplicates is the path of a document. *)
Lemma find_duplicates_paths (documents : list Doc) (key : string)
    (group : list Path) (p : Path) :
  find_duplicates documents !! key = Some group → p ∈ group →
  ∃ doc, doc ∈ documents ∧ doc_path doc = p.
Proof.
  intros Hgroup Hp.
  destruct (find_duplicates_lookup _ _ _ Hgroup) as [_ Hmem].
  apply Hmem, all_entries_elem_of in Hp
    as (i & j & doc1 & doc2 & _ & Hi & Hj & He).
  apply list_elem_of_lookup_2 in Hi, Hj. unfold pair_entries in He.
  destruct (decide _); [|destruct (Qlt_le_dec _ _); [|by apply elem_of_nil in He]];
    (apply elem_of_cons in He as [[= _ ->]|He]; [by exists doc1|];
     apply list_elem_of_singleton in He as [= _ ->]; by exists doc2).
Qed.

(** C10: a file named README.md whose parent is not the input directory gets
    no document record, and so appears in no group of duplicates; a README.md
    directly in the input directory is scanned like any other file. *)
Theorem nested_README_skipped `{PyLib} (input_dir : Path)
    (fs : gmap Path string) (file_path : Path) :
  path_name file_path = "README.md" →
  (path_parent file_path ≠ input_dir →
   (∀ doc, doc ∈ scan_documents input_dir fs → doc_path doc ≠ file_path)
   ∧ (∀ key group, find_duplicates (scan_documents input_dir fs) !! key
                   = Some group → file_path ∉ group))
  ∧ (path_parent file_path = input_dir →
     ∀ content, fs !! file_path = Some content →
                doc_info file_path content ∈ scan_documents input_dir fs).
Proof.
  intros Hname. split.
  - intros Hparent.
    assert (Hnone : ∀ doc, doc ∈ scan_documents input_dir fs →
                           doc_path doc ≠ file_path).
    { intros doc (p & content & -> & _ & _ & _ & Hskip)%scan_documents_elem_of.
      simpl. intros ->. by apply Hskip. }
    split; [done|]. intros key group Hgroup Hin.
    destruct (find_duplicates_paths _ _ _ _ Hgroup Hin) as (doc & Hdoc & Hp).
    by apply (Hnone doc).
  - intros Hparent content Hfs. apply scan_documents_elem_of.
    exists file_path, content. repeat split; try done.
    + by apply README_in_input_dir_below.
    + apply README_in_input_dir_below; done.
    + by rewrite Hname.
    + by intros [? _].
Qed.

Lemma nested_README_skipped_witness :
  path_name ["docs"; "api"; "README.md"] = "README.md"
  ∧ path_parent ["docs"; "api"; "README.md"] ≠ ["docs"]
  ∧ (∀ doc, doc ∈ @scan_documents text_lib ["docs"] readme_fs →
            doc_path doc ≠ ["docs"; "api"; "README.md"])
  ∧ @doc_info text_lib ["docs"; "README.md"] "# Project"
      ∈ @scan_documents text_lib ["docs"] readme_fs.
Proof.
  assert (Hnested : path_parent ["docs"; "api"; "README.md"] ≠ ["docs"])
    by by vm_compute.
  split; [reflexivity|]. split; [exact Hnested|]. split.
  - destruct (@nested_README_skipped text_lib ["docs"] readme_fs
                ["docs"; "api"; "README.md"] eq_refl) as [Hskip _].
    by destruct (Hskip Hnested) as [Hnone _].
  - destruct (@nested_README_skipped text_lib ["docs"] readme_fs
                ["docs"; "README.md"] eq_refl) as [_ Hscan].
    apply Hscan; by vm_compute.
Defined.

(** ** Reorganization *)

Lemma target_path_below (output_dir : Path) (doc : Doc) :
  output_dir `prefix_of` target_path output_dir doc.
Proof. unfold target_path, path_join. by eexists. Qed.

Lemma copy2_Some (src dst : Path) (fs : gmap Path string) (content : string) :
  src ≠ dst → fs !! src = Some content →
  copy2 src dst fs = Some (<[dst := content]> fs).
Proof. intros Hne Hsrc. unfold copy2. by rewrite decide_False, Hsrc. Qed.

Section Loop.
Variable output_dir : Path.

Lemma reorganize_one_Some (doc : Doc) (st : Reorg) :
  reorg_fs st !! doc_path doc = Some (doc_content doc) →
  ¬ output_dir `prefix_of` doc_path doc →
  ∃ st', reorganize_one output_dir doc st = Some st'
         ∧ reorg_fs st'
           = <[target_path output_dir doc := doc_content doc]> (reorg_fs st).
Proof.
  intros Hsrc Hout. unfold reorganize_one.
  rewrite (copy2_Some _ _ _ (doc_content doc)); [by eexists|..|done].
  intros Heq. apply Hout. rewrite Heq. apply target_path_below.
Qed.

(** The loop returns; it writes the targets and nothing else; and each
    target ends up holding the content of a document sent to it. *)
Lemma reorganize_loop_spec (documents : list Doc) (st : Reorg) :
  sources_ok output_dir documents (reorg_fs st) →
  ∃ st',
    reorganize_loop output_dir documents st = Some st'
    ∧ (∀ p, p ∉ target_path output_dir <$> documents →
            reorg_fs st' !! p = reorg_fs st !! p)
    ∧ (∀ doc, doc ∈ documents →
         ∃ doc', doc' ∈ documents
                 ∧ target_path output_dir doc' = target_path output_dir doc
                 ∧ reorg_fs st' !! target_path output_dir doc
                   = Some (doc_content doc')).
Proof.
  revert st. induction documents as [|doc rest IH]; intros st Hok.
  - exists st. split; [done|]. split; [done|]. by intros doc ?%elem_of_nil.
  - destruct (Hok doc) as [Hsrc Hout]; [by left|].
    destruct (reorganize_one_Some doc st Hsrc Hout) as (st1 & Hone & Hfs1).
    destruct (IH st1) as (st' & Hloop & Hframe & Htargets).
    { intros doc' Hdoc'. destruct (Hok doc') as [Hsrc' Hout']; [by right|].
      split; [|done]. rewrite Hfs1, lookup_insert_ne; [done|].
      intros Heq. apply Hout'. rewrite <- Heq. apply target_path_below. }
    exists st'. split; [by simpl; rewrite Hone|]. split.
    + intros p Hp. rewrite fmap_cons, not_elem_of_cons in Hp.
      destruct Hp as [Hne Hp]. rewrite Hframe, Hfs1 by done.
      by rewrite lookup_insert_ne.
    + intros doc0 [->|Hdoc0]%elem_of_cons.
      * destruct (decide (target_path output_dir doc
                          ∈ target_path output_dir <$> rest)) as [Hin|Hnin].
        -- apply list_elem_of_fmap in Hin as (doc2 & Heq & Hdoc2).
           destruct (Htargets doc2 Hdoc2) as (doc' & Hdoc' & Htarget & Hlook).
           exists doc'. split; [by right|]. by rewrite Heq.
        -- exists doc. split; [by left|]. split; [done|].
           by rewrite Hframe, Hfs1, lookup_insert_eq.
      * destruct (Htargets doc0 Hdoc0) as (doc' & Hdoc' & Htarget & Hlook).
        exists doc'. split; [by right|]. done.
Qed.

End Loop.

Lemma apart_no_common_path (dir1 dir2 p : Path) :
  apart dir1 dir2 → dir1 `prefix_of` p → ¬ dir2 `prefix_of` p.
Proof.
  intros [H12 H21] H1 H2.
  destruct (prefix_weak_total dir1 dir2 p H1 H2); done.
Qed.

(** [reorganize_documents] returns, and it writes below the output and the
    analysis directories only. *)
Lemma reorganize_documents_spec `{PyLib} (output_dir analysis_dir : Path)
    (documents : list Doc) (content_map : gmap string string)
    (fs : gmap Path string) :
  apart output_dir analysis_dir →
  sources_ok output_dir documents fs →
  ∃ st,
    reorganize_documents output_dir analysis_dir documents content_map fs
      = Some st
    ∧ (∀ p, ¬ output_dir `prefix_of` p → ¬ analysis_dir `prefix_of` p →
            reorg_fs st !! p = fs !! p)
    ∧ (∀ doc, doc ∈ documents →
         ∃ doc', doc' ∈ documents
                 ∧ target_path output_dir doc' = target_path output_dir doc
                 ∧ reorg_fs st !! target_path output_dir doc
                   = Some (doc_content doc')).
Proof.
  intros Hapart Hok. unfold reorganize_documents.
  destruct (reorganize_loop_spec output_dir documents
              {| reorg_fs := fs; reorg_content_map := content_map;
                 reorg_rename_map := ∅ |} Hok)
    as (st' & -> & Hframe & Htargets).
  eexists. split; [reflexivity|]. simpl in *. unfold write_file.
  assert (Hjson : ∀ p name, ¬ analysis_dir `prefix_of` p →
                            analysis_dir ++ [name] ≠ p).
  { intros p name Hp <-. apply Hp. by eexists. }
  split.
  - intros p Hout Han. rewrite !lookup_insert_ne by by apply Hjson.
    apply Hframe. intros (doc & -> & _)%list_elem_of_fmap.
    apply Hout, target_path_below.
  - intros doc Hdoc.
    destruct (Htargets doc Hdoc) as (doc' & Hdoc' & Htarget & Hlook).
    exists doc'. split; [done|]. split; [done|].
    rewrite !lookup_insert_ne; [done|apply Hjson..];
      apply (apart_no_common_path output_dir); auto using target_path_below.
Qed.

Lemma configured_apart :
  apart INPUT_DIR OUTPUT_DIR ∧ apart INPUT_DIR ANALYSIS_DIR
  ∧ apart OUTPUT_DIR ANALYSIS_DIR.
Proof.
  repeat split; intros [rest Heq]; by simplify_eq/=.
Qed.

Lemma scanned_sources_ok `{PyLib} (input_dir output_dir : Path)
    (fs : gmap Path string) :
  apart input_dir output_dir →
  sources_ok output_dir (scan_documents input_dir fs) fs.
Proof.
  intros Hapart doc
    (p & content & -> & Hfs & [Hbelow _] & _)%scan_documents_elem_of.
  split; [done|]. by apply (apart_no_common_path input_dir).
Qed.

(** C9: with the directories of the module, [reorganize_documents] returns;
    every file below the input directory is afterwards what it was before,
    in existence and in content; and every scanned document, still in place,
    has a copy at its target below the output directory (the content of the
    document last sent to that target). *)
Theorem reorganize_keeps_input `{PyLib} (fs : gmap Path string)
    (content_map : gmap string string) :
  let documents := scan_documents INPUT_DIR fs in
  ∃ st,
    reorganize_documents OUTPUT_DIR ANALYSIS_DIR documents content_map fs
      = Some st
    ∧ (∀ p, INPUT_DIR `prefix_of` p → reorg_fs st !! p = fs !! p)
    ∧ (∀ doc, doc ∈ documents →
         INPUT_DIR `prefix_of` doc_path doc
         ∧ reorg_fs st !! doc_path doc = Some (doc_content doc)
         ∧ OUTPUT_DIR `prefix_of` target_path OUTPUT_DIR doc
         ∧ ∃ doc', doc' ∈ documents
                   ∧ target_path OUTPUT_DIR doc' = target_path OUTPUT_DIR doc
                   ∧ reorg_fs st !! target_path OUTPUT_DIR doc
                     = Some (doc_content doc')).
Proof.
  intros documents.
  destruct configured_apart as (Hio & Hia & Hoa).
  destruct (reorganize_documents_spec OUTPUT_DIR ANALYSIS_DIR documents
              content_map fs Hoa (scanned_sources_ok _ _ fs Hio))
    as (st & Hst & Hframe & Htargets).
  assert (Hinput : ∀ p, INPUT_DIR `prefix_of` p → reorg_fs st !! p = fs !! p).
  { intros p Hp.
    apply Hframe; by apply (apart_no_common_path INPUT_DIR). }
  exists st. split; [done|]. split; [done|]. intros doc Hdoc.
  pose proof Hdoc as
    (p & content & -> & Hfs & [Hbelow _] & _)%scan_documents_elem_of.
  split; [done|]. split; [by rewrite Hinput|].
  split; [apply target_path_below|]. by apply Htargets.
Qed.

(** ** More on the similarity ratio *)

Lemma similarity_ratio_unfold (text1 text2 : string) :
  token_set text1 ∪ token_set text2 ≠ ∅ →
  similarity_ratio text1 text2
  = (Z.of_nat (size (token_set text1 ∩ token_set text2))
     # Pos.of_nat (size (token_set text1 ∪ token_set text2)))%Q.
Proof. intros Hne. unfold similarity_ratio. by rewrite decide_False. Qed.

Lemma similarity_ratio_empty (text1 text2 : string) :
  token_set text1 ∪ token_set text2 = ∅ → similarity_ratio text1 text2 = 0%Q.
Proof. intros He. unfold similarity_ratio. by rewrite decide_True. Qed.

Lemma union_size_pos (X Y : gset string) : X ∪ Y ≠ ∅ → (0 < size (X ∪ Y))%nat.
Proof.
  intros Hne. destruct (size (X ∪ Y)) eqn:Hs; [|lia].
  apply size_empty_iff in Hs. by apply leibniz_equiv in Hs.
Qed.

Lemma inter_size_le_union (X Y : gset string) :
  (size (X ∩ Y) ≤ size (X ∪ Y))%nat.
Proof.
  apply subseteq_size. intros x [Hx _]%elem_of_intersection.
  by apply elem_of_union_l.
Qed.

Lemma pos_of_nat_Z (n : nat) : (0 < n)%nat → Z.pos (Pos.of_nat n) = Z.of_nat n.
Proof. intros Hn. rewrite <- positive_nat_Z, Nat2Pos.id; lia. Qed.

(** X1: the similarity of two texts does not depend on their order and lies
    between 0 and 1. *)
Theorem similarity_ratio_symmetric_bounded (text1 text2 : string) :
  similarity_ratio text1 text2 = similarity_ratio text2 text1
  ∧ (0 <= similarity_ratio text1 text2 <= 1)%Q.
Proof.
  split; [apply similarity_ratio_comm|].
  destruct (decide (token_set text1 ∪ token_set text2 = ∅)) as [He|Hne].
  - rewrite similarity_ratio_empty by done. split; done.
  - rewrite similarity_ratio_unfold by done.
    pose proof (union_size_pos _ _ Hne) as Hpos.
    pose proof (inter_size_le_union (token_set text1) (token_set text2)).
    unfold Qle. cbn [Qnum Qden]. rewrite (pos_of_nat_Z _ Hpos). lia.
Qed.

(** X2: the similarity is 1 exactly when the two texts have the same tokens
    and at least one, and 0 exactly when they share no token. *)
Theorem similarity_ratio_extremes (text1 text2 : string) :
  ((similarity_ratio text1 text2 == 1)%Q
   ↔ token_set text1 = token_set text2 ∧ token_set text1 ≠ ∅)
  ∧ ((similarity_ratio text1 text2 == 0)%Q
     ↔ token_set text1 ∩ token_set text2 = ∅).
Proof.
  destruct (decide (token_set text1 ∪ token_set text2 = ∅)) as [He|Hne].
  - rewrite similarity_ratio_empty by done.
    apply empty_union_L in He as [He1 He2]. rewrite He1, He2. split.
    + split; [done|]. by intros [_ ?].
    + split; [intros _|done]. apply intersection_empty_l_L.
  - rewrite similarity_ratio_unfold by done.
    pose proof (union_size_pos _ _ Hne) as Hpos.
    pose proof (inter_size_le_union (token_set text1) (token_set text2)) as Hle.
    unfold Qeq. cbn [Qnum Qden]. rewrite (pos_of_nat_Z _ Hpos). split.
    + split.
      * intros Hsize.
        assert (Heq : token_set text1 ∩ token_set text2
                      = token_set text1 ∪ token_set text2).
        { apply set_subseteq_size_eq; [|lia].
          intros x [Hx _]%elem_of_intersection. by apply elem_of_union_l. }
        assert (H12 : token_set text1 = token_set text2).
        { apply set_eq. intros x. split; intros Hx.
          - assert (x ∈ token_set text1 ∩ token_set text2) as Hin
              by (rewrite Heq; by apply elem_of_union_l).
            by apply elem_of_intersection in Hin as [_ ?].
          - assert (x ∈ token_set text1 ∩ token_set text2) as Hin
              by (rewrite Heq; by apply elem_of_union_r).
            by apply elem_of_intersection in Hin as [? _]. }
        split; [done|]. intros He. apply Hne. rewrite <- H12, He.
        apply union_empty_l_L.
      * intros [H12 _]. rewrite <- H12.
        assert (token_set text1 ∩ token_set text1 = token_set text1) as ->
          by apply intersection_idemp_L.
        assert (token_set text1 ∪ token_set text1 = token_set text1) as ->
          by apply union_idemp_L.
        lia.
    + split.
      * intros Hsize. apply leibniz_equiv, size_empty_iff. lia.
      * intros ->. rewrite size_empty. lia.
Qed.

(** ** More on duplicate detection *)

Lemma pair_entries_same_hash (doc1 doc2 : Doc) :
  doc_hash doc1 = doc_hash doc2 →
  pair_entries doc1 doc2
  = [(doc_hash doc1, doc_path doc1); (doc_hash doc1, doc_path doc2)].
Proof. intros Hh. unfold pair_entries. by rewrite decide_True. Qed.

(** What an entry says about the pair it comes from. *)
Lemma pair_entries_elem_of (doc1 doc2 : Doc) (key : string) (p : Path) :
  (key, p) ∈ pair_entries doc1 doc2 ↔
  (p = doc_path doc1 ∨ p = doc_path doc2)
  ∧ ((doc_hash doc1 = doc_hash doc2 ∧ key = doc_hash doc1)
     ∨ (doc_hash doc1 ≠ doc_hash doc2
        ∧ (threshold < similarity_ratio (doc_content doc1)
                         (doc_content doc2))%Q
        ∧ key = similar_key doc1 doc2)).
Proof.
  unfold pair_entries.
  destruct (decide (doc_hash doc1 = doc_hash doc2)) as [Hh|Hh].
  - rewrite elem_of_cons, list_elem_of_singleton. split.
    + intros [[= -> ->]|[= -> ->]]; split; auto.
    + intros [[-> | ->] [[_ ->]|[? _]]]; auto; done.
  - destruct (Qlt_le_dec _ _) as [Hlt|Hle].
    + rewrite elem_of_cons, list_elem_of_singleton. split.
      * intros [[= -> ->]|[= -> ->]]; split; auto.
      * intros [[-> | ->] [[? _]|(_ & _ & ->)]]; auto; done.
    + split; [by intros ?%elem_of_nil|].
      intros [_ [[? _]|(_ & Hlt & _)]]; [done|]. by apply Qle_not_lt in Hle.
Qed.

Lemma grouped_from_entries (documents : list Doc) (key : string)
    (doc1 doc2 : Doc) :
  (key, doc_path doc1) ∈ all_entries documents →
  (key, doc_path doc2) ∈ all_entries documents →
  grouped_under key doc1 doc2 (find_duplicates documents).
Proof.
  intros He1 He2.
  destruct (find_duplicates_is_Some documents key) as [_ [group Hgroup]];
    [by eexists|].
  exists group. split; [done|].
  destruct (find_duplicates_lookup _ _ _ Hgroup) as [_ Hmem].
  split; by apply Hmem.
Qed.

(** X3: in any corpus, two documents with the same hash are grouped under
    that hash. *)
Theorem exact_duplicates_grouped (documents : list Doc) (i j : nat)
    (doc1 doc2 : Doc) :
  (i < j)%nat → documents !! i = Some doc1 → documents !! j = Some doc2 →
  doc_hash doc1 = doc_hash doc2 →
  grouped_under (doc_hash doc1) doc1 doc2 (find_duplicates documents).
Proof.
  intros Hij Hi Hj Hh.
  apply grouped_from_entries; apply all_entries_elem_of;
    exists i, j, doc1, doc2; (repeat split; [done..|]);
    apply pair_entries_elem_of; auto.
Qed.

Lemma exact_duplicates_grouped_witness :
  let doc1 := @doc_info text_lib ["docs"; "a.md"] "same text" in
  let doc2 := @doc_info text_lib ["docs"; "b.md"] "other" in
  let doc3 := @doc_info text_lib ["docs"; "c.md"] "same text" in
  grouped_under (doc_hash doc1) doc1 doc3 (find_duplicates [doc1; doc2; doc3]).
Proof.
  intros doc1 doc2 doc3.
  apply (exact_duplicates_grouped [doc1; doc2; doc3] 0 2 doc1 doc3);
    [lia | reflexivity | reflexivity | reflexivity].
Defined.

(** X4: [find_duplicates] returns the empty map exactly when no two documents
    have the same hash or a similarity above 0.85. *)
Theorem find_duplicates_empty_iff (documents : list Doc) :
  find_duplicates documents = ∅ ↔
  ∀ i j doc1 doc2,
    (i < j)%nat → documents !! i = Some doc1 → documents !! j = Some doc2 →
    doc_hash doc1 ≠ doc_hash doc2
    ∧ ¬ (threshold
         < similarity_ratio (doc_content doc1) (doc_content doc2))%Q.
Proof.
  split.
  - intros Hempty i j doc1 doc2 Hij Hi Hj.
    assert (Hnone : ∀ key, ¬ (key, doc_path doc1) ∈ pair_entries doc1 doc2).
    { intros key He.
      destruct (find_duplicates_is_Some documents key) as [_ [g Hg]].
      - exists (doc_path doc1). apply all_entries_elem_of.
        by exists i, j, doc1, doc2.
      - by rewrite Hempty, lookup_empty in Hg. }
    split.
    + intros Hh. apply (Hnone (doc_hash doc1)), pair_entries_elem_of. auto.
    + intros Hlt. destruct (decide (doc_hash doc1 = doc_hash doc2)) as [Hh|Hh].
      * apply (Hnone (doc_hash doc1)), pair_entries_elem_of. auto.
      * apply (Hnone (similar_key doc1 doc2)), pair_entries_elem_of. auto.
  - intros Hnone. apply map_eq. intros key. rewrite lookup_empty.
    apply eq_None_not_Some. intros [p Hp]%find_duplicates_is_Some.
    apply all_entries_elem_of in Hp as (i & j & doc1 & doc2 & Hij & Hi & Hj & He).
    destruct (Hnone i j doc1 doc2 Hij Hi Hj) as [Hh Hfar].
    apply pair_entries_elem_of in He as [_ [[? _]|(_ & ? & _)]]; done.
Qed.

(** ** More on scanning *)

Lemma scan_documents_paths `{PyLib} (input_dir : Path) (fs : gmap Path string) :
  doc_path <$> scan_documents input_dir fs
  = (filter (fun f => ¬ skipped input_dir f.1) (rglob_md input_dir fs)).*1.
Proof.
  unfold scan_documents. rewrite <- list_fmap_compose. by apply list_fmap_ext.
Qed.

Lemma NoDup_fst_filter {A B} (P : A * B → Prop) `{∀ x, Decision (P x)}
    (l : list (A * B)) :
  NoDup l.*1 → NoDup (filter P l).*1.
Proof.
  induction l as [|[a b] l IH]; [done|]. rewrite fmap_cons, NoDup_cons.
  intros [Hnotin Hnodup]. rewrite filter_cons. case_decide; [|auto].
  rewrite fmap_cons. apply NoDup_cons. split; [|auto]. simpl in *.
  intros Hin. apply Hnotin.
  apply list_elem_of_fmap in Hin as ([a' b'] & -> & Hin).
  apply list_elem_of_filter in Hin as [_ Hin].
  apply list_elem_of_fmap. by exists (a', b').
Qed.

Lemma scan_documents_NoDup `{PyLib} (input_dir : Path)
    (fs : gmap Path string) :
  NoDup (doc_path <$> scan_documents input_dir fs).
Proof.
  rewrite scan_documents_paths. unfold rglob_md.
  do 2 apply NoDup_fst_filter. apply NoDup_fst_map_to_list.
Qed.


(** ** Groups of scanned documents *)

(** Two positions of a list without repetition hold different values. *)
Lemma NoDup_fmap_lookup_ne {A B} (f : A → B) (l : list A) (i j : nat) (x y : A) :
  NoDup (f <$> l) → i ≠ j → l !! i = Some x → l !! j = Some y → f x ≠ f y.
Proof.
  intros Hnd Hij Hi Hj Heq. apply Hij.
  apply (NoDup_lookup (f <$> l) i j (f x)); [done|..];
    rewrite list_lookup_fmap; [by rewrite Hi|by rewrite Hj, Heq].
Qed.

(** X6: every group that [find_duplicates] returns for a scanned corpus is
    free of repetition, holds at least two paths, and holds only paths of
    scanned documents. *)
Theorem duplicate_groups_shape `{PyLib} (input_dir : Path)
    (fs : gmap Path string) (key : string) (group : list Path) :
  find_duplicates (scan_documents input_dir fs) !! key = Some group →
  NoDup group ∧ (2 ≤ length group)%nat
  ∧ ∀ p, p ∈ group →
         ∃ doc, doc ∈ scan_documents input_dir fs ∧ doc_path doc = p.
Proof.
  intros Hgroup.
  destruct (find_duplicates_lookup _ _ _ Hgroup) as [Hnd Hmem].
  split; [done|].
  split; [|intros p Hp; by apply (find_duplicates_paths _ _ _ _ Hgroup)].
  destruct (find_duplicates_is_Some (scan_documents input_dir fs) key)
    as [[p Hp] _]; [by eexists|].
  apply all_entries_elem_of in Hp
    as (i & j & doc1 & doc2 & Hij & Hi & Hj & He).
  apply pair_entries_elem_of in He as [_ Hkey].
  assert (Hin : ∀ q, q = doc_path doc1 ∨ q = doc_path doc2 → q ∈ group).
  { intros q Hq. apply Hmem, all_entries_elem_of.
    exists i, j, doc1, doc2. repeat (split; [done|]).
    by apply pair_entries_elem_of. }
  assert (Hne : doc_path doc1 ≠ doc_path doc2).
  { apply (NoDup_fmap_lookup_ne doc_path (scan_documents input_dir fs) i j);
      [apply scan_documents_NoDup|lia|done..]. }
  assert (Hsub : [doc_path doc1; doc_path doc2] ⊆ group).
  { intros q Hq. apply Hin.
    apply elem_of_cons in Hq as [->|Hq]; [auto|].
    apply list_elem_of_singleton in Hq as ->. auto. }
  apply (submseteq_length [doc_path doc1; doc_path doc2] group).
  apply NoDup_submseteq; [|done].
  apply NoDup_cons. split; [by rewrite list_elem_of_singleton|].
  apply NoDup_singleton.
Qed.

Lemma duplicate_groups_shape_witness :
  ∃ group,
    find_duplicates (@scan_documents text_lib ["docs"] dup_fs)
      !! @md5_hexdigest text_lib "same text" = Some group
    ∧ NoDup group ∧ (2 ≤ length group)%nat.
Proof.
  exists (default [] (find_duplicates (@scan_documents text_lib ["docs"] dup_fs)
                        !! @md5_hexdigest text_lib "same text")).
  assert (Hgroup :
    find_duplicates (@scan_documents text_lib ["docs"] dup_fs)
      !! @md5_hexdigest text_lib "same text"
    = Some (default [] (find_duplicates
                          (@scan_documents text_lib ["docs"] dup_fs)
                          !! @md5_hexdigest text_lib "same text")))
    by (vm_compute; reflexivity).
  split; [exact Hgroup|].
  destruct (@duplicate_groups_shape text_lib ["docs"] dup_fs _ _ Hgroup)
    as (Hnd & Hlen & _).
  split; [exact Hnd | exact Hlen].
Defined.

(** X7: in a scanned corpus, the group under the hash of a document, when
    there is one, holds exactly the paths of the documents with that hash;
    and there is one exactly when two documents have that hash. *)
Theorem hash_group_members `{PyLib} (input_dir : Path)
    (fs : gmap Path string) (doc : Doc) :
  let documents := scan_documents input_dir fs in
  doc ∈ documents →
  (is_Some (find_duplicates documents !! doc_hash doc) ↔
   ∃ i j doc1 doc2,
     (i < j)%nat ∧ documents !! i = Some doc1 ∧ documents !! j = Some doc2
     ∧ doc_hash doc1 = doc_hash doc ∧ doc_hash doc2 = doc_hash doc)
  ∧ ∀ group,
      find_duplicates documents !! doc_hash doc = Some group →
      ∀ p, p ∈ group ↔
           ∃ d, d ∈ documents ∧ doc_hash d = doc_hash doc ∧ doc_path d = p.
Proof.
  intros documents Hdoc.
  assert (Hhex : all_hexdigits (doc_hash doc) = true).
  { pose proof (scanned_hash_hex input_dir fs) as Hall.
    rewrite Forall_forall in Hall. by apply Hall. }
  assert (Hentry : ∀ p, (doc_hash doc, p) ∈ all_entries documents ↔
    ∃ i j doc1 doc2,
      (i < j)%nat ∧ documents !! i = Some doc1 ∧ documents !! j = Some doc2
      ∧ doc_hash doc1 = doc_hash doc ∧ doc_hash doc2 = doc_hash doc
      ∧ (p = doc_path doc1 ∨ p = doc_path doc2)).
  { intros p. rewrite all_entries_elem_of. split.
    - intros (i & j & doc1 & doc2 & Hij & Hi & Hj & He).
      apply pair_entries_elem_of in He as [Hp [[Hh Hk]|(_ & _ & Hk)]].
      + exists i, j, doc1, doc2. split_and!; first [done | congruence].
      + by rewrite Hk, similar_key_not_hex in Hhex.
    - intros (i & j & doc1 & doc2 & Hij & Hi & Hj & Hh1 & Hh2 & Hp).
      exists i, j, doc1, doc2. repeat (split; [done|]).
      apply pair_entries_elem_of. split; [done|]. left. split; congruence. }
  clearbody documents. split.
  - rewrite find_duplicates_is_Some. split.
    + intros [p (i & j & doc1 & doc2 & Hij & Hi & Hj & Hh1 & Hh2 & _)%Hentry].
      by exists i, j, doc1, doc2.
    + intros (i & j & doc1 & doc2 & Hij & Hi & Hj & Hh1 & Hh2).
      exists (doc_path doc1). apply Hentry. exists i, j, doc1, doc2. auto 10.
  - intros group Hgroup p.
    destruct (find_duplicates_lookup _ _ _ Hgroup) as [_ Hmem].
    rewrite Hmem, Hentry. split.
    + intros (i & j & doc1 & doc2 & Hij & Hi & Hj & Hh1 & Hh2 & [-> | ->]).
      * exists doc1. split; [by apply list_elem_of_lookup_2 with i|done].
      * exists doc2. split; [by apply list_elem_of_lookup_2 with j|done].
    + intros (d & [k Hk]%list_elem_of_lookup & Hhd & <-).
      destruct (find_duplicates_is_Some documents (doc_hash doc))
        as [[q Hq] _]; [by eexists|].
      apply Hentry in Hq as (i & j & doc1 & doc2 & Hij & Hi & Hj & Hh1 & Hh2 & _).
      destruct (decide (k = i)) as [->|Hki].
      * exists i, j, doc1, doc2. repeat (split; [done|]). left. congruence.
      * destruct (decide (k < i)%nat).
        -- exists k, i, d, doc1. repeat (split; [done|]). auto.
        -- exists i, k, doc1, d. repeat (split; [try done; lia|]). auto.
Qed.

Lemma hash_group_members_witness :
  let documents := @scan_documents text_lib ["docs"] dup_fs in
  let doc := @doc_info text_lib ["docs"; "a.md"] "same text" in
  doc ∈ documents
  ∧ ∀ group,
      find_duplicates documents !! doc_hash doc = Some group →
      ∀ p, p ∈ group ↔
           ∃ d, d ∈ documents ∧ doc_hash d = doc_hash doc ∧ doc_path d = p.
Proof.
  intros documents doc.
  assert (Hdoc : doc ∈ documents).
  { apply list_elem_of_lookup_2 with 2%nat. vm_compute. reflexivity. }
  split; [exact Hdoc|].
  apply (@hash_group_members text_lib ["docs"] dup_fs doc Hdoc).
Defined.

(** ** The shape of a normalized name *)





(** ** The values of the quality score *)

(** X9: the quality score is a multiple of 5 between 40 and 100, and it is
    100 exactly when no deduction applies. *)
Theorem assess_quality_values (content filename : string) :
  (40 ≤ assess_quality content filename ≤ 100)%Z
  ∧ (assess_quality content filename mod 5 = 0)%Z
  ∧ (assess_quality content filename = 100%Z ↔
     has_marker content = false ∧ has_profanity content = false
     ∧ too_short content = false ∧ no_top_header content = false
     ∧ poor_name filename = false).
Proof.
  rewrite assess_quality_sum. unfold deduction.
  destruct (has_marker content), (has_profanity content),
    (too_short content), (no_top_header content), (poor_name filename);
    (split; [lia|]); (split; [reflexivity|]);
    (split; [try discriminate; auto 10 | try reflexivity; intros (?&?&?&?&?); discriminate]).
Qed.

(** ** The maps that the reorganization records *)

Lemma reorganize_one_maps (output_dir : Path) (doc : Doc) (st st' : Reorg) :
  reorganize_one output_dir doc st = Some st' →
  reorg_content_map st'
    = <[path_str (doc_path doc) := path_str (target_path output_dir doc)]>
        (reorg_content_map st)
  ∧ reorg_rename_map st'
    = if decide (doc_name doc ≠ clean_filename (doc_name doc))
      then <[doc_name doc := clean_filename (doc_name doc)]> (reorg_rename_map st)
      else reorg_rename_map st.
Proof.
  unfold reorganize_one, generate_clean_filename.
  destruct (copy2 _ _ _); [|done]. simpl. by intros [= <-].
Qed.

Lemma reorganize_loop_rename_map (output_dir : Path) (documents : list Doc)
    (st st' : Reorg) (name : string) :
  reorganize_loop output_dir documents st = Some st' →
  reorg_rename_map st' !! name
  = if decide (name ∈ doc_name <$> documents ∧ name ≠ clean_filename name)
    then Some (clean_filename name)
    else reorg_rename_map st !! name.
Proof.
  revert st. induction documents as [|doc rest IH]; intros st Hloop.
  - injection Hloop as <-. rewrite decide_False; [done|].
    by intros [?%elem_of_nil _].
  - simpl in Hloop.
    destruct (reorganize_one output_dir doc st) as [st1|] eqn:Hone; [|done].
    simpl in Hloop. rewrite (IH st1 Hloop).
    apply reorganize_one_maps in Hone as [_ Hrename]. rewrite Hrename.
    rewrite fmap_cons.
    destruct (decide (name ∈ doc_name <$> rest ∧ name ≠ clean_filename name))
      as [[Hin Hne]|Hrest].
    + rewrite decide_True; [done|]. split; [by right|done].
    + destruct (decide (name ∈ doc_name doc :: (doc_name <$> rest)
                        ∧ name ≠ clean_filename name)) as [[Hin Hne]|Hall].
      * apply elem_of_cons in Hin as [->|Hin]; [|by destruct Hrest].
        by rewrite decide_True, lookup_insert_eq.
      * case_decide as Hchanged; [|done].
        rewrite lookup_insert_ne; [done|]. intros <-. apply Hall.
        split; [by left|done].
Qed.

Lemma reorganize_loop_content_map (output_dir : Path) (documents : list Doc)
    (st st' : Reorg) :
  reorganize_loop output_dir documents st = Some st' →
  (∀ key, key ∉ (fun doc => path_str (doc_path doc)) <$> documents →
          reorg_content_map st' !! key = reorg_content_map st !! key)
  ∧ ∀ doc, doc ∈ documents →
      ∃ doc', doc' ∈ documents
              ∧ path_str (doc_path doc') = path_str (doc_path doc)
              ∧ reorg_content_map st' !! path_str (doc_path doc)
                = Some (path_str (target_path output_dir doc')).
Proof.
  revert st. induction documents as [|doc rest IH]; intros st Hloop.
  - injection Hloop as <-. split; [done|]. by intros doc ?%elem_of_nil.
  - simpl in Hloop.
    destruct (reorganize_one output_dir doc st) as [st1|] eqn:Hone; [|done].
    simpl in Hloop. destruct (IH st1 Hloop) as [Hframe Hdocs].
    apply reorganize_one_maps in Hone as [Hcontent _]. split.
    + intros key Hkey. rewrite fmap_cons, not_elem_of_cons in Hkey.
      destruct Hkey as [Hne Hkey].
      by rewrite Hframe, Hcontent, lookup_insert_ne.
    + intros doc0 [->|Hdoc0]%elem_of_cons.
      * destruct (decide (path_str (doc_path doc)
                          ∈ (fun d => path_str (doc_path d)) <$> rest))
          as [Hin|Hnin].
        -- apply list_elem_of_fmap in Hin as (doc2 & Heq & Hdoc2).
           destruct (Hdocs doc2 Hdoc2) as (doc' & Hdoc' & Hstr & Hlook).
           exists doc'. split; [by right|]. rewrite Heq. done.
        -- exists doc. split; [by left|]. split; [done|].
           by rewrite Hframe, Hcontent, lookup_insert_eq.
      * destruct (Hdocs doc0 Hdoc0) as (doc' & Hdoc' & Hstr & Hlook).
        exists doc'. split; [by right|]. done.
Qed.

Lemma reorganize_documents_maps `{PyLib} (output_dir analysis_dir : Path)
    (documents : list Doc) (content_map : gmap string string)
    (fs : gmap Path string) (st : Reorg) :
  reorganize_documents output_dir analysis_dir documents content_map fs
    = Some st →
  ∃ st', reorganize_loop output_dir documents
           {| reorg_fs := fs; reorg_content_map := content_map;
              reorg_rename_map := ∅ |} = Some st'
         ∧ reorg_content_map st = reorg_content_map st'
         ∧ reorg_rename_map st = reorg_rename_map st'
         ∧ reorg_fs st !! (analysis_dir ++ ["rename_map.json"])
           = Some (json_dumps (reorg_rename_map st))
         ∧ reorg_fs st !! (analysis_dir ++ ["content_map.json"])
           = Some (json_dumps (reorg_content_map st)).
Proof.
  unfold reorganize_documents.
  destruct (reorganize_loop _ _ _) as [st'|]; [|done]. simpl.
  intros [= <-]. exists st'. simpl. unfold write_file.
  split_and!; try done.
  - by rewrite lookup_insert_eq.
  - rewrite lookup_insert_ne, lookup_insert_eq; [done|].
    intros Heq. by apply app_inv_head in Heq.
Qed.

(** X10: with the directories of the module, the rename map that
    [reorganize_documents] records holds exactly the names of the documents
    that the normalization changes, each with its normalized name, and
    rename_map.json is the dump of that map. *)
Theorem rename_map_records_changed_names `{PyLib} (fs : gmap Path string)
    (content_map : gmap string string) :
  let documents := scan_documents INPUT_DIR fs in
  ∃ st,
    reorganize_documents OUTPUT_DIR ANALYSIS_DIR documents content_map fs
      = Some st
    ∧ (∀ name clean,
         reorg_rename_map st !! name = Some clean ↔
         clean = clean_filename name ∧ clean ≠ name
         ∧ ∃ doc, doc ∈ documents ∧ doc_name doc = name)
    ∧ reorg_fs st !! (ANALYSIS_DIR ++ ["rename_map.json"])
      = Some (json_dumps (reorg_rename_map st)).
Proof.
  intros documents.
  destruct configured_apart as (Hio & _ & Hoa).
  destruct (reorganize_documents_spec OUTPUT_DIR ANALYSIS_DIR documents
              content_map fs Hoa (scanned_sources_ok _ _ fs Hio))
    as (st & Hst & _).
  exists st. split; [done|].
  destruct (reorganize_documents_maps _ _ _ _ _ _ Hst)
    as (st' & Hloop & _ & Hrename & Hjson & _).
  split; [|done]. intros name clean.
  rewrite Hrename, (reorganize_loop_rename_map _ _ _ _ name Hloop). simpl.
  rewrite lookup_empty. case_decide as Hcase.
  - destruct Hcase as [(doc & -> & Hdoc)%list_elem_of_fmap Hne]. split.
    + intros [= <-]. split; [done|]. split; [done|]. by exists doc.
    + by intros (-> & _ & _).
  - split; [done|]. intros (-> & Hne & doc & Hdoc & <-). destruct Hcase.
    split; [|done]. apply list_elem_of_fmap. by exists doc.
Qed.

(** X11: with the directories of the module, the content map that
    [reorganize_documents] leaves holds, for the path of every scanned
    document, the target path of a document with that path; every other
    entry it had on entry is kept; and content_map.json is its dump. *)
Theorem content_map_records_targets `{PyLib} (fs : gmap Path string)
    (content_map : gmap string string) :
  let documents := scan_documents INPUT_DIR fs in
  ∃ st,
    reorganize_documents OUTPUT_DIR ANALYSIS_DIR documents content_map fs
      = Some st
    ∧ (∀ doc, doc ∈ documents →
         ∃ doc', doc' ∈ documents
                 ∧ path_str (doc_path doc') = path_str (doc_path doc)
                 ∧ reorg_content_map st !! path_str (doc_path doc)
                   = Some (path_str (target_path OUTPUT_DIR doc')))
    ∧ (∀ key, (∀ doc, doc ∈ documents → path_str (doc_path doc) ≠ key) →
              reorg_content_map st !! key = content_map !! key)
    ∧ reorg_fs st !! (ANALYSIS_DIR ++ ["content_map.json"])
      = Some (json_dumps (reorg_content_map st)).
Proof.
  intros documents.
  destruct configured_apart as (Hio & _ & Hoa).
  destruct (reorganize_documents_spec OUTPUT_DIR ANALYSIS_DIR documents
              content_map fs Hoa (scanned_sources_ok _ _ fs Hio))
    as (st & Hst & _).
  exists st. split; [done|].
  destruct (reorganize_documents_maps _ _ _ _ _ _ Hst)
    as (st' & Hloop & Hcontent & _ & _ & Hjson).
  destruct (reorganize_loop_content_map _ _ _ _ Hloop) as [Hframe Hdocs].
  rewrite Hcontent. split; [done|]. split; [|by rewrite <- Hcontent].
  intros key Hkey. rewrite Hframe; [done|].
  intros (doc & -> & Hdoc)%list_elem_of_fmap. by apply (Hkey doc).
Qed.

(** ** More on the corpus statistics *)

Lemma counter_snoc (items : list string) (x : string) :
  counter (items ++ [x])
  = <[x := S (default O (counter items !! x))]> (counter items).
Proof. unfold counter. by rewrite foldl_app. Qed.

Lemma counter_lookup (items : list string) (x : string) :
  counter items !! x
  = let n := length (filter (fun y => y = x) items) in
    if decide (n = O) then None else Some n.
Proof.
  induction items as [|y items IH] using rev_ind; [done|].
  rewrite counter_snoc, filter_app, length_app. cbn zeta in *.
  destruct (decide (y = x)) as [->|Hne].
  - rewrite lookup_insert_eq, IH, filter_cons_True, filter_nil by done.
    destruct (length (filter (fun y => y = x) items)) as [|n]; simpl.
    + done.
    + f_equal. lia.
  - rewrite lookup_insert_ne, IH, filter_cons_False, filter_nil by done.
    simpl. by rewrite Nat.add_0_r.
Qed.

Lemma quality_scores_snoc (documents : list Doc) (doc : Doc) :
  quality_scores_of (documents ++ [doc])
  = <[doc_name doc := doc_quality_score doc]> (quality_scores_of documents).
Proof. unfold quality_scores_of. by rewrite foldl_app. Qed.

Lemma quality_scores_lookup_None (documents : list Doc) (name : string) :
  quality_scores_of documents !! name = None ↔ name ∉ doc_name <$> documents.
Proof.
  induction documents as [|doc documents IH] using rev_ind.
  - split; [by intros _ ?%elem_of_nil|done].
  - rewrite quality_scores_snoc, fmap_app, elem_of_app, lookup_insert_None, IH.
    simpl. rewrite list_elem_of_singleton. split.
    + intros [Hne Hnot] [Hin|Heq]; [by apply Hnot|by apply Hne].
    + intros Hnot. split; [intros Heq|intros Hin]; apply Hnot; auto.
Qed.

Lemma sum_values_insert (m : gmap string Z) (k : string) (v : Z) :
  m !! k = None → sum_values (<[k := v]> m) = (v + sum_values m)%Z.
Proof.
  intros Hk. unfold sum_values. rewrite map_fold_insert_L; [done| |done].
  intros. lia.
Qed.

Lemma sum_values_bounds (m : gmap string Z) (lo hi : Z) :
  (∀ k v, m !! k = Some v → (lo ≤ v ≤ hi)%Z) →
  (lo * Z.of_nat (size m) ≤ sum_values m ≤ hi * Z.of_nat (size m))%Z.
Proof.
  induction m as [|k v m Hk IH] using map_ind; intros Hall.
  - unfold sum_values. rewrite map_fold_empty, map_size_empty. lia.
  - rewrite sum_values_insert, map_size_insert_None by done.
    assert (lo ≤ v ≤ hi)%Z by (apply (Hall k); by rewrite lookup_insert_eq).
    assert (lo * Z.of_nat (size m) ≤ sum_values m ≤ hi * Z.of_nat (size m))%Z.
    { apply IH. intros k' v' Hk'. apply (Hall k').
      rewrite lookup_insert_ne; [done|]. intros ->. congruence. }
    lia.
Qed.

(** X12: [analyze_patterns] returns on every corpus, and its category table
    holds, for each category that occurs, the number of documents of that
    category, and no entry for a category that does not occur. *)
Theorem analyze_patterns_categories (documents : list Doc) :
  ∃ patterns,
    analyze_patterns documents = Some patterns
    ∧ ∀ category n,
        pat_categories patterns !! category = Some n ↔
        n = length (filter (fun doc => doc_category doc = category) documents)
        ∧ n ≠ O.
Proof.
  unfold analyze_patterns.
  destruct (average_quality_is_Some (quality_scores_of documents)) as [avg ->].
  eexists. split; [reflexivity|]. simpl. intros category n.
  rewrite counter_lookup. cbn zeta.
  assert (Hlen : length (filter (fun y => y = category)
                           (doc_category <$> documents))
                 = length (filter (fun doc => doc_category doc = category)
                             documents)).
  { induction documents as [|doc rest IH]; [done|].
    rewrite fmap_cons, !filter_cons. simpl.
    destruct (decide (doc_category doc = category)); simpl; by rewrite IH. }
  rewrite Hlen. case_decide as Hzero.
  - split; [done|]. intros [-> ?]. done.
  - split; [intros [= <-]; done|]. by intros [-> _].
Qed.

(** X13: the table of quality scores has one entry per document name; when
    several documents have the same name, the entry is the score of the last
    of them. *)
Theorem quality_scores_last_of_a_name (before after : list Doc) (doc : Doc) :
  doc_name doc ∉ doc_name <$> after →
  quality_scores_of (before ++ doc :: after) !! doc_name doc
    = Some (doc_quality_score doc)
  ∧ ∀ name, is_Some (quality_scores_of (before ++ doc :: after) !! name)
            ↔ name ∈ doc_name <$> (before ++ doc :: after).
Proof.
  intros Hafter. split.
  - induction after as [|last after IH] using rev_ind.
    + by rewrite quality_scores_snoc, lookup_insert_eq.
    + rewrite fmap_app, elem_of_app in Hafter.
      change (before ++ doc :: after ++ [last])
        with (before ++ (doc :: after) ++ [last]).
      rewrite app_assoc, quality_scores_snoc, lookup_insert_ne.
      * apply IH. auto.
      * intros Heq. apply Hafter. right. rewrite <- Heq. by left.
  - intros name. rewrite <- not_eq_None_Some, quality_scores_lookup_None.
    split; [apply dec_stable | by intros ? ?].
Qed.

Lemma quality_scores_last_of_a_name_witness :
  let first := @doc_info text_lib ["docs"; "api"; "notes.md"] "# API notes" in
  let last := @doc_info text_lib ["docs"; "notes.md"] "TODO" in
  quality_scores_of [first; last] !! "notes.md" = Some 65%Z.
Proof.
  intros first last.
  apply (quality_scores_last_of_a_name [first] [] last).
  by intros ?%elem_of_nil.
Defined.

Lemma quality_scores_lookup_Some (documents : list Doc) (name : string)
    (score : Z) :
  quality_scores_of documents !! name = Some score →
  ∃ doc, doc ∈ documents ∧ doc_name doc = name
         ∧ doc_quality_score doc = score.
Proof.
  induction documents as [|doc documents IH] using rev_ind; [done|].
  rewrite quality_scores_snoc.
  destruct (decide (doc_name doc = name)) as [<-|Hne].
  - rewrite lookup_insert_eq. intros [= <-]. exists doc.
    split; [|done]. apply elem_of_app. right. by left.
  - rewrite lookup_insert_ne by done. intros (d & Hd & ? & ?)%IH.
    exists d. split; [|done]. apply elem_of_app. by left.
Qed.

(** X14: on a scanned corpus that is not empty, [analyze_patterns] returns
    and the average quality lies between 40 and 100. *)
Theorem average_quality_of_scanned `{PyLib} (input_dir : Path)
    (fs : gmap Path string) :
  scan_documents input_dir fs ≠ [] →
  ∃ patterns,
    analyze_patterns (scan_documents input_dir fs) = Some patterns
    ∧ (40 <= pat_average_quality patterns <= 100)%Q.
Proof.
  intros Hne. set (documents := scan_documents input_dir fs) in *.
  assert (Hscores : ∀ k v, quality_scores_of documents !! k = Some v →
                           (40 ≤ v ≤ 100)%Z).
  { intros k v (doc & Hdoc & _ & <-)%quality_scores_lookup_Some.
    apply scan_documents_elem_of in Hdoc as (p & content & -> & _). simpl.
    pose proof (assess_quality_at_least_40 content (path_name p)).
    pose proof (assess_quality_at_most_100 content (path_name p)). lia. }
  assert (Hsome : quality_scores_of documents ≠ ∅).
  { clearbody documents.
    destruct documents as [|doc documents _] using rev_ind; [done|].
    rewrite quality_scores_snoc. apply insert_non_empty. }
  pose proof (sum_values_bounds _ 40 100 Hscores) as Hsum.
  assert (Hsize : (0 < size (quality_scores_of documents))%nat).
  { destruct (size (quality_scores_of documents)) eqn:Hs; [|lia].
    by apply map_size_empty_iff in Hs. }
  unfold analyze_patterns, average_quality, truediv.
  rewrite decide_True by done. rewrite decide_False by lia.
  rewrite decide_True by lia. simpl. eexists. split; [reflexivity|]. simpl.
  unfold Qle. cbn [Qnum Qden]. rewrite Z2Pos.id by lia. lia.
Qed.

Lemma average_quality_of_scanned_witness :
  ∃ patterns,
    analyze_patterns (@scan_documents text_lib ["docs"] dup_fs) = Some patterns
    ∧ (40 <= pat_average_quality patterns <= 100)%Q.
Proof.
  apply (@average_quality_of_scanned text_lib ["docs"] dup_fs).
  vm_compute. discriminate.
Defined.

(** ** Headers *)

Lemma lstrip_first (s : string) (c : ascii) :
  first_char (lstrip s) = Some c → Char.isspace c = false.
Proof.
  induction s as [|d s IH]; [done|]. simpl.
  destruct (Char.isspace d) eqn:Hd; [done|]. simpl. by intros [= <-].
Qed.

Lemma rstrip_first (s : string) (c : ascii) :
  first_char (rstrip s) = Some c → first_char s = Some c.
Proof.
  destruct s as [|d s]; [done|]. simpl.
  by destruct (Char.isspace d && String.eqb (rstrip s) "").
Qed.

Lemma last_char_None (s : string) : last_char s = None → s = "".
Proof. destruct s as [|c s]; [done|]. simpl. by destruct (last_char s). Qed.

Lemma rstrip_last (s : string) (c : ascii) :
  last_char (rstrip s) = Some c → Char.isspace c = false.
Proof.
  induction s as [|d s IH]; [done|]. simpl.
  destruct (Char.isspace d && String.eqb (rstrip s) "") eqn:Hd; [done|].
  simpl. destruct (last_char (rstrip s)) as [e|] eqn:He.
  - intros [= <-]. by apply IH.
  - intros [= <-]. apply last_char_None in He. rewrite He in Hd.
    by rewrite andb_true_r in Hd.
Qed.

Lemma strip_stripped (s : string) : stripped (strip s).
Proof.
  unfold strip. split; intros c Hc.
  - by apply (lstrip_first s), rstrip_first.
  - by apply (rstrip_last (lstrip s)).
Qed.

Lemma any_lstrip (p : ascii → bool) (s : string) :
  Str.any p s = false → Str.any p (lstrip s) = false.
Proof.
  induction s as [|c s IH]; [done|]. simpl.
  intros [Hc Hs]%orb_false_elim. destruct (Char.isspace c); [auto|].
  simpl. by rewrite Hc.
Qed.

Lemma any_rstrip (p : ascii → bool) (s : string) :
  Str.any p s = false → Str.any p (rstrip s) = false.
Proof.
  induction s as [|c s IH]; [done|]. simpl.
  intros [Hc Hs]%orb_false_elim.
  destruct (Char.isspace c && String.eqb (rstrip s) ""); [done|].
  simpl. rewrite Hc. by apply IH.
Qed.

Lemma take_while_not_newline (s : string) :
  Str.any is_newline (take_while not_newline s) = false.
Proof.
  induction s as [|c s IH]; [done|]. simpl. unfold not_newline at 1.
  destruct (Ascii.eqb c LF) eqn:Hc; [done|]. simpl.
  unfold is_newline at 1. by rewrite Hc.
Qed.

Lemma last_non_newline_char (w : string) (i : nat) (c : ascii) :
  last_non_newline w = Some (i, c) → is_newline c = false.
Proof.
  revert i. induction w as [|d w IH]; [done|]. intros i. simpl.
  destruct (last_non_newline w) as [[j e]|].
  - intros [= _ <-]. by apply (IH j).
  - unfold not_newline, is_newline.
    destruct (Ascii.eqb d LF) eqn:Hd; [done|]. by intros [= _ <-].
Qed.

(** What a match is made of. *)
Lemma match_header_Some (s : string) (level : nat) (title : string) (len : nat) :
  match_header s = Some (level, title, len) →
  (1 ≤ level ≤ 6)%nat ∧ level = count_prefix is_hash s
  ∧ (0 < count_prefix Char.isspace (str_drop level s))%nat
  ∧ Str.any is_newline title = false.
Proof.
  unfold match_header.
  destruct (count_prefix is_hash s =? 0)%nat eqn:Hzero; [done|].
  destruct (6 <? count_prefix is_hash s)%nat eqn:Hsix; [done|]. simpl.
  apply Nat.eqb_neq in Hzero. apply Nat.ltb_ge in Hsix.
  destruct (count_prefix Char.isspace (str_drop _ s) =? 0)%nat eqn:Hsp; [done|].
  apply Nat.eqb_neq in Hsp.
  destruct (str_drop (count_prefix Char.isspace _) _) as [|c line].
  - destruct (last_non_newline _) as [[i c]|] eqn:Hlast; [|done].
    intros [= <- <- <-]. split_and!; try lia; try done.
    simpl. by rewrite (last_non_newline_char _ _ _ Hlast).
  - intros [= <- <- <-]. split_and!; try lia; try done.
    apply (take_while_not_newline (String c line)).
Qed.

Lemma headers_from_shape (skip : nat) (bol : bool) (s : string)
    (level : nat) (title : string) :
  (level, title) ∈ headers_from skip bol s →
  (1 ≤ level ≤ 6)%nat ∧ stripped title ∧ Str.any is_newline title = false.
Proof.
  revert bol skip. induction s as [|c s IH]; intros bol skip.
  - by intros ?%elem_of_nil.
  - cbn [headers_from]. destruct skip as [|k]; [|apply IH].
    destruct (if bol then match_header (String c s) else None)
      as [[[l t] n]|] eqn:Hm; [|apply IH].
    intros [[= -> ->]|Hin]%elem_of_cons; [|by apply IH in Hin].
    destruct bol; [|done].
    apply match_header_Some in Hm as (Hl & _ & _ & Hnl).
    split; [done|]. split; [apply strip_stripped|].
    by apply any_rstrip, any_lstrip.
Qed.

(** X15: every header that [extract_headers] returns has a level between 1
    and 6 and a title on one line with no whitespace at either end. *)
Theorem extract_headers_shape (content : string) (level : nat)
    (title : string) :
  (level, title) ∈ extract_headers content →
  (1 ≤ level ≤ 6)%nat ∧ stripped title ∧ Str.any is_newline title = false.
Proof. apply headers_from_shape. Qed.

Lemma extract_headers_shape_witness :
  (1 ≤ 2 ≤ 6)%nat ∧ stripped "Setup" ∧ Str.any is_newline "Setup" = false.
Proof.
  apply (extract_headers_shape
           ("# Guide" +:+ String LF "##  Setup  ") 2 "Setup").
  vm_compute. right. left.
Defined.

Lemma headers_from_level_one (skip : nat) (bol : bool) (s title : string) :
  (1%nat, title) ∈ headers_from skip bol s → search_header_from bol s = true.
Proof.
  revert bol skip. induction s as [|c s IH]; intros bol skip.
  - by intros ?%elem_of_nil.
  - cbn [headers_from search_header_from]. destruct skip as [|k].
    + destruct (if bol then match_header (String c s) else None)
        as [[[l t] n]|] eqn:Hm.
      * intros [[= <- _]|Hin]%elem_of_cons.
        -- destruct bol; [|done].
           apply match_header_Some in Hm as (_ & Hcount & Hsp & _).
           simpl in Hcount. unfold is_hash at 1 in Hcount.
           destruct (Ascii.eqb c "#") eqn:Hc; [|done]. simpl.
           injection Hcount as Hcount. symmetry in Hcount.
           simpl in Hsp. destruct s as [|d s]; [simpl in Hsp; lia|].
           simpl in Hcount. destruct (is_hash d); [done|].
           simpl in Hsp. destruct (Char.isspace d); [done|lia].
        -- apply IH in Hin. apply orb_true_iff. right. exact Hin.
      * intros Hin. apply IH in Hin. apply orb_true_iff. right. exact Hin.
    + intros Hin. apply IH in Hin. apply orb_true_iff. right. exact Hin.
Qed.

Lemma headers_from_no_hash (skip : nat) (bol : bool) (s : string) :
  Str.any is_hash s = false → headers_from skip bol s = [].
Proof.
  revert bol skip. induction s as [|c s IH]; intros bol skip; [done|].
  simpl. intros [Hc Hs]%orb_false_elim. destruct skip as [|k]; [|by apply IH].
  assert (match_header (String c s) = None) as Hnone.
  { unfold match_header. simpl. by rewrite Hc. }
  rewrite Hnone. destruct bol; by apply IH.
Qed.

(** X16: a text from which [extract_headers] returns a header of level 1
    has a "#" followed by whitespace at the start of a line, so that
    [assess_quality] does not deduct for a missing header; and a text without
    "#" has no header. *)
Theorem level_one_header_is_top_header (content : string) :
  ((∃ title, (1%nat, title) ∈ extract_headers content) →
   no_top_header content = false)
  ∧ (Str.any is_hash content = false → extract_headers content = []).
Proof.
  split.
  - intros [title Hin]. unfold no_top_header, search_top_header.
    by rewrite (headers_from_level_one _ _ _ _ Hin).
  - apply headers_from_no_hash.
Qed.

(** ** Keywords *)

Lemma insert_by_count_perm (x : string * nat) (l : list (string * nat)) :
  insert_by_count x l ≡ₚ x :: l.
Proof.
  induction l as [|y l IH]; [done|]. simpl.
  destruct (y.2 <? x.2)%nat; [done|]. rewrite IH. apply perm_swap.
Qed.

Lemma sort_by_count_perm (l : list (string * nat)) : sort_by_count l ≡ₚ l.
Proof.
  unfold sort_by_count.
  induction l as [|x l IH] using rev_ind; [done|].
  rewrite foldl_app. simpl. rewrite insert_by_count_perm, IH.
  by rewrite <- Permutation_cons_append.
Qed.

Lemma falling_cons (x : string * nat) (l : list (string * nat)) :
  falling (x :: l) ↔ (∀ y, y ∈ l → (y.2 ≤ x.2)%nat) ∧ falling l.
Proof.
  split.
  - intros Hf. split.
    + intros y [n Hn]%list_elem_of_lookup_1.
      apply (Hf O (S n) x y); [done|done|lia].
    + intros i j a b Ha Hb Hij. apply (Hf (S i) (S j) a b); [done|done|lia].
  - intros [Hx Hf] [|i] [|j] a b Ha Hb Hij; simplify_eq/=; try lia.
    + by apply Hx, list_elem_of_lookup_2 with j.
    + apply (Hf i j a b); [done|done|lia].
Qed.

Lemma insert_by_count_falling (x : string * nat) (l : list (string * nat)) :
  falling l → falling (insert_by_count x l).
Proof.
  induction l as [|y l IH]; intros Hf; simpl.
  - apply falling_cons. split; [by intros ? ?%elem_of_nil|].
    intros i j a b Ha. by rewrite lookup_nil in Ha.
  - destruct (Nat.ltb_spec y.2 x.2) as [Hlt|Hge].
    + apply falling_cons. split; [|done].
      apply falling_cons in Hf as [Hy _].
      intros z [->|Hz]%elem_of_cons; [lia|]. specialize (Hy z Hz). lia.
    + apply falling_cons in Hf as [Hy Hf].
      apply falling_cons. split; [|by apply IH].
      intros z Hz. rewrite insert_by_count_perm in Hz.
      apply elem_of_cons in Hz as [->|Hz]; [done|by apply Hy].
Qed.

Lemma sort_by_count_falling (l : list (string * nat)) :
  falling (sort_by_count l).
Proof.
  unfold sort_by_count.
  induction l as [|x l IH] using rev_ind.
  - simpl. intros i j a b Ha. by rewrite lookup_nil in Ha.
  - rewrite foldl_app. simpl. by apply insert_by_count_falling.
Qed.

Lemma vsm_keywords_NoDup : NoDup vsm_keywords.
Proof. apply (bool_decide_unpack _). by vm_compute. Qed.

Lemma keyword_counts_names (text : string) :
  (keyword_counts text).*1
  = filter (fun keyword => Str.contains keyword text = true) vsm_keywords.
Proof.
  unfold keyword_counts. rewrite <- list_fmap_compose.
  induction (filter _ vsm_keywords) as [|k l IH]; [done|].
  rewrite fmap_cons. by rewrite IH.
Qed.

Lemma keyword_counts_count (text : string) (x : string * nat) :
  x ∈ keyword_counts text → x.2 = str_count x.1 text.
Proof.
  unfold keyword_counts. intros (k & -> & _)%list_elem_of_fmap. done.
Qed.

Lemma sorted_counts_lookup (text : string) (i : nat) (keyword : string) :
  (sort_by_count (keyword_counts text)).*1 !! i = Some keyword →
  sort_by_count (keyword_counts text) !! i
  = Some (keyword, str_count keyword text).
Proof.
  rewrite list_lookup_fmap. intros Hi.
  destruct (sort_by_count (keyword_counts text) !! i) as [[k n]|] eqn:Hl;
    [|done].
  simpl in Hi. injection Hi as ->.
  assert (Hin : (keyword, n) ∈ keyword_counts text).
  { rewrite <- (sort_by_count_perm (keyword_counts text)).
    by apply list_elem_of_lookup_2 with i. }
  apply keyword_counts_count in Hin. simpl in Hin. by rewrite Hin.
Qed.

(** X17: [extract_keywords] returns at most ten keywords of the fixed list,
    none of them twice, each one occurring in the lowered text without fenced
    code and link targets, in the order of falling counts; a keyword of the
    list that occurs in that text is left out only when ten keywords at
    least as frequent are returned. *)
Theorem extract_keywords_selects (content : string) :
  (length (extract_keywords content) ≤ 10)%nat
  ∧ NoDup (extract_keywords content)
  ∧ (∀ keyword, keyword ∈ extract_keywords content →
       keyword ∈ vsm_keywords
       ∧ Str.contains keyword (keyword_text content) = true)
  ∧ (∀ i j a b,
       extract_keywords content !! i = Some a →
       extract_keywords content !! j = Some b →
       (i ≤ j)%nat →
       (str_count b (keyword_text content)
        ≤ str_count a (keyword_text content))%nat)
  ∧ (∀ keyword,
       keyword ∈ vsm_keywords →
       Str.contains keyword (keyword_text content) = true →
       keyword ∉ extract_keywords content →
       length (extract_keywords content) = 10%nat
       ∧ ∀ a, a ∈ extract_keywords content →
              (str_count keyword (keyword_text content)
               ≤ str_count a (keyword_text content))%nat).
Proof.
  unfold extract_keywords.
  set (text := keyword_text content).
  set (sorted := sort_by_count (keyword_counts text)).
  assert (Hperm : sorted.*1
                  ≡ₚ filter (fun k => Str.contains k text = true) vsm_keywords).
  { unfold sorted. rewrite sort_by_count_perm. by rewrite keyword_counts_names. }
  assert (Hnd : NoDup (sorted.*1)).
  { rewrite Hperm. apply NoDup_filter, vsm_keywords_NoDup. }
  assert (Hfall : ∀ i j a b,
             sorted.*1 !! i = Some a → sorted.*1 !! j = Some b → (i ≤ j)%nat →
             (str_count b text ≤ str_count a text)%nat).
  { intros i j a b Ha%sorted_counts_lookup Hb%sorted_counts_lookup Hij.
    apply (sort_by_count_falling (keyword_counts text) i j _ _ Ha Hb Hij). }
  split; [rewrite length_take; lia|].
  split; [by apply (sublist_NoDup _ _ Hnd), sublist_take|].
  split.
  { intros keyword Hin%elem_of_take. destruct Hin as (i & Hi & _).
    apply list_elem_of_lookup_2 in Hi. rewrite Hperm in Hi.
    by apply list_elem_of_filter in Hi as [? ?]. }
  split.
  { intros i j a b [Ha Hi]%lookup_take_Some [Hb Hj]%lookup_take_Some.
    by apply Hfall. }
  intros keyword Hk Hc Hout.
  assert (Hin : keyword ∈ sorted.*1).
  { rewrite Hperm. by apply list_elem_of_filter. }
  apply list_elem_of_lookup_1 in Hin as [n Hn].
  assert (Hn10 : (10 ≤ n)%nat).
  { destruct (decide (n < 10)%nat) as [Hlt|]; [|lia].
    exfalso. apply Hout. apply elem_of_take. by exists n. }
  split.
  - rewrite length_take. apply lookup_lt_Some in Hn. lia.
  - intros a (i & Hi & Hlt)%elem_of_take. apply (Hfall i n); [done|done|lia].
Qed.

(** ** Fenced code *)

Lemma str_app_assoc (s t u : string) : (s +:+ t) +:+ u = s +:+ t +:+ u.
Proof. induction s as [|c s IH]; [done|]. rewrite !app_cons. by rewrite IH. Qed.

Lemma remove_fenced_go_skip (a b : string) :
  remove_fenced_go (String.length a) (a +:+ b) = remove_fenced_go 0 b.
Proof. induction a as [|c a IH]; [done|]. rewrite app_cons. simpl. apply IH. Qed.

Lemma startswith_fence_cons (c : ascii) (s : string) :
  is_backtick c = false → Str.startswith fence (String c s) = false.
Proof.
  unfold is_backtick, fence. rewrite startswith_cons, Ascii.eqb_sym.
  by intros ->.
Qed.

Lemma remove_fenced_plain (a b : string) :
  Str.any is_backtick a = false →
  remove_fenced_go 0 (a +:+ b) = a +:+ remove_fenced_go 0 b.
Proof.
  induction a as [|c a IH]; [done|]. cbn [Str.any].
  intros [Hc Ha]%orb_false_elim. rewrite !app_cons.
  cbn [remove_fenced_go]. rewrite (startswith_fence_cons _ _ Hc).
  by rewrite IH.
Qed.

Lemma str_find_plain (a b : string) :
  Str.any is_backtick a = false →
  str_find fence (a +:+ fence +:+ b) = Some (String.length a).
Proof.
  induction a as [|c a IH]; [done|]. cbn [Str.any].
  intros [Hc Ha]%orb_false_elim. rewrite app_cons.
  cbn [str_find]. rewrite (startswith_fence_cons _ _ Hc).
  by rewrite (IH Ha).
Qed.

Lemma remove_fenced_block (code after : string) :
  Str.any is_backtick code = false →
  remove_fenced_go 0 (fence +:+ code +:+ fence +:+ after)
  = remove_fenced_go 0 after.
Proof.
  intros Hcode.
  change (fence +:+ code +:+ fence +:+ after)
    with (String "`" ("``" +:+ code +:+ fence +:+ after)).
  cbn [remove_fenced_go].
  replace (Str.startswith fence (String "`" ("``" +:+ code +:+ fence +:+ after)))
    with true by done.
  change (str_drop 3 (String "`" ("``" +:+ code +:+ fence +:+ after)))
    with (code +:+ fence +:+ after).
  rewrite (str_find_plain _ _ Hcode).
  replace ("``" +:+ code +:+ fence +:+ after)
    with (("``" +:+ code +:+ fence) +:+ after).
  2:{ by rewrite !str_app_assoc. }
  replace (String.length code + 5)%nat
    with (String.length ("``" +:+ code +:+ fence)).
  - apply remove_fenced_go_skip.
  - rewrite !str_length_app. simpl. lia.
Qed.

(** X18: a fenced block between texts without backticks adds nothing to the
    keywords: [extract_keywords] returns what it returns on the text without
    the block. *)
Theorem fenced_code_is_not_searched (before code after : string) :
  Str.any is_backtick before = false →
  Str.any is_backtick code = false →
  extract_keywords (before +:+ fence +:+ code +:+ fence +:+ after)
  = extract_keywords (before +:+ after).
Proof.
  intros Hbefore Hcode. unfold extract_keywords, keyword_text, remove_fenced.
  rewrite (remove_fenced_plain before (fence +:+ code +:+ fence +:+ after))
    by done.
  rewrite (remove_fenced_plain before after) by done.
  by rewrite (remove_fenced_block code after).
Qed.

Lemma fenced_code_is_not_searched_witness :
  extract_keywords ("The api " +:+ fence +:+ "mix test" +:+ fence +:+ " of vsm")
  = extract_keywords ("The api " +:+ " of vsm").
Proof.
  apply (fenced_code_is_not_searched "The api " "mix test" " of vsm");
    reflexivity.
Defined.

(** ** Links *)

Lemma take_while_none (p q : ascii → bool) (s : string) :
  (∀ c, p c = true → q c = false) → Str.any q (take_while p s) = false.
Proof.
  intros Hpq. induction s as [|c s IH]; [done|]. simpl.
  destruct (p c) eqn:Hc; [|done]. simpl. by rewrite (Hpq c Hc), IH.
Qed.

Lemma eqb_empty (s : string) : String.eqb s "" = false → s ≠ "".
Proof. by intros H ->. Qed.

Lemma not_rbracket_text (rest : string) :
  Str.any is_rbracket (take_while not_rbracket rest) = false.
Proof.
  apply take_while_none. intros c. unfold not_rbracket, is_rbracket.
  by destruct (Ascii.eqb c "]").
Qed.

Lemma match_link_Some (s text target : string) (len : nat) :
  match_link s = Some (text, target, len) →
  text ≠ "" ∧ Str.any is_rbracket text = false
  ∧ target ≠ "" ∧ Str.any is_rparen target = false.
Proof.
  unfold match_link. destruct s as [|c rest]; [done|].
  destruct (negb (Ascii.eqb c "[")); [done|].
  destruct (String.eqb (take_while not_rbracket rest) "") eqn:Htext; [done|].
  destruct (negb (Str.startswith "](" _)); [done|].
  destruct (String.eqb (take_while not_rparen _) "") eqn:Htarget; [done|].
  destruct (negb (Str.startswith ")" _)); [done|].
  intros [= <- <- _].
  split; [by apply eqb_empty|]. split; [apply not_rbracket_text|].
  split; [by apply eqb_empty|].
  apply take_while_none. intros d. unfold not_rparen, is_rparen.
  by destruct (Ascii.eqb d ")").
Qed.

Lemma match_link_lbracket (s : string) (c : ascii) :
  is_lbracket c = false → match_link (String c s) = None.
Proof. unfold match_link, is_lbracket. by intros ->. Qed.

Lemma inline_links_shape (skip : nat) (s text target : string) :
  (text, target) ∈ inline_links_from skip s →
  text ≠ "" ∧ Str.any is_rbracket text = false
  ∧ target ≠ "" ∧ Str.any is_rparen target = false.
Proof.
  revert skip. induction s as [|c s IH]; intros skip; [by intros ?%elem_of_nil|].
  cbn [inline_links_from]. destruct skip as [|k]; [|apply IH].
  destruct (match_link (String c s)) as [[[text' target'] len]|] eqn:Hm;
    [|apply IH].
  intros [[= -> ->]|Hin]%elem_of_cons; [|by apply IH in Hin].
  by apply match_link_Some in Hm.
Qed.

Lemma count_prefix_drop (p : ascii → bool) (s : string) (d : ascii)
    (line : string) :
  str_drop (count_prefix p s) s = String d line → p d = false.
Proof.
  induction s as [|c s IH]; [done|]. simpl.
  destruct (p c) eqn:Hc; [apply IH|]. simpl. by intros [= <- _].
Qed.

Lemma match_ref_link_Some (s text target : string) (len : nat) :
  match_ref_link s = Some (text, target, len) →
  text ≠ "" ∧ Str.any is_rbracket text = false
  ∧ target ≠ "" ∧ Str.any is_newline target = false.
Proof.
  unfold match_ref_link. destruct s as [|c rest]; [done|].
  destruct (negb (Ascii.eqb c "[")); [done|].
  destruct (String.eqb (take_while not_rbracket rest) "") eqn:Htext; [done|].
  destruct (negb (Str.startswith "]:" _)); [done|].
  set (rest' := str_drop _ rest).
  destruct (str_drop _ rest') as [|d line] eqn:Hline.
  - destruct (last_non_newline rest') as [[i e]|] eqn:Hlast; [|done].
    intros [= <- <- _].
    split; [by apply eqb_empty|]. split; [apply not_rbracket_text|].
    split; [done|].
    simpl. by rewrite (last_non_newline_char _ _ _ Hlast).
  - intros [= <- <- _].
    split; [by apply eqb_empty|]. split; [apply not_rbracket_text|].
    apply count_prefix_drop in Hline. split.
    + simpl. unfold not_newline.
      destruct (Ascii.eqb d LF) eqn:Hlf; [|done].
      apply Ascii.eqb_eq in Hlf as ->. by vm_compute in Hline.
    + apply (take_while_not_newline (String d line)).
Qed.

Lemma match_ref_link_lbracket (s : string) (c : ascii) :
  is_lbracket c = false → match_ref_link (String c s) = None.
Proof. unfold match_ref_link, is_lbracket. by intros ->. Qed.

Lemma ref_links_shape (skip : nat) (s text target : string) :
  (text, target) ∈ ref_links_from skip s →
  text ≠ "" ∧ Str.any is_rbracket text = false
  ∧ target ≠ "" ∧ Str.any is_newline target = false.
Proof.
  revert skip. induction s as [|c s IH]; intros skip; [by intros ?%elem_of_nil|].
  cbn [ref_links_from]. destruct skip as [|k]; [|apply IH].
  destruct (match_ref_link (String c s)) as [[[text' target'] len]|] eqn:Hm;
    [|apply IH].
  intros [[= -> ->]|Hin]%elem_of_cons; [|by apply IH in Hin].
  by apply match_ref_link_Some in Hm.
Qed.

Lemma inline_links_no_bracket (skip : nat) (s : string) :
  Str.any is_lbracket s = false → inline_links_from skip s = [].
Proof.
  revert skip. induction s as [|c s IH]; intros skip; [done|].
  cbn [Str.any]. intros [Hc Hs]%orb_false_elim.
  cbn [inline_links_from]. destruct skip as [|k]; [|by apply IH].
  rewrite (match_link_lbracket _ _ Hc). by apply IH.
Qed.

Lemma ref_links_no_bracket (skip : nat) (s : string) :
  Str.any is_lbracket s = false → ref_links_from skip s = [].
Proof.
  revert skip. induction s as [|c s IH]; intros skip; [done|].
  cbn [Str.any]. intros [Hc Hs]%orb_false_elim.
  cbn [ref_links_from]. destruct skip as [|k]; [|by apply IH].
  rewrite (match_ref_link_lbracket _ _ Hc). by apply IH.
Qed.

(** X19: every link that [extract_links] returns has a text that is not
    empty and holds no "]", and a target that is not empty and holds no ")"
    (a link in line) or no line feed (a reference); a text without "[" has
    no links. *)
Theorem extract_links_shape (content : string) :
  (∀ text target,
     (text, target) ∈ extract_links content →
     text ≠ "" ∧ Str.any is_rbracket text = false ∧ target ≠ ""
     ∧ (Str.any is_rparen target = false ∨ Str.any is_newline target = false))
  ∧ (Str.any is_lbracket content = false → extract_links content = []).
Proof.
  unfold extract_links. split.
  - intros text target [Hin|Hin]%elem_of_app.
    + apply inline_links_shape in Hin as (? & ? & ? & ?). auto.
    + apply ref_links_shape in Hin as (? & ? & ? & ?). auto.
  - intros Hno.
    by rewrite (inline_links_no_bracket _ _ Hno), (ref_links_no_bracket _ _ Hno).
Qed.

(** ** Code blocks *)

Lemma startswith_length (p s : string) :
  Str.startswith p s = true → (String.length p ≤ String.length s)%nat.
Proof.
  revert s. induction p as [|a p IH]; intros [|b s]; simpl; try done; try lia.
  intros [_ Hp]%andb_true_iff. apply IH in Hp. lia.
Qed.

Lemma str_find_length (needle s : string) (j : nat) :
  str_find needle s = Some j →
  (j + String.length needle ≤ String.length s)%nat.
Proof.
  revert j. induction s as [|c s IH]; intros j.
  - cbn [str_find]. destruct (Str.startswith needle "") eqn:Hp; [|done].
    intros [= <-]. by apply startswith_length in Hp.
  - cbn [str_find]. destruct (Str.startswith needle (String c s)) eqn:Hp.
    + intros [= <-]. by apply startswith_length in Hp.
    + destruct (str_find needle s) as [i|]; [|done].
      intros [= <-]. specialize (IH i eq_refl). simpl. lia.
Qed.

Lemma str_drop_length (n : nat) (s : string) (c : ascii) (t : string) :
  str_drop n s = String c t → (n + S (String.length t) = String.length s)%nat.
Proof.
  revert s. induction n as [|n IH]; intros [|d s]; simpl; try done.
  - by intros [= -> ->].
  - intros Hd. apply IH in Hd. lia.
Qed.

Lemma match_code_block_length (s lang body : string) (len : nat) :
  match_code_block s = Some (lang, body, len) →
  (8 ≤ len ≤ String.length s)%nat.
Proof.
  unfold match_code_block.
  assert (Hs : (String.length (str_drop 3 s) + 3 = String.length s)%nat
               ∨ str_drop 3 s = "").
  { destruct s as [|? [|? [|? ?]]]; simpl; auto. left. lia. }
  destruct (negb (Str.startswith fence s)); [done|].
  set (rest := str_drop 3 s) in *.
  destruct (str_drop _ rest) as [|c body_on] eqn:Hd; [done|].
  destruct (negb (Ascii.eqb c LF)); [done|].
  destruct (str_find _ body_on) as [j|] eqn:Hj; [|done].
  intros [= _ _ <-]. split; [lia|].
  apply str_find_length in Hj. apply str_drop_length in Hd.
  change (String.length (String LF fence)) with 4%nat in Hj.
  destruct Hs as [Hs|Hs]; [lia|].
  rewrite Hs in Hd. simpl in Hd. lia.
Qed.

Lemma code_blocks_length (skip : nat) (s : string) :
  (8 * length (code_blocks_from skip s) ≤ String.length s - skip)%nat.
Proof.
  revert skip. induction s as [|c s IH]; intros skip; [simpl; lia|].
  cbn [code_blocks_from]. destruct skip as [|k].
  - destruct (match_code_block (String c s)) as [[[lang body] len]|] eqn:Hm.
    + apply match_code_block_length in Hm. cbn [String.length] in Hm.
      specialize (IH (len - 1)%nat). cbn [length String.length]. lia.
    + specialize (IH O). cbn [String.length]. lia.
  - specialize (IH k). cbn [String.length]. lia.
Qed.

(** X20: a code block takes at least eight characters of the text, so a
    text has at most an eighth of its length in blocks; the table of
    languages has no entry for the empty language, and no language is counted
    more often than there are blocks. *)
Theorem count_code_blocks_bounds (content : string) :
  (8 * cb_total (count_code_blocks content) ≤ String.length content)%nat
  ∧ cb_languages (count_code_blocks content) !! "" = None
  ∧ (∀ lang n,
       cb_languages (count_code_blocks content) !! lang = Some n →
       (1 ≤ n ≤ cb_total (count_code_blocks content))%nat).
Proof.
  unfold count_code_blocks. cbn [cb_total cb_languages].
  split; [pose proof (code_blocks_length 0 content); lia|].
  set (names := (code_blocks_from 0 content).*1).
  replace (length (code_blocks_from 0 content)) with (length names)
    by apply length_fmap.
  split.
  - rewrite counter_lookup. cbn zeta.
    destruct (filter _ (filter _ names)) as [|x l] eqn:Hf; [done|].
    assert (Hx : x ∈ x :: l) by left. rewrite <- Hf in Hx.
    apply list_elem_of_filter in Hx as [-> Hx].
    by apply list_elem_of_filter in Hx as [? _].
  - intros lang n. rewrite counter_lookup. cbn zeta.
    destruct (decide _) as [|Hn]; [done|]. intros [= <-].
    split; [lia|].
    etrans; [apply length_filter|]. apply length_filter.
Qed.

(** ** Lists *)

Lemma count_items_per_line (item : string → option nat) (skip : nat)
    (bol : bool) (s : string) :
  (count_items_from item skip bol s
   ≤ (if bol then 1 else 0) + count_newlines s)%nat.
Proof.
  revert skip bol. induction s as [|c s IH]; intros skip bol; [simpl; lia|].
  cbn [count_items_from count_newlines]. unfold is_newline.
  destruct skip as [|k].
  - destruct bol.
    + destruct (item (String c s)) as [len|].
      * specialize (IH (len - 1)%nat (Ascii.eqb c LF)).
        destruct (Ascii.eqb c LF); lia.
      * specialize (IH O (Ascii.eqb c LF)). destruct (Ascii.eqb c LF); lia.
    + specialize (IH O (Ascii.eqb c LF)). destruct (Ascii.eqb c LF); lia.
  - specialize (IH k (Ascii.eqb c LF)). destruct (Ascii.eqb c LF), bol; lia.
Qed.

Lemma count_prefix_none (p q : ascii → bool) (s : string) (d : ascii)
    (rest : string) :
  Str.any q s = false → str_drop (count_prefix p s) s = String d rest →
  q d = false.
Proof.
  induction s as [|c s IH]; [done|]. cbn [Str.any].
  intros [Hc Hs]%orb_false_elim. simpl.
  destruct (p c); [by apply IH|]. simpl. by intros [= <- _].
Qed.

Lemma match_bullet_none (s : string) :
  Str.any is_bullet s = false → match_bullet s = None.
Proof.
  intros Hs. unfold match_bullet.
  destruct (str_drop _ s) as [|c rest] eqn:Hd; [done|].
  by rewrite (count_prefix_none _ _ _ _ _ Hs Hd).
Qed.

Lemma count_bullets_none (skip : nat) (bol : bool) (s : string) :
  Str.any is_bullet s = false → count_items_from match_bullet skip bol s = O.
Proof.
  revert skip bol. induction s as [|c s IH]; intros skip bol Hs; [done|].
  cbn [count_items_from]. destruct skip as [|k].
  - rewrite (match_bullet_none _ Hs).
    cbn [Str.any] in Hs. apply orb_false_elim in Hs as [_ Hs].
    destruct bol; by apply IH.
  - cbn [Str.any] in Hs. apply orb_false_elim in Hs as [_ Hs]. by apply IH.
Qed.

(** X21: [count_lists] counts at most one bullet item and at most one
    numbered item for each line of the text, and no bullet item in a text
    without "-", "*" and "+". *)
Theorem count_lists_per_line (content : string) :
  (lists_bullet (count_lists content) ≤ 1 + count_newlines content)%nat
  ∧ (lists_numbered (count_lists content) ≤ 1 + count_newlines content)%nat
  ∧ (Str.any is_bullet content = false →
     lists_bullet (count_lists content) = O).
Proof.
  unfold count_lists. cbn [lists_bullet lists_numbered].
  split; [apply (count_items_per_line match_bullet 0 true)|].
  split; [apply (count_items_per_line match_numbered 0 true)|].
  apply count_bullets_none.
Qed.

(** ** Directories *)

Lemma grown_refl (d : Disk) : grown d d.
Proof. by split. Qed.

Lemma grown_trans (d1 d2 d3 : Disk) : grown d1 d2 → grown d2 d3 → grown d1 d3.
Proof. intros [Hf1 Hd1] [Hf2 Hd2]. split; [congruence|set_solver]. Qed.

Lemma grown_add_dir (p : Path) (d : Disk) : grown d (add_dir p d).
Proof. split; [done|]. simpl. set_solver. Qed.

Lemma is_dir_true (d : Disk) (p : Path) :
  is_dir d p = true ↔ p = [] ∨ p ∈ disk_dirs d.
Proof. unfold is_dir. apply bool_decide_eq_true. Qed.

Lemma is_dir_grown (d d' : Disk) (p : Path) :
  grown d d' → is_dir d p = true → is_dir d' p = true.
Proof.
  intros [_ Hd]. rewrite !is_dir_true. intros [?|?]; [by left|right].
  by apply Hd.
Qed.

Lemma is_dir_add_dir (p : Path) (d : Disk) : is_dir (add_dir p d) p = true.
Proof. apply is_dir_true. right. simpl. set_solver. Qed.

Lemma is_file_grown (d d' : Disk) (p : Path) :
  grown d d' → is_file d' p = is_file d p.
Proof. intros [Hf _]. unfold is_file. by rewrite Hf. Qed.

Lemma mkdir_Some (p : Path) (d d' : Disk) :
  mkdir p d = Some d' → grown d d' ∧ is_dir d' p = true.
Proof.
  unfold mkdir. destruct (is_dir d p) eqn:Hp.
  { intros [= <-]. split; [apply grown_refl|done]. }
  destruct (is_file d p); [done|].
  destruct (is_dir d (path_parent p)); [|done].
  intros [= <-]. split; [apply grown_add_dir|apply is_dir_add_dir].
Qed.

Lemma mkdir_parents_rev_Some (rp : list string) (d d' : Disk) :
  mkdir_parents_rev rp d = Some d' →
  grown d d' ∧ is_dir d' (rev rp) = true
  ∧ (∀ q, q ∈ disk_dirs d' → q ∈ disk_dirs d ∨ q `prefix_of` rev rp).
Proof.
  revert d'. induction rp as [|x rp IH]; intros d'.
  - simpl. intros [= <-]. split; [apply grown_refl|]. split; [done|auto].
  - cbn [mkdir_parents_rev].
    destruct (is_dir d (rev (x :: rp))) eqn:Hp.
    { intros [= <-]. split; [apply grown_refl|]. split; [done|auto]. }
    destruct (is_file d (rev (x :: rp))); [done|].
    destruct (mkdir_parents_rev rp d) as [d1|]; [|done].
    simpl. intros [= <-].
    destruct (IH d1 eq_refl) as (Hg & _ & Hnew).
    split; [eapply grown_trans; [done|apply grown_add_dir]|].
    split; [apply (is_dir_add_dir (rev rp ++ [x]))|].
    intros q. simpl. rewrite elem_of_union, elem_of_singleton.
    intros [->|Hq]; [by right|].
    destruct (Hnew q Hq) as [?|Hpre]; [by left|right].
    by apply prefix_app_r.
Qed.

Lemma mkdir_parents_dir (p : Path) (d : Disk) :
  is_dir d p = true → mkdir_parents p d = Some d.
Proof.
  unfold mkdir_parents. intros Hp. rewrite <- (rev_involutive p) in Hp.
  destruct (rev p) as [|x rp]; cbn [mkdir_parents_rev]; by rewrite Hp.
Qed.

Lemma mkdir_parents_is_Some (d : Disk) (q sfx : Path) :
  is_dir d q = true → free d q →
  is_Some (mkdir_parents (q ++ sfx) d).
Proof.
  intros Hq Hfree.
  induction sfx as [|x sfx IH] using rev_ind.
  - rewrite app_nil_r, mkdir_parents_dir by done. by eexists.
  - unfold mkdir_parents in *. rewrite app_assoc, rev_unit. cbn [mkdir_parents_rev].
    destruct (is_dir d (rev (x :: rev (q ++ sfx)))); [by eexists|].
    replace (is_file d (rev (x :: rev (q ++ sfx)))) with false.
    2:{ symmetry. apply bool_decide_eq_false. simpl.
        rewrite rev_involutive, <- app_assoc.
        rewrite (Hfree (q ++ sfx ++ [x])); [by intros [? ?]|].
        by apply prefix_app_r. }
    destruct IH as [d1 ->]. by eexists.
Qed.

Lemma free_grown (d d' : Disk) (dir : Path) :
  grown d d' → free d dir → free d' dir.
Proof. intros [Hf _] Hfree p Hp. rewrite Hf. by apply Hfree. Qed.

Lemma make_dirs_Some (output_dir : Path) (l : list Path) (d d' : Disk) :
  make_dirs output_dir l d = Some d' →
  grown d d'
  ∧ (∀ dir_path, dir_path ∈ l → is_dir d' (output_dir ++ dir_path) = true)
  ∧ (∀ q, q ∈ disk_dirs d' → q ∈ disk_dirs d
          ∨ ∃ dir_path, dir_path ∈ l ∧ q `prefix_of` output_dir ++ dir_path).
Proof.
  revert d. induction l as [|dir_path l IH]; intros d.
  - simpl. intros [= <-]. split; [apply grown_refl|].
    split; [by intros ? ?%elem_of_nil|auto].
  - cbn [make_dirs]. unfold mkdir_parents.
    destruct (mkdir_parents_rev _ d) as [d1|] eqn:Hmk; [|done]. simpl.
    intros Hrest. apply mkdir_parents_rev_Some in Hmk as (Hg1 & Hdir & Hnew1).
    rewrite rev_involutive in Hdir, Hnew1.
    apply IH in Hrest as (Hg & Hall & Hnew).
    split; [by eapply grown_trans|]. split.
    + intros p [->|Hp]%elem_of_cons; [by eapply is_dir_grown|by apply Hall].
    + intros q Hq. destruct (Hnew q Hq) as [Hq1|(p & Hp & Hpre)].
      * destruct (Hnew1 q Hq1) as [?|?]; [by left|right].
        exists dir_path. split; [left|done].
      * right. exists p. split; [by right|done].
Qed.

Lemma make_dirs_is_Some (output_dir : Path) (l : list Path) (d : Disk) :
  is_dir d output_dir = true → free d output_dir →
  is_Some (make_dirs output_dir l d).
Proof.
  revert d. induction l as [|dir_path l IH]; intros d Hdir Hfree;
    [by eexists|].
  cbn [make_dirs].
  destruct (mkdir_parents_is_Some d output_dir dir_path Hdir Hfree)
    as [d1 Hmk].
  rewrite Hmk. simpl.
  pose proof Hmk as Hmk'. unfold mkdir_parents in Hmk'.
  apply mkdir_parents_rev_Some in Hmk' as (Hg & _ & _).
  apply IH; [by eapply is_dir_grown|by eapply free_grown].
Qed.

Lemma setup_directories_Some (output_dir analysis_dir : Path) (d d' : Disk) :
  setup_directories output_dir analysis_dir d = Some d' →
  grown d d'
  ∧ is_dir d' output_dir = true ∧ is_dir d' analysis_dir = true
  ∧ (∀ dir_path, dir_path ∈ dirs →
       is_dir d' (output_dir ++ dir_path) = true)
  ∧ (∀ q, q ∈ disk_dirs d' →
       q ∈ disk_dirs d ∨ q = analysis_dir ∨ q = output_dir
       ∨ ∃ dir_path, dir_path ∈ dirs ∧ q `prefix_of` output_dir ++ dir_path).
Proof.
  unfold setup_directories.
  destruct (mkdir output_dir d) as [d1|] eqn:H1; [|done]. cbn [mbind option_bind].
  destruct (mkdir analysis_dir d1) as [d2|] eqn:H2; [|done]. cbn [mbind option_bind].
  intros H3.
  assert (Hnew1 : ∀ q, q ∈ disk_dirs d1 → q ∈ disk_dirs d ∨ q = output_dir).
  { revert H1. unfold mkdir. destruct (is_dir d output_dir).
    - intros [= <-]. auto.
    - destruct (is_file d output_dir); [done|].
      destruct (is_dir d _); [|done]. intros [= <-] q. simpl.
      rewrite elem_of_union, elem_of_singleton. tauto. }
  assert (Hnew2 : ∀ q, q ∈ disk_dirs d2 → q ∈ disk_dirs d1 ∨ q = analysis_dir).
  { revert H2. unfold mkdir. destruct (is_dir d1 analysis_dir).
    - intros [= <-]. auto.
    - destruct (is_file d1 analysis_dir); [done|].
      destruct (is_dir d1 _); [|done]. intros [= <-] q. simpl.
      rewrite elem_of_union, elem_of_singleton. tauto. }
  apply mkdir_Some in H1 as [Hg1 Hd1]. apply mkdir_Some in H2 as [Hg2 Hd2].
  apply make_dirs_Some in H3 as (Hg3 & Hall & Hnew3).
  split; [eapply grown_trans; [|done]; by eapply grown_trans|].
  split; [eapply is_dir_grown; [done|]; by eapply is_dir_grown|].
  split; [by eapply is_dir_grown|]. split; [done|].
  intros q Hq. destruct (Hnew3 q Hq) as [Hq2|?]; [|auto].
  destruct (Hnew2 q Hq2) as [Hq1|?]; [|auto].
  destruct (Hnew1 q Hq1) as [?|?]; auto.
Qed.

Lemma target_dir_eq (output_dir : Path) (doc : Doc) :
  target_dir output_dir doc
  = output_dir
    ++ default ["08_archive"; "legacy"] (category_mapping !! doc_category doc).
Proof.
  unfold target_dir, target_path, path_join, path_parent.
  by rewrite !app_assoc, removelast_last.
Qed.

Lemma mapped_dir_in_dirs (category : string) :
  default ["08_archive"; "legacy"] (category_mapping !! category) ∈ dirs.
Proof.
  destruct (category_mapping !! category) as [t|] eqn:Hc; simpl.
  - apply elem_of_list_to_map_2 in Hc.
    repeat (apply elem_of_cons in Hc as [[= _ ->]|Hc];
            [apply (bool_decide_unpack _); by vm_compute|]).
    by apply elem_of_nil in Hc.
  - apply (bool_decide_unpack _). by vm_compute.
Qed.

Lemma setup_directories_is_Some (output_dir analysis_dir : Path) (d : Disk) :
  is_dir d (path_parent output_dir) = true →
  is_dir d (path_parent analysis_dir) = true →
  free d output_dir → disk_files d !! analysis_dir = None →
  is_Some (setup_directories output_dir analysis_dir d).
Proof.
  intros Hpo Hpa Hfree Han. unfold setup_directories.
  assert (H1 : ∃ d1, mkdir output_dir d = Some d1).
  { unfold mkdir. destruct (is_dir d output_dir); [by eexists|].
    replace (is_file d output_dir) with false.
    - rewrite Hpo. by eexists.
    - symmetry. apply bool_decide_eq_false.
      rewrite (Hfree output_dir) by done. by intros [? ?]. }
  destruct H1 as [d1 H1]. rewrite H1. cbn [mbind option_bind].
  apply mkdir_Some in H1 as [Hg1 Hd1].
  assert (H2 : ∃ d2, mkdir analysis_dir d1 = Some d2).
  { unfold mkdir. destruct (is_dir d1 analysis_dir); [by eexists|].
    rewrite (is_file_grown d d1) by done.
    replace (is_file d analysis_dir) with false.
    - rewrite (is_dir_grown d d1) by done. by eexists.
    - symmetry. apply bool_decide_eq_false. rewrite Han. by intros [? ?]. }
  destruct H2 as [d2 H2]. rewrite H2. cbn [mbind option_bind].
  apply mkdir_Some in H2 as [Hg2 Hd2].
  apply make_dirs_is_Some; [by eapply is_dir_grown|].
  eapply free_grown; [|done]. by eapply grown_trans.
Qed.

Lemma setup_directories_again (output_dir analysis_dir : Path) (d d' : Disk) :
  setup_directories output_dir analysis_dir d = Some d' →
  setup_directories output_dir analysis_dir d' = Some d'.
Proof.
  intros (_ & Hout & Han & Hall & _)%setup_directories_Some.
  unfold setup_directories, mkdir.
  rewrite Hout. cbn [mbind option_bind]. rewrite Han. cbn [mbind option_bind].
  assert (Hl : ∀ l, (∀ p, p ∈ l → p ∈ dirs) →
               make_dirs output_dir l d' = Some d').
  { induction l as [|p l IH]; intros Hsub; [done|].
    cbn [make_dirs].
    rewrite mkdir_parents_dir by (apply Hall, Hsub; left).
    cbn [mbind option_bind]. apply IH. intros q Hq. apply Hsub. by right. }
  by apply Hl.
Qed.

(** X25: when [setup_directories] returns, it has changed no file and
    removed no directory, the output and the analysis directory exist, and so
    does the directory that [reorganize_documents] copies a document into,
    whatever the document. *)
Theorem setup_directories_makes_targets (output_dir analysis_dir : Path)
    (d d' : Disk) :
  setup_directories output_dir analysis_dir d = Some d' →
  grown d d'
  ∧ is_dir d' output_dir = true ∧ is_dir d' analysis_dir = true
  ∧ ∀ doc, is_dir d' (target_dir output_dir doc) = true.
Proof.
  intros (Hg & Hout & Han & Hall & _)%setup_directories_Some.
  split; [done|]. split; [done|]. split; [done|].
  intros doc. rewrite target_dir_eq. apply Hall, mapped_dir_in_dirs.
Qed.

Lemma setup_directories_makes_targets_witness :
  ∃ d', setup_directories OUTPUT_DIR ANALYSIS_DIR empty_disk = Some d'
        ∧ grown empty_disk d'
        ∧ is_dir d' OUTPUT_DIR = true ∧ is_dir d' ANALYSIS_DIR = true
        ∧ ∀ doc, is_dir d' (target_dir OUTPUT_DIR doc) = true.
Proof.
  destruct (setup_directories_is_Some OUTPUT_DIR ANALYSIS_DIR empty_disk)
    as [d' Hd'].
  - reflexivity.
  - reflexivity.
  - intros p _. apply lookup_empty.
  - apply lookup_empty.
  - exists d'. split; [exact Hd'|].
    exact (setup_directories_makes_targets OUTPUT_DIR ANALYSIS_DIR
             empty_disk d' Hd').
Defined.

(** X26: [setup_directories] returns on a disk where the parents of the
    output and the analysis directory exist, no file lies at or below the
    output directory and none at the analysis directory; and a second call
    on its result changes nothing. *)
Theorem setup_directories_returns (output_dir analysis_dir : Path)
    (d : Disk) :
  (is_dir d (path_parent output_dir) = true →
   is_dir d (path_parent analysis_dir) = true →
   free d output_dir → disk_files d !! analysis_dir = None →
   is_Some (setup_directories output_dir analysis_dir d))
  ∧ (∀ d', setup_directories output_dir analysis_dir d = Some d' →
           setup_directories output_dir analysis_dir d' = Some d').
Proof.
  split.
  - apply setup_directories_is_Some.
  - apply setup_directories_again.
Qed.

(** ** The whole run *)

Lemma scan_documents_full_docs `{PyLib} (input_dir : Path)
    (fs : gmap Path string) :
  info_doc <$> scan_documents_full input_dir fs = scan_documents input_dir fs.
Proof.
  unfold scan_documents_full, scan_documents.
  by rewrite <- list_fmap_compose.
Qed.

Lemma analyze_patterns_full_is_Some (documents : list DocInfo) :
  is_Some (analyze_patterns_full documents).
Proof.
  unfold analyze_patterns_full, analyze_patterns.
  destruct (average_quality_is_Some
              (quality_scores_of (info_doc <$> documents))) as [q ->].
  by eexists.
Qed.

Lemma json_encodable_iff (documents : list Doc) :
  json_encodable (find_duplicates documents) ↔ find_duplicates documents = ∅.
Proof.
  split.
  - intros Henc. apply map_empty. intros key.
    destruct (find_duplicates documents !! key) as [group|] eqn:Hkey; [|done].
    exfalso. pose proof (Henc key group Hkey) as Hnil. simpl in Hnil.
    assert (Hsome : is_Some (find_duplicates documents !! key)) by by eexists.
    apply find_duplicates_is_Some in Hsome as [p Hp].
    apply find_duplicates_lookup in Hkey as [_ Hgroup].
    apply Hgroup in Hp. rewrite Hnil in Hp. by apply elem_of_nil in Hp.
  - intros ->. apply map_Forall_empty.
Qed.

Lemma generate_analysis_report_is_Some `{ReportText} (analysis_dir : Path)
    (scan_date : string) (documents : list DocInfo) (patterns : PatternsFull)
    (fs : gmap Path string) :
  is_Some (generate_analysis_report analysis_dir scan_date documents
             patterns fs)
  ↔ find_duplicates (info_doc <$> documents) = ∅.
Proof.
  unfold generate_analysis_report. rewrite <- json_encodable_iff.
  destruct (decide (json_encodable _)) as [Henc|Henc].
  - split; [done|by eexists].
  - split; [by intros [? ?]|done].
Qed.


Lemma same_content_duplicates `{PyLib} (input_dir : Path)
    (fs : gmap Path string) (file1 file2 : Path) (content : string) :
  file1 ≠ file2 →
  scanned_file input_dir fs file1 content →
  scanned_file input_dir fs file2 content →
  find_duplicates (scan_documents input_dir fs) ≠ ∅.
Proof.
  intros Hne (Hf1 & Hb1 & He1 & Hs1) (Hf2 & Hb2 & He2 & Hs2).
  set (documents := scan_documents input_dir fs).
  assert (H1 : doc_info file1 content ∈ documents).
  { apply scan_documents_elem_of. by exists file1, content. }
  assert (H2 : doc_info file2 content ∈ documents).
  { apply scan_documents_elem_of. by exists file2, content. }
  apply list_elem_of_lookup_1 in H1 as [i Hi].
  apply list_elem_of_lookup_1 in H2 as [j Hj].
  assert (Hij : i ≠ j).
  { intros ->. rewrite Hi in Hj. injection Hj as Hp. done. }
  assert (Hkey : is_Some (find_duplicates documents
                            !! md5_hexdigest content)).
  { apply find_duplicates_is_Some.
    destruct (decide (i < j)%nat) as [Hlt|Hge].
    - exists file1. apply all_entries_elem_of.
      exists i, j, (doc_info file1 content), (doc_info file2 content).
      split; [done|]. split; [done|]. split; [done|].
      rewrite pair_entries_same_hash by done. left.
    - exists file2. apply all_entries_elem_of.
      exists j, i, (doc_info file2 content), (doc_info file1 content).
      split; [lia|]. split; [done|]. split; [done|].
      rewrite pair_entries_same_hash by done. left. }
  intros Hempty. rewrite Hempty, lookup_empty in Hkey. by destruct Hkey.
Qed.





(** X28: [run] raises on every disk on which [scan_documents] reads two
    files of the same content, so that nothing is reorganized. *)
Theorem run_stops_on_duplicates `{PyLib} `{ReportText}
    (input_dir output_dir analysis_dir : Path) (scan_date : string)
    (d : Disk) (file1 file2 : Path) (content : string) :
  file1 ≠ file2 →
  scanned_file input_dir (disk_files d) file1 content →
  scanned_file input_dir (disk_files d) file2 content →
  run input_dir output_dir analysis_dir scan_date d = None.
Proof.
  intros Hne Hs1 Hs2. unfold run.
  destruct (setup_directories output_dir analysis_dir d) as [d1|] eqn:Hsetup;
    [|done].
  cbn [mbind option_bind].
  apply setup_directories_Some in Hsetup as ([Hfiles _] & _).
  unfold scan_disk. destruct (decide _); [done|]. cbn [mbind option_bind].
  rewrite Hfiles.
  set (documents := scan_documents_full input_dir (disk_files d)).
  destruct (analyze_patterns_full_is_Some documents) as [patterns ->].
  cbn [mbind option_bind].
  destruct (generate_analysis_report analysis_dir scan_date documents
              patterns (disk_files d)) as [fs2|] eqn:Hreport; [|done].
  exfalso.
  apply (same_content_duplicates input_dir (disk_files d) file1 file2 content);
    [done..|].
  rewrite <- scan_documents_full_docs.
  eapply generate_analysis_report_is_Some. by eexists.
Qed.

Lemma run_stops_on_duplicates_witness :
  @run text_lib plain_reports INPUT_DIR OUTPUT_DIR ANALYSIS_DIR
    "2025-01-01T00:00:00" dup_disk = None.
Proof.
  apply (@run_stops_on_duplicates text_lib plain_reports INPUT_DIR OUTPUT_DIR
           ANALYSIS_DIR "2025-01-01T00:00:00" dup_disk
           ["docs"; "a.md"] ["docs"; "sub"; "c.md"] "same text").
  - done.
  - split; [reflexivity|].
    split; [apply (bool_decide_unpack _); by vm_compute|].
    split; [reflexivity|]. apply (bool_decide_unpack _). by vm_compute.
  - split; [reflexivity|].
    split; [apply (bool_decide_unpack _); by vm_compute|].
    split; [reflexivity|]. apply (bool_decide_unpack _). by vm_compute.
Defined.




(** ** Issues *)

Lemma flagged_snoc (applies : DocInfo → bool) (documents : list DocInfo)
    (doc : DocInfo) :
  flagged applies (documents ++ [doc])
  = if doc_quality_score (info_doc doc) <? 80
    then append_if (applies doc) (doc_name (info_doc doc))
           (flagged applies documents)
    else flagged applies documents.
Proof.
  unfold flagged. rewrite filter_app, fmap_app, filter_cons, filter_nil.
  destruct (Z.ltb_spec (doc_quality_score (info_doc doc)) 80) as [Hlt|Hge].
  - destruct (applies doc) eqn:Ha; simpl.
    + by rewrite decide_True.
    + rewrite decide_False by (by intros [_ ?]). simpl. by rewrite app_nil_r.
  - rewrite decide_False by (intros [? _]; lia). simpl. by rewrite app_nil_r.
Qed.

Lemma find_issues_flagged (documents : list DocInfo) :
  find_issues documents = {|
    iss_unprofessional_language :=
      flagged (fun doc => has_profanity (doc_content (info_doc doc)))
        documents;
    iss_too_short :=
      flagged (fun doc => too_short (doc_content (info_doc doc))) documents;
    iss_poor_naming :=
      flagged (fun doc => many_underscores (doc_name (info_doc doc)))
        documents;
    iss_no_headers :=
      flagged (fun doc => bool_decide (info_headers doc = [])) documents
  |}.
Proof.
  unfold find_issues.
  induction documents as [|doc documents IH] using rev_ind; [done|].
  rewrite foldl_app. cbn [foldl]. rewrite IH. unfold issues_step.
  rewrite !flagged_snoc. cbn [iss_unprofessional_language iss_too_short
                              iss_poor_naming iss_no_headers].
  by destruct (doc_quality_score (info_doc doc) <? 80).
Qed.

Lemma scan_documents_full_elem_of `{PyLib} (input_dir : Path)
    (fs : gmap Path string) (doc : DocInfo) :
  doc ∈ scan_documents_full input_dir fs ↔
  ∃ file_path content,
    doc = doc_info_full file_path content
    ∧ scanned_file input_dir fs file_path content.
Proof.
  unfold scan_documents_full, rglob_md, scanned_file.
  rewrite list_elem_of_fmap. split.
  - intros ([file_path content] & -> & Hf).
    apply list_elem_of_filter in Hf as [Hskip Hf].
    apply list_elem_of_filter in Hf as [[Hbelow Hmd] Hf].
    apply elem_of_map_to_list in Hf. by exists file_path, content.
  - intros (file_path & content & -> & Hfs & Hbelow & Hmd & Hskip).
    exists (file_path, content). split; [done|].
    apply list_elem_of_filter. split; [done|].
    apply list_elem_of_filter. split; [done|].
    by apply elem_of_map_to_list.
Qed.

Lemma flagged_scanned `{PyLib} (input_dir : Path) (fs : gmap Path string)
    (applies : DocInfo → bool) (name : string) :
  name ∈ flagged applies (scan_documents_full input_dir fs) ↔
  ∃ file_path content,
    scanned_file input_dir fs file_path content
    ∧ path_name file_path = name
    ∧ assess_quality content name < 80
    ∧ applies (doc_info_full file_path content) = true.
Proof.
  unfold flagged. rewrite list_elem_of_fmap. split.
  - intros (doc & -> & [[Hlt Ha] Hin]%list_elem_of_filter).
    apply scan_documents_full_elem_of in Hin
      as (file_path & content & -> & Hscan).
    by exists file_path, content.
  - intros (file_path & content & Hscan & <- & Hlt & Ha).
    exists (doc_info_full file_path content). split; [done|].
    apply list_elem_of_filter. split; [done|].
    apply scan_documents_full_elem_of. by exists file_path, content.
Qed.

Lemma str_count_go_contains (sub : string) (skip : nat) (s : string) :
  (0 < str_count_go sub skip s)%nat → Str.contains sub s = true.
Proof.
  revert skip. induction s as [|c s IH]; intros skip; [simpl; lia|].
  cbn [str_count_go]. rewrite contains_cons. destruct skip as [|k].
  - destruct (Str.startswith sub (String c s)); [done|].
    intros Hpos. by rewrite (IH _ Hpos).
  - intros Hpos. rewrite (IH _ Hpos). apply orb_true_r.
Qed.

Lemma many_underscores_poor_name (name : string) :
  many_underscores name = true → poor_name name = true.
Proof.
  unfold many_underscores, poor_name.
  intros [->|Hcount%Nat.ltb_lt]%orb_true_iff; [done|].
  rewrite (str_count_go_contains "_" 0 name); [apply orb_true_r|].
  unfold str_count in Hcount. lia.
Qed.

(** X22: the lists of issues on a scanned corpus. A document enters them
    only with a score under 80, so a defect alone does not list it: a name is
    under [unprofessional_language] when a scanned file of that name has
    profanity and one more of the five defects; under [too_short] when it is
    short and has a marker, profanity or no top header (a poor name does not
    suffice); under [poor_naming] when its name is upper case or has more
    than three underscores and it has profanity or two of the three other
    defects; under [no_headers] when it has no header and a score under
    80. *)
Theorem issues_of_scanned `{PyLib} (input_dir : Path)
    (fs : gmap Path string) (name : string) :
  (name ∈ iss_unprofessional_language
            (find_issues (scan_documents_full input_dir fs)) ↔
   ∃ file_path content,
     scanned_file input_dir fs file_path content
     ∧ path_name file_path = name
     ∧ has_profanity content = true
     ∧ has_marker content || too_short content || no_top_header content
       || poor_name name = true)
  ∧ (name ∈ iss_too_short (find_issues (scan_documents_full input_dir fs)) ↔
     ∃ file_path content,
       scanned_file input_dir fs file_path content
       ∧ path_name file_path = name
       ∧ too_short content = true
       ∧ has_marker content || has_profanity content
         || no_top_header content = true)
  ∧ (name ∈ iss_poor_naming (find_issues (scan_documents_full input_dir fs)) ↔
     ∃ file_path content,
       scanned_file input_dir fs file_path content
       ∧ path_name file_path = name
       ∧ many_underscores name = true
       ∧ has_profanity content
         || has_marker content && too_short content
         || has_marker content && no_top_header content
         || too_short content && no_top_header content = true)
  ∧ (name ∈ iss_no_headers (find_issues (scan_documents_full input_dir fs)) ↔
     ∃ file_path content,
       scanned_file input_dir fs file_path content
       ∧ path_name file_path = name
       ∧ extract_headers content = []
       ∧ assess_quality content name < 80).
Proof.
  rewrite find_issues_flagged.
  cbn [iss_unprofessional_language iss_too_short iss_poor_naming
       iss_no_headers].
  rewrite !flagged_scanned.
  split; [|split; [|split]].
  - split; intros (file_path & content & Hscan & Hname & H1 & H2);
      exists file_path, content; (split; [done|]); (split; [done|]);
      cbn [doc_info_full info_doc doc_info doc_content] in *;
      revert H1 H2; rewrite assess_quality_sum; unfold deduction;
      destruct (has_marker content), (has_profanity content),
        (too_short content), (no_top_header content), (poor_name name);
      simpl; intros; (split; [done || lia|done || lia]).
  - split; intros (file_path & content & Hscan & Hname & H1 & H2);
      exists file_path, content; (split; [done|]); (split; [done|]);
      cbn [doc_info_full info_doc doc_info doc_content] in *;
      revert H1 H2; rewrite assess_quality_sum; unfold deduction;
      destruct (has_marker content), (has_profanity content),
        (too_short content), (no_top_header content), (poor_name name);
      simpl; intros; (split; [done || lia|done || lia]).
  - split; intros (file_path & content & Hscan & Hname & H1 & H2);
      exists file_path, content; (split; [done|]); (split; [done|]);
      cbn [doc_info_full info_doc doc_info doc_name] in *;
      rewrite Hname in *;
      [pose proof (many_underscores_poor_name name H2) as Hpoor
      |pose proof (many_underscores_poor_name name H1) as Hpoor];
      revert H1 H2; rewrite assess_quality_sum, Hpoor; unfold deduction;
      destruct (has_marker content), (has_profanity content),
        (too_short content), (no_top_header content);
      simpl; intros; (split; [done || lia|done || lia]).
  - split; intros (file_path & content & Hscan & Hname & H1 & H2);
      exists file_path, content; (split; [done|]); (split; [done|]);
      cbn [doc_info_full info_headers] in *.
    + split; [by apply bool_decide_eq_true in H2|done].
    + split; [done|by apply bool_decide_eq_true].
Qed.

(** ** Recommendations *)

Lemma generate_recommendations_advice (patterns : PatternsFull)
    (documents : list Doc) :
  generate_recommendations patterns documents
  = advice (if Qlt_le_dec (pat_average_quality (pat_base patterns)) 85
            then true else false)
      "Improve overall documentation quality"
    ++ advice (bool_decide
                 (iss_unprofessional_language (pat_issues patterns) ≠ []))
         "Clean up unprofessional language in documents"
    ++ advice (bool_decide (iss_poor_naming (pat_issues patterns) ≠ []))
         "Rename files to use lowercase with hyphens"
    ++ advice (bool_decide (find_duplicates documents ≠ ∅))
         "Consolidate duplicate documentation"
    ++ advice (default 0%nat
                 (pat_categories (pat_base patterns) !! "api_reference")
               <? 2)%nat
         "Expand API reference documentation"
    ++ advice (default 0%nat
                 (pat_categories (pat_base patterns) !! "vsm_systems")
               <? 5)%nat
         "Document each VSM system (1-5) separately".
Proof.
  unfold generate_recommendations.
  assert (Hd : (0 <? size (find_duplicates documents))%nat
               = bool_decide (find_duplicates documents ≠ ∅)).
  { destruct (Nat.ltb_spec 0 (size (find_duplicates documents))) as [Hpos|Hz].
    - rewrite bool_decide_eq_true_2; [done|].
      intros Hempty. rewrite Hempty, map_size_empty in Hpos. lia.
    - rewrite bool_decide_eq_false_2; [done|].
      intros Hne. apply Hne, map_size_empty_iff. lia. }
  rewrite Hd.
  destruct (Qlt_le_dec _ _), (bool_decide (iss_unprofessional_language _ ≠ [])),
    (bool_decide (iss_poor_naming _ ≠ [])),
    (bool_decide (find_duplicates documents ≠ ∅)),
    (_ <? 2)%nat, (_ <? 5)%nat; reflexivity.
Qed.

Lemma advice_sublist (applies : bool) (sentence : string)
    (l k : list string) :
  l `sublist_of` k → advice applies sentence ++ l `sublist_of` sentence :: k.
Proof.
  intros Hl. destruct applies; simpl.
  - by apply sublist_skip.
  - by apply sublist_cons.
Qed.

Lemma elem_of_advice (applies : bool) (sentence x : string) :
  x ∈ advice applies sentence ↔ applies = true ∧ x = sentence.
Proof.
  destruct applies; simpl.
  - rewrite list_elem_of_singleton. split; [by intros ->|by intros [_ ->]].
  - split; [by intros ?%elem_of_nil|by intros [? _]].
Qed.

Lemma category_count_le (documents : list Doc) (category : string) :
  (default 0%nat (counter (doc_category <$> documents) !! category)
   ≤ length documents)%nat.
Proof.
  rewrite counter_lookup. cbn zeta.
  destruct (decide _) as [|Hn]; simpl; [lia|].
  etrans; [apply length_filter|]. by rewrite length_fmap.
Qed.

Lemma flagged_nil_iff (applies : DocInfo → bool) (documents : list DocInfo) :
  flagged applies documents ≠ [] ↔
  ∃ doc, doc ∈ documents ∧ doc_quality_score (info_doc doc) < 80
         ∧ applies doc = true.
Proof.
  unfold flagged. split.
  - intros Hne. destruct (filter _ documents) as [|doc l] eqn:Hf; [done|].
    exists doc. assert (Hin : doc ∈ doc :: l) by left. rewrite <- Hf in Hin.
    apply list_elem_of_filter in Hin as [[? ?] ?]. done.
  - intros (doc & Hin & Hlt & Ha) Hnil.
    apply fmap_nil_inv in Hnil.
    assert (Hf : doc ∈ filter (fun doc => doc_quality_score (info_doc doc) < 80
                                          ∧ applies doc = true) documents)
      by by apply list_elem_of_filter.
    rewrite Hnil in Hf. by apply elem_of_nil in Hf.
Qed.

(** X23: the recommendations for a corpus. [analyze_patterns] returns, and
    [generate_recommendations] picks from its six sentences in their order;
    a corpus of fewer than two documents is told to expand the API
    reference, one of fewer than five to document each VSM system; the
    consolidation of duplicates is recommended exactly when
    [find_duplicates] finds a group, the clean-up of language exactly when a
    document of a score under 80 has profanity, and the renaming exactly
    when a document of a score under 80 has an upper case name or more than
    three underscores. *)
Theorem recommendations_of_corpus (documents : list DocInfo) :
  ∃ patterns,
    analyze_patterns_full documents = Some patterns
    ∧ generate_recommendations patterns (info_doc <$> documents)
      `sublist_of` all_recommendations
    ∧ ((length documents < 2)%nat →
       "Expand API reference documentation"
       ∈ generate_recommendations patterns (info_doc <$> documents))
    ∧ ((length documents < 5)%nat →
       "Document each VSM system (1-5) separately"
       ∈ generate_recommendations patterns (info_doc <$> documents))
    ∧ ("Consolidate duplicate documentation"
       ∈ generate_recommendations patterns (info_doc <$> documents)
       ↔ find_duplicates (info_doc <$> documents) ≠ ∅)
    ∧ ("Clean up unprofessional language in documents"
       ∈ generate_recommendations patterns (info_doc <$> documents)
       ↔ ∃ doc, doc ∈ documents ∧ doc_quality_score (info_doc doc) < 80
                ∧ has_profanity (doc_content (info_doc doc)) = true)
    ∧ ("Rename files to use lowercase with hyphens"
       ∈ generate_recommendations patterns (info_doc <$> documents)
       ↔ ∃ doc, doc ∈ documents ∧ doc_quality_score (info_doc doc) < 80
                ∧ many_underscores (doc_name (info_doc doc)) = true).
Proof.
  destruct (analyze_patterns_full_is_Some documents) as [patterns Hpat].
  exists patterns. split; [done|].
  rewrite generate_recommendations_advice.
  unfold analyze_patterns_full, analyze_patterns in Hpat.
  destruct (average_quality _) as [avg|]; [|done].
  cbn [mbind option_bind] in Hpat. injection Hpat as <-.
  cbn [pat_base pat_categories pat_issues pat_average_quality].
  rewrite find_issues_flagged.
  cbn [iss_unprofessional_language iss_poor_naming].
  pose proof (category_count_le (info_doc <$> documents) "api_reference")
    as Hapi.
  pose proof (category_count_le (info_doc <$> documents) "vsm_systems")
    as Hvsm.
  rewrite length_fmap in Hapi, Hvsm.
  set (b1 := if Qlt_le_dec avg 85 then true else false).
  set (b2 := bool_decide (flagged _ documents ≠ [])).
  set (b3 := bool_decide (flagged _ documents ≠ [])).
  set (b4 := bool_decide (find_duplicates _ ≠ ∅)).
  set (n5 := default 0%nat (_ !! "api_reference")) in *.
  set (n6 := default 0%nat (_ !! "vsm_systems")) in *.
  split.
  { unfold all_recommendations.
    repeat apply advice_sublist.
    replace (advice (n6 <? 5)%nat _) with (advice (n6 <? 5)%nat
      "Document each VSM system (1-5) separately" ++ []) by apply app_nil_r.
    apply advice_sublist. constructor. }
  split.
  { intros Hlen. replace (n5 <? 2)%nat with true
      by (symmetry; apply Nat.ltb_lt; lia).
    rewrite !elem_of_app. do 4 right. left. left. }
  split.
  { intros Hlen. replace (n6 <? 5)%nat with true
      by (symmetry; apply Nat.ltb_lt; lia).
    rewrite !elem_of_app. do 5 right. left. }
  split.
  { rewrite <- (bool_decide_eq_true (find_duplicates _ ≠ ∅)). fold b4.
    rewrite !elem_of_app, !elem_of_advice.
    split; [|by auto 10].
    intros [[_ [=]]|[[_ [=]]|[[_ [=]]|[[? _]|[[_ [=]]|[_ [=]]]]]]]; done. }
  split.
  { rewrite <- flagged_nil_iff.
    rewrite <- (bool_decide_eq_true (flagged _ documents ≠ [])). fold b2.
    rewrite !elem_of_app, !elem_of_advice.
    split; [|by auto 10].
    intros [[_ [=]]|[[? _]|[[_ [=]]|[[_ [=]]|[[_ [=]]|[_ [=]]]]]]]; done. }
  rewrite <- flagged_nil_iff.
  rewrite <- (bool_decide_eq_true (flagged _ documents ≠ [])). fold b3.
  rewrite !elem_of_app, !elem_of_advice.
  split; [|by auto 10].
  intros [[_ [=]]|[[_ [=]]|[[? _]|[[_ [=]]|[[_ [=]]|[_ [=]]]]]]]; done.
Qed.

(** ** Keyword frequencies *)

Lemma tally_add_map (x : string) (c : list (string * nat)) :
  (list_to_map (tally_add x c) : gmap string nat)
  = <[x := S (default O ((list_to_map c : gmap string nat) !! x))]>
      (list_to_map c).
Proof.
  induction c as [|[y n] c IH]; [done|].
  cbn [tally_add]. destruct (String.eqb_spec x y) as [->|Hne].
  - cbn [list_to_map foldr]. simpl.
    rewrite lookup_insert_eq. simpl. by rewrite insert_insert_eq.
  - cbn [list_to_map foldr] in *. simpl. rewrite IH.
    rewrite lookup_insert_ne by done. by apply insert_insert_ne.
Qed.

Lemma tally_map (items : list string) :
  (list_to_map (tally items) : gmap string nat) = counter items.
Proof.
  unfold tally.
  induction items as [|x items IH] using rev_ind; [done|].
  rewrite foldl_app, counter_snoc. cbn [foldl].
  by rewrite tally_add_map, IH.
Qed.

Lemma tally_add_keys (x : string) (c : list (string * nat)) :
  (tally_add x c).*1 = if decide (x ∈ c.*1) then c.*1 else c.*1 ++ [x].
Proof.
  induction c as [|[y n] c IH]; [done|].
  cbn [tally_add]. destruct (String.eqb_spec x y) as [->|Hne].
  - rewrite decide_True by (rewrite fmap_cons; left). done.
  - rewrite !fmap_cons, IH. cbn [fst].
    destruct (decide (x ∈ c.*1)) as [Hin|Hout].
    + by rewrite decide_True by by right.
    + rewrite decide_False; [done|].
      by intros [?|?]%elem_of_cons.
Qed.

Lemma tally_keys (items : list string) :
  NoDup (tally items).*1 ∧ ∀ x, x ∈ (tally items).*1 → x ∈ items.
Proof.
  unfold tally.
  induction items as [|x items [IHnd IHin]] using rev_ind.
  - split; [constructor|by intros ? ?%elem_of_nil].
  - rewrite foldl_app. cbn [foldl]. rewrite tally_add_keys.
    destruct (decide _) as [Hin|Hout].
    + split; [done|]. intros y Hy. apply elem_of_app. left. by apply IHin.
    + split.
      * apply NoDup_app. split; [done|].
        split; [|apply NoDup_singleton].
        by intros y Hy ->%list_elem_of_singleton.
      * intros y [Hy|Hy]%elem_of_app; apply elem_of_app; [left|by right].
        by apply IHin.
Qed.

Lemma tally_elem_of (items : list string) (x : string) (n : nat) :
  (x, n) ∈ tally items ↔
  n = length (filter (fun y => y = x) items) ∧ (1 ≤ n)%nat.
Proof.
  rewrite (elem_of_list_to_map (M := gmap string)) by apply tally_keys.
  rewrite tally_map, counter_lookup. cbn zeta.
  destruct (decide _) as [Hz|Hnz].
  - split; [done|]. intros [-> ?]. lia.
  - split; [intros [= <-]; split; [done|lia]|by intros [-> _]].
Qed.

Lemma occurrences_NoDup (l : list string) (x : string) :
  NoDup l →
  length (filter (fun y => y = x) l) = if decide (x ∈ l) then 1%nat else 0%nat.
Proof.
  induction 1 as [|y l Hy Hnd IH]; [done|].
  rewrite filter_cons. destruct (decide (y = x)) as [->|Hne].
  - rewrite decide_True by left. simpl. rewrite IH.
    by rewrite decide_False.
  - rewrite IH. destruct (decide (x ∈ l)) as [Hin|Hout].
    + by rewrite decide_True by by right.
    + rewrite decide_False; [done|]. intros [?|?]%elem_of_cons; done.
Qed.

Lemma occurrences_all_keywords (documents : list DocInfo) (x : string) :
  (∀ doc, doc ∈ documents → NoDup (info_keywords doc)) →
  length (filter (fun y => y = x) (all_keywords documents))
  = documents_with x documents.
Proof.
  unfold all_keywords, documents_with.
  induction documents as [|doc documents IH]; intros Hnd; [done|].
  cbn [mbind list_bind]. rewrite filter_app, length_app, filter_cons.
  rewrite IH by (intros ? ?; apply Hnd; by right).
  rewrite occurrences_NoDup by (apply Hnd; left).
  destruct (decide (x ∈ info_keywords doc)); simpl; lia.
Qed.

Lemma extract_keywords_listed (content : string) :
  NoDup (extract_keywords content)
  ∧ ∀ x, x ∈ extract_keywords content → x ∈ vsm_keywords.
Proof.
  unfold extract_keywords.
  set (sorted := sort_by_count (keyword_counts (keyword_text content))).
  assert (Hperm : sorted.*1
                  ≡ₚ filter (fun k => Str.contains k (keyword_text content)
                                      = true) vsm_keywords).
  { unfold sorted. rewrite sort_by_count_perm. by rewrite keyword_counts_names. }
  split.
  - apply (sublist_NoDup _ (sorted.*1)); [|apply sublist_take].
    rewrite Hperm. apply NoDup_filter, vsm_keywords_NoDup.
  - intros x (i & Hi & _)%elem_of_take.
    apply list_elem_of_lookup_2 in Hi. rewrite Hperm in Hi.
    by apply list_elem_of_filter in Hi as [_ ?].
Qed.

(** X24: the table [common_keywords] of a scanned corpus. The cut at 20
    drops nothing, since only the 19 keywords of [extract_keywords] can occur;
    the count of a keyword is the number of scanned documents that have it
    among their (at most ten) keywords, not the number of its occurrences;
    and the counts fall along the table. *)
Theorem common_keywords_count_documents `{PyLib} (input_dir : Path)
    (fs : gmap Path string) :
  ∃ patterns,
    analyze_patterns_full (scan_documents_full input_dir fs) = Some patterns
    ∧ pat_common_keywords patterns
      = sort_by_count (tally (all_keywords (scan_documents_full input_dir fs)))
    ∧ (length (pat_common_keywords patterns) ≤ 19)%nat
    ∧ (∀ keyword n,
         (keyword, n) ∈ pat_common_keywords patterns ↔
         n = documents_with keyword (scan_documents_full input_dir fs)
         ∧ (1 ≤ n)%nat)
    ∧ falling (pat_common_keywords patterns).
Proof.
  set (documents := scan_documents_full input_dir fs).
  destruct (analyze_patterns_full_is_Some documents) as [patterns Hpat].
  exists patterns. split; [done|].
  unfold analyze_patterns_full in Hpat.
  destruct (analyze_patterns _) as [base|]; [|done].
  cbn [mbind option_bind] in Hpat. injection Hpat as <-.
  cbn [pat_common_keywords]. unfold most_common.
  assert (Hdocs : ∀ doc, doc ∈ documents →
            NoDup (info_keywords doc)
            ∧ ∀ x, x ∈ info_keywords doc → x ∈ vsm_keywords).
  { intros doc (file_path & content & -> & _)%scan_documents_full_elem_of.
    apply extract_keywords_listed. }
  set (freq := tally (all_keywords documents)).
  assert (Hlen : (length (sort_by_count freq) ≤ 19)%nat).
  { rewrite sort_by_count_perm.
    rewrite <- (length_fmap fst).
    change 19%nat with (length vsm_keywords).
    apply submseteq_length, NoDup_submseteq; [apply tally_keys|].
    intros x Hx%tally_keys. unfold all_keywords in Hx.
    apply list_elem_of_bind in Hx as (doc & Hx & Hdoc).
    by apply (Hdocs doc Hdoc). }
  rewrite take_ge by lia.
  split; [done|]. split; [done|]. split.
  - intros keyword n. rewrite sort_by_count_perm. unfold freq.
    rewrite tally_elem_of, occurrences_all_keywords; [done|].
    intros doc Hdoc. by apply Hdocs.
  - apply sort_by_count_falling.
Qed.
